(** * RnG growth dashboard: the metric comparison and reshaping engine

    A shallow embedding of the tabular pipeline of
    [streamlit-snowflake-app/src/app.py] and of [sort_category_cohorts] in
    [streamlit-snowflake-app/src/utils.py].

    The program is written against pandas.  A data frame is embedded as a
    list of rows, each row an association list from column labels to values;
    a numeric cell is either missing, an infinity, or a finite number.
    Finite numbers are exact rationals: binary floating point error is not
    part of the model, while the behaviour of pandas on missing values,
    on division by zero and on rounding to a number of decimals is, and so
    is the dtype of a column where it decides what [.round] and [.replace]
    do: a column in which [.replace(0, pd.NA)] replaced a 0 is an object
    column. *)

From Stdlib Require Import List Bool Arith ZArith QArith Qabs Qround Lia.
From Stdlib Require Import String Ascii.
From Stdlib Require Import Permutation Sorted.
Import ListNotations.

Local Open Scope Z_scope.

(** ** Numeric cells *)

Module Cells.

(** A numeric cell.  [NaN] stands for every missing value of pandas
    ([numpy.nan], [None], [pd.NA]).  A finite cell holds the exact rational
    value: the arithmetic below is the arithmetic of the code without the
    rounding error of 64-bit floats and without the wrap-around of 64-bit
    integers.  Where the exact value of a quotient lies halfway between two
    decimals (23 / 160 * 100 = 14.375), [.round] of the code rounds the
    float next to it and may give the other neighbour. *)
Inductive cell : Type :=
| NaN
| PosInf
| NegInf
| Fin (q : Q).

Definition is_nan (c : cell) : bool :=
  match c with NaN => true | _ => false end.

Definition is_finite (c : cell) : bool :=
  match c with Fin _ => true | _ => false end.

Definition is_inf (c : cell) : bool :=
  match c with PosInf | NegInf => true | _ => false end.

Definition Qis_zero (q : Q) : bool := Z.eqb (Qnum q) 0.

(** [series == 0]: a missing value or an infinity is not equal to 0. *)
Definition eq_zero (c : cell) : bool :=
  match c with Fin q => Qis_zero q | _ => false end.

(** [series != 0] *)
Definition ne_zero (c : cell) : bool := negb (eq_zero c).

Definition cell_eqb (a b : cell) : bool :=
  match a, b with
  | NaN, NaN => true
  | PosInf, PosInf => true
  | NegInf, NegInf => true
  | Fin p, Fin q => Qeq_bool p q
  | _, _ => false
  end.

Definition add (a b : cell) : cell :=
  match a, b with
  | NaN, _ | _, NaN => NaN
  | PosInf, NegInf | NegInf, PosInf => NaN
  | PosInf, _ | _, PosInf => PosInf
  | NegInf, _ | _, NegInf => NegInf
  | Fin p, Fin q => Fin (Qred (p + q))
  end.

Definition neg (a : cell) : cell :=
  match a with
  | NaN => NaN
  | PosInf => NegInf
  | NegInf => PosInf
  | Fin p => Fin (Qred (- p))
  end.

(** [a - b] *)
Definition sub (a b : cell) : cell :=
  match a, b with
  | Fin p, Fin q => Fin (Qred (p - q))
  | _, _ => add a (neg b)
  end.

(** The infinity whose sign is the sign of [s]; [NaN] when [s] is zero. *)
Definition inf_of_sign (s : comparison) : cell :=
  match s with Gt => PosInf | Lt => NegInf | Eq => NaN end.

Definition sign (a : cell) : comparison :=
  match a with
  | NaN => Eq
  | PosInf => Gt
  | NegInf => Lt
  | Fin p => Qcompare p 0
  end.

Definition sign_mul (s t : comparison) : comparison :=
  match s, t with
  | Eq, _ | _, Eq => Eq
  | Gt, Gt | Lt, Lt => Gt
  | Gt, Lt | Lt, Gt => Lt
  end.

(** [a * b] *)
Definition mul (a b : cell) : cell :=
  match a, b with
  | NaN, _ | _, NaN => NaN
  | Fin p, Fin q => Fin (Qred (p * q))
  | _, _ => inf_of_sign (sign_mul (sign a) (sign b))
  end.

(** [a / b], true division.  A finite non-zero number divided by zero is an
    infinity with the sign of the numerator, and 0 / 0 is missing: this is
    what pandas yields for float and for integer columns alike. *)
Definition truediv (a b : cell) : cell :=
  match a, b with
  | NaN, _ | _, NaN => NaN
  | Fin p, Fin q =>
      if Qis_zero q then inf_of_sign (Qcompare p 0) else Fin (Qred (p / q))
  | Fin _, _ => Fin 0
  | _, Fin q =>
      match Qcompare q 0 with
      | Lt => neg a
      | _ => a
      end
  | _, _ => NaN
  end.

(** Round half to even, the rounding of [numpy.rint]. *)
Definition rint (q : Q) : Z :=
  let f := Qfloor q in
  match Qcompare (q - inject_Z f) (1 # 2) with
  | Lt => f
  | Gt => f + 1
  | Eq => if Z.even f then f else f + 1
  end.

Definition pow10 (d : nat) : Q := inject_Z (10 ^ Z.of_nat d).

(** Rounding of a finite number to [d] decimals. *)
Definition Qround_dec (d : nat) (q : Q) : Q :=
  Qred (inject_Z (rint (q * pow10 d)) / pow10 d).

(** [.round(d)]: missing values and infinities are left as they are. *)
Definition round (d : nat) (c : cell) : cell :=
  match c with
  | Fin q => Fin (Qround_dec d q)
  | _ => c
  end.

(** [.replace(0, pd.NA)] on one cell. *)
Definition replace_zero_NA (c : cell) : cell :=
  if eq_zero c then NaN else c.

(** [.replace([pd.NA, float('inf'), -float('inf')], 0)] on one cell of an
    object column: every missing value and the two infinities become 0. *)
Definition replace_NA_inf_zero (c : cell) : cell :=
  match c with
  | Fin q => Fin q
  | _ => Fin 0
  end.

(** The same call on one cell of a float column.  A float column cannot
    hold [pd.NA], so pandas leaves [pd.NA] out of the values to replace
    there: the two infinities become 0 and a missing value stays
    missing. *)
Definition replace_inf_zero (c : cell) : cell :=
  match c with
  | PosInf | NegInf => Fin 0
  | _ => c
  end.

Definition of_Z (z : Z) : cell := Fin (inject_Z z).

End Cells.

Import Cells.

(** ** Data frames *)

Module Frames.

(** A column label: a column name, a column key of a pivot (a date, as its
    day number, or an hour), or one of the two period labels
    [f"Selected ({label})"] and [f"Compare ({label})"]. *)
Inductive label : Type :=
| Name (s : string)
| Col (z : Z)
| Selected (l : label)
| Compare (l : label).

(** A value of a row: a string, a discrete value (a date as its day number,
    an hour, an integer rank), or a numeric cell. *)
Inductive value : Type :=
| Str (s : string)
| Ord (z : Z)
| Num (c : cell).

Fixpoint label_eqb (a b : label) : bool :=
  match a, b with
  | Name s, Name t => String.eqb s t
  | Col x, Col y => Z.eqb x y
  | Selected x, Selected y => label_eqb x y
  | Compare x, Compare y => label_eqb x y
  | _, _ => false
  end.

Definition value_eqb (a b : value) : bool :=
  match a, b with
  | Str s, Str t => String.eqb s t
  | Ord x, Ord y => Z.eqb x y
  | Num c, Num d => cell_eqb c d
  | _, _ => false
  end.

(** A row maps the labels of the frame to values, in column order. *)
Definition Row : Type := list (label * value).

(** A frame: the names of the index levels, the column labels, the rows.
    The index values of a row are stored in the row under the index names,
    so [reset_index] and [set_index] only move labels between
    [index_names] and [columns]. *)
Record DataFrame : Type := mkDataFrame {
  index_names : list label;
  columns : list label;
  rows : list Row
}.

Fixpoint lookup (c : label) (r : Row) : option value :=
  match r with
  | [] => None
  | (l, v) :: r' => if label_eqb l c then Some v else lookup c r'
  end.

(** The number held by a value.  Only numeric columns are computed with;
    a string counts as missing. *)
Definition cell_of (v : value) : cell :=
  match v with
  | Num x => x
  | Ord z => of_Z z
  | Str _ => NaN
  end.

(** The numeric cell of a row under a label; an absent cell is missing. *)
Definition num (c : label) (r : Row) : cell :=
  match lookup c r with
  | Some v => cell_of v
  | None => NaN
  end.

Definition mem_label (c : label) (l : list label) : bool :=
  existsb (label_eqb c) l.

Fixpoint replace_value (c : label) (v : value) (r : Row) : Row :=
  match r with
  | [] => []
  | (l, w) :: r' =>
      if label_eqb l c then (l, v) :: r' else (l, w) :: replace_value c v r'
  end.

(** [row[c] = v]: an existing column is overwritten in place, a new column
    is appended. *)
Definition set_value (c : label) (v : value) (r : Row) : Row :=
  match lookup c r with
  | Some _ => replace_value c v r
  | None => r ++ [(c, v)]
  end.

Definition drop_value (c : label) (r : Row) : Row :=
  filter (fun p => negb (label_eqb (fst p) c)) r.

Definition drop_values (cs : list label) (r : Row) : Row :=
  filter (fun p => negb (mem_label (fst p) cs)) r.

(** [df[c] = df.apply(f, axis=1)], and [df[c] = expression] with the
    expression computed row by row. *)
Definition set_column (c : label) (f : Row -> value) (df : DataFrame) : DataFrame :=
  {| index_names := index_names df;
     columns := if mem_label c (columns df) then columns df else columns df ++ [c];
     rows := map (fun r => set_value c (f r) r) (rows df) |}.

(** [df.drop(columns=c)] *)
Definition drop_column (c : label) (df : DataFrame) : DataFrame :=
  {| index_names := index_names df;
     columns := filter (fun l => negb (label_eqb l c)) (columns df);
     rows := map (drop_value c) (rows df) |}.

(** [df.reset_index()]: the index levels become the first columns. *)
Definition reset_index (df : DataFrame) : DataFrame :=
  {| index_names := [];
     columns := index_names df ++ columns df;
     rows := rows df |}.

(** [df.reset_index(drop=True)]: the index is discarded. *)
Definition reset_index_drop (df : DataFrame) : DataFrame :=
  {| index_names := [];
     columns := columns df;
     rows := map (drop_values (index_names df)) (rows df) |}.

(** [df.set_index(names)] *)
Definition set_index (names : list label) (df : DataFrame) : DataFrame :=
  {| index_names := names;
     columns := filter (fun l => negb (mem_label l names)) (columns df);
     rows := rows df |}.

(** [df[mask]] with the mask computed row by row. *)
Definition filter_rows (p : Row -> bool) (df : DataFrame) : DataFrame :=
  {| index_names := index_names df;
     columns := columns df;
     rows := filter p (rows df) |}.

(** The index key of a row (the DimensionKey of the specification): its
    values under the index names, a missing one being [Num NaN]. *)
Definition key : Type := list value.

Definition key_of (names : list label) (r : Row) : key :=
  map (fun n => match lookup n r with Some v => v | None => Num NaN end) names.

(** [df.index] *)
Definition index (df : DataFrame) : list key :=
  map (key_of (index_names df)) (rows df).

Fixpoint key_eqb (a b : key) : bool :=
  match a, b with
  | [], [] => true
  | x :: a', y :: b' => value_eqb x y && key_eqb a' b'
  | _, _ => false
  end.

Fixpoint keys_eqb (a b : list key) : bool :=
  match a, b with
  | [], [] => true
  | x :: a', y :: b' => key_eqb x y && keys_eqb a' b'
  | _, _ => false
  end.

Fixpoint labels_eqb (a b : list label) : bool :=
  match a, b with
  | [], [] => true
  | x :: a', y :: b' => label_eqb x y && labels_eqb a' b'
  | _, _ => false
  end.

(** [df[cs]]: the listed columns, in the listed order; the index is kept. *)
Definition pick (cs : list label) (r : Row) : Row :=
  flat_map (fun c => match lookup c r with
                     | Some v => [(c, v)]
                     | None => []
                     end) cs.

Definition select_columns (cs : list label) (df : DataFrame) : DataFrame :=
  {| index_names := index_names df;
     columns := cs;
     rows := map (pick (index_names df ++ cs)) (rows df) |}.

(** [df.rename(columns=m)] for a dictionary [m] given as a list of pairs. *)
Fixpoint rename_label (m : list (label * label)) (l : label) : label :=
  match m with
  | [] => l
  | (a, b) :: m' => if label_eqb l a then b else rename_label m' l
  end.

(** The label of a cell of a row after the renaming: the index values keep
    their labels. *)
Definition relabel (names : list label) (m : list (label * label)) (l : label) : label :=
  if mem_label l names then l else rename_label m l.

Definition rename_columns (m : list (label * label)) (df : DataFrame) : DataFrame :=
  {| index_names := index_names df;
     columns := map (rename_label m) (columns df);
     rows := map (fun r =>
                    map (fun p => (relabel (index_names df) m (fst p), snd p)) r)
                 (rows df) |}.

(** An elementwise operation on the cells of the columns; the index values
    are left alone. *)
Definition map_cells (f : cell -> cell) (df : DataFrame) : DataFrame :=
  {| index_names := index_names df;
     columns := columns df;
     rows := map (fun r =>
                    map (fun p => if mem_label (fst p) (index_names df) then p
                                  else (fst p, Num (f (cell_of (snd p))))) r)
                 (rows df) |}.

(** An operation on the cells of the columns that depends on the column,
    as the operations whose effect depends on the dtype of the column
    do. *)
Definition map_columns (f : label -> cell -> cell) (df : DataFrame) : DataFrame :=
  {| index_names := index_names df;
     columns := columns df;
     rows := map (fun r =>
                    map (fun p => if mem_label (fst p) (index_names df) then p
                                  else (fst p, Num (f (fst p) (cell_of (snd p))))) r)
                 (rows df) |}.

(** Insertion of [x] into a list sorted for [leb], before the first element
    that is not smaller: the sort built on it is stable. *)
Fixpoint insert {A : Type} (leb : A -> A -> bool) (x : A) (l : list A) : list A :=
  match l with
  | [] => [x]
  | y :: l' => if leb x y then x :: l else y :: insert leb x l'
  end.

(** Python's [sorted]. *)
Definition sorted {A : Type} (leb : A -> A -> bool) (l : list A) : list A :=
  fold_right (fun x acc => insert leb x acc) [] l.

(** The distinct elements of a list, each at its first occurrence. *)
Fixpoint dedup {A : Type} (eqb : A -> A -> bool) (l : list A) : list A :=
  match l with
  | [] => []
  | x :: l' => x :: filter (fun y => negb (eqb x y)) (dedup eqb l')
  end.

(** The order of labels.  The columns of a pivot are all [Col] labels, which
    are ordered as their dates or hours are. *)
Definition label_tag (l : label) : Z :=
  match l with
  | Name _ => 0
  | Col _ => 1
  | Selected _ => 2
  | Compare _ => 3
  end.

Definition label_leb (a b : label) : bool :=
  match a, b with
  | Col x, Col y => x <=? y
  | Name s, Name t => String.leb s t
  | _, _ => label_tag a <=? label_tag b
  end.

(** The order of index values and the lexicographic order of keys. *)
Definition value_compare (a b : value) : comparison :=
  match a, b with
  | Str s, Str t => String.compare s t
  | Ord x, Ord y => Z.compare x y
  | Str _, _ => Lt
  | _, Str _ => Gt
  | Ord _, _ => Lt
  | _, Ord _ => Gt
  | Num _, Num _ => Eq
  end.

Fixpoint key_leb (a b : key) : bool :=
  match a, b with
  | [], _ => true
  | _ :: _, [] => false
  | x :: a', y :: b' =>
      match value_compare x y with
      | Lt => true
      | Gt => false
      | Eq => key_leb a' b'
      end
  end.

(** A categorical key: every value is a string. *)
Definition is_str (v : value) : bool :=
  match v with Str _ => true | _ => false end.

Definition categorical (k : key) : bool := forallb is_str k.

Fixpoint distinct_labels (l : list label) : bool :=
  match l with
  | [] => true
  | x :: l' => negb (mem_label x l') && distinct_labels l'
  end.

(** The row of a frame with a given key. *)
Definition find_row (df : DataFrame) (k : key) : option Row :=
  find (fun r => key_eqb (key_of (index_names df) r) k) (rows df).

(** The cell of a frame at a key and a column; missing when the frame has
    no such row or no such column. *)
Definition cell_at (df : DataFrame) (k : key) (c : label) : cell :=
  match find_row df k with
  | Some r => num c r
  | None => NaN
  end.

(** A fresh row: the key under the index names, then one cell per column. *)
Definition make_row (names : list label) (k : key) (cs : list label)
  (f : label -> cell) : Row :=
  combine names k ++ map (fun c => (c, Num (f c))) cs.

(** [df.reindex(keys, fill_value=fill)] along the rows: an existing row is
    kept as it is, a new key gets [fill] in every column. *)
Definition reindex_rows (fill : cell) (keys : list key) (df : DataFrame) : DataFrame :=
  {| index_names := index_names df;
     columns := columns df;
     rows := map (fun k => match find_row df k with
                           | Some r => r
                           | None => make_row (index_names df) k (columns df)
                                       (fun _ => fill)
                           end) keys |}.

(** The outer join of two indexes: the two when they are equal, their
    sorted union otherwise. *)
Definition join_outer (a b : list key) : list key :=
  if keys_eqb a b then a else sorted key_leb (dedup key_eqb (a ++ b)).

Definition join_labels (a b : list label) : list label :=
  if labels_eqb a b then a else sorted label_leb (dedup label_eqb (a ++ b)).

(** [left.align(right, join='outer', axis=0, fill_value=fill)]: only the
    rows are aligned, and only the rows that are new get the fill value. *)
Definition align_rows (fill : cell) (left right : DataFrame) : DataFrame * DataFrame :=
  if keys_eqb (index left) (index right) then (left, right)
  else
    let ks := join_outer (index left) (index right) in
    (reindex_rows fill ks left, reindex_rows fill ks right).

(** The frame with the given keys and columns whose cells are given by a
    function. *)
Definition frame_of (names : list label) (ks : list key) (cs : list label)
  (F : key -> label -> cell) : DataFrame :=
  {| index_names := names;
     columns := cs;
     rows := map (fun k => make_row names k cs (F k)) ks |}.

(** [a op b] on two frames: rows and columns are aligned on the union of
    the labels, and a cell absent from either side is missing. *)
Definition frame_binop (op : cell -> cell -> cell) (a b : DataFrame) : DataFrame :=
  frame_of (index_names a)
    (join_outer (index a) (index b))
    (join_labels (columns a) (columns b))
    (fun k c => op (cell_at a k c) (cell_at b k c)).

End Frames.

Import Frames.

(** ** utils.py: the Dimension Sorter *)

Module Utils.

Local Open Scope string_scope.

(** [custom_order], the canonical SortOrder. *)
Definition custom_order : list (string * string) :=
  [ ("NU", "New Users");
    ("RU_last30_Days", "RU1-5");
    ("RU_last30_Days", "RU6-10");
    ("RU_last30_Days", "RU10+");
    ("DU_30_45_Days", "RU1-5");
    ("DU_30_45_Days", "RU6-10");
    ("DU_30_45_Days", "RU10+");
    ("DU_45+_Days", "RU1-5");
    ("DU_45+_Days", "RU6-10");
    ("DU_45+_Days", "RU10+");
    ("Unassigned", "Unassigned") ].

Definition pair_eqb (p q : string * string) : bool :=
  String.eqb (fst p) (fst q) && String.eqb (snd p) (snd q).

(** [l.index(p)], [None] when [p not in l]. *)
Fixpoint list_index (p : string * string) (l : list (string * string)) : option nat :=
  match l with
  | [] => None
  | q :: l' => if pair_eqb q p then Some O
               else option_map S (list_index p l')
  end.

(** The rank of a (category, cohorts) pair:
    [custom_order.index(p) if p in custom_order else len(custom_order)]. *)
Definition rank_of (p : string * string) : nat :=
  match list_index p custom_order with
  | Some i => i
  | None => List.length custom_order
  end.

(** The lambda applied to every row.  A pair whose components are not both
    strings is equal to no pair of [custom_order]. *)
Definition sort_order (r : Row) : nat :=
  match lookup (Name "category") r, lookup (Name "cohorts") r with
  | Some (Str c), Some (Str h) => rank_of (c, h)
  | _, _ => List.length custom_order
  end.

(** The rows of [l] at the positions [idx], in that order. *)
Definition take {A : Type} (idx : list nat) (l : list A) : list A :=
  flat_map (fun i => match nth_error l i with
                     | Some x => [x]
                     | None => []
                     end) idx.

(** The integer sort key of a row. *)
Definition int_key (c : label) (r : Row) : Z :=
  match lookup c r with
  | Some (Ord z) => z
  | _ => 0%Z
  end.

(** [df.sort_values(by)] on an integer column.  pandas computes the order
    of the rows with [numpy.argsort] of the column; the source passes no
    [kind], so the algorithm is the default one, [argsort] below. *)
Definition sort_values (argsort : list Z -> list nat) (by_ : label)
  (df : DataFrame) : DataFrame :=
  {| index_names := index_names df;
     columns := columns df;
     rows := take (argsort (map (int_key by_) (rows df))) (rows df) |}.

(** What the default sort kind of pandas ('quicksort') promises: the result
    lists every position once and the keys in that order do not decrease.
    Only the kinds 'mergesort' and 'stable' promise more. *)
Definition argsort_spec (argsort : list Z -> list nat) : Prop :=
  forall ks : list Z,
    Permutation (argsort ks) (seq 0 (List.length ks)) /\
    Sorted Z.le (map (fun i => nth i ks 0%Z) (argsort ks)).

(** Two sort kinds that meet [argsort_spec]: the insertion sort of the
    positions by their keys, which is stable, and one that puts the
    positions of equal keys in reverse order. *)
Definition stable_argsort (ks : list Z) : list nat :=
  map fst (sorted (fun a b => (snd a <=? snd b)%Z)
             (combine (seq 0 (List.length ks)) ks)).

Definition reversing_argsort (ks : list Z) : list nat :=
  map fst (sorted (fun a b => (snd a <? snd b)%Z)
             (combine (seq 0 (List.length ks)) ks)).

(** A sort kind is stable when positions of equal keys keep their order.
    There is one such order of the positions, the one of the stable
    insertion sort. *)
Definition argsort_stable (argsort : list Z -> list nat) : Prop :=
  forall ks : list Z, argsort ks = stable_argsort ks.

(** ["category" in df.columns and "cohorts" in df.columns] *)
Definition has_dimension_columns (df : DataFrame) : bool :=
  mem_label (Name "category") (columns df)
  && mem_label (Name "cohorts") (columns df).

(** The scratch column of the sorter. *)
Definition scratch : label := Name "__sort_order".

(** [sort_category_cohorts(df)].  The result is a new frame; the source
    also leaves the scratch column in the frame it was given, which every
    caller replaces by the result. *)
Definition sort_category_cohorts (argsort : list Z -> list nat)
  (df : DataFrame) : DataFrame :=
  if has_dimension_columns df then
    let df1 := set_column scratch (fun r => Ord (Z.of_nat (sort_order r))) df in
    let df2 := drop_column scratch (sort_values argsort scratch df1) in
    reset_index_drop df2
  else df.

(** The order of two rows by rank, and the rows of one rank. *)
Definition rank_leb (r r' : Row) : bool :=
  (Z.of_nat (sort_order r) <=? Z.of_nat (sort_order r'))%Z.


End Utils.

Import Utils.

(** ** app.py: derived metrics, pivots and deltas *)

Module App.

Local Open Scope string_scope.

(** *** The Pivot Builder *)

Inductive aggfunc : Type := Sum | Mean.

(** The aggregate of the values of one group.  Missing values are skipped;
    the sum of no value is 0 and the mean of no value is missing.  The sum
    is the exact one: the sum of the code is the same as long as it stays
    within the 64-bit integers (see [small_numbers] below). *)
Definition aggregate (f : aggfunc) (vs : list cell) : cell :=
  let xs := filter (fun c => negb (is_nan c)) vs in
  match f with
  | Sum => fold_left add xs (Fin 0)
  | Mean =>
      match xs with
      | [] => NaN
      | _ => truediv (fold_left add xs (Fin 0)) (of_Z (Z.of_nat (List.length xs)))
      end
  end.

Definition present (v : option value) : bool :=
  match v with
  | Some (Num c) => negb (is_nan c)
  | Some _ => true
  | None => false
  end.

(** The row key of a row for the pivot; rows with a missing key value are
    left out. *)
Definition group_key (idx : list label) (r : Row) : option key :=
  if forallb (fun n => present (lookup n r)) idx then Some (key_of idx r) else None.

(** The column key of a row for the pivot: a date or an hour. *)
Definition column_key (col : label) (r : Row) : option Z :=
  match lookup col r with
  | Some (Ord z) => Some z
  | _ => None
  end.

Definition in_group (idx : list label) (col : label) (k : key) (z : Z) (r : Row) : bool :=
  match group_key idx r, column_key col r with
  | Some k', Some z' => key_eqb k' k && (z' =? z)%Z
  | _, _ => false
  end.

(** The values of the measure in the rows of one (row key, column key)
    pair. *)
Definition group_values (df : DataFrame) (values : label) (idx : list label)
  (col : label) (k : key) (z : Z) : list cell :=
  map (num values) (filter (in_group idx col k z) (rows df)).

(** [df.pivot_table(values=values, index=idx, columns=col, aggfunc=f)].
    The rows are grouped by row key and column key and each group is
    aggregated; a group whose aggregate is missing is dropped; the groups
    are then spread into one row per row key and one column per column key,
    both sorted.  No [fill_value] is passed: a pair of keys without a group
    is a missing cell. *)
Definition pivot_table (df : DataFrame) (values : label) (idx : list label)
  (col : label) (f : aggfunc) : DataFrame :=
  let agged := fun k z => aggregate f (group_values df values idx col k z) in
  let groups :=
    flat_map (fun r => match group_key idx r, column_key col r with
                       | Some k, Some z => if is_nan (agged k z) then [] else [(k, z)]
                       | _, _ => []
                       end) (rows df) in
  let is_group := fun k z =>
    existsb (fun g => key_eqb (fst g) k && (snd g =? z)%Z) groups in
  let ks := sorted key_leb (dedup key_eqb (map fst groups)) in
  let zs := sorted Z.leb (dedup Z.eqb (map snd groups)) in
  {| index_names := idx;
     columns := map Col zs;
     rows := map (fun k => make_row idx k (map Col zs)
                             (fun c => match c with
                                       | Col z => if is_group k z then agged k z else NaN
                                       | _ => NaN
                                       end)) ks |}.

(** The three comparison views that build pivots. *)
Inductive view : Type := DoD | City | Hourly.

(** The [aggfunc] argument of the [pivot_table] call of each view: the
    literal ['sum'] in the DoD view, [agg_func] in the city view, the
    literal ['mean'] in the hourly view. *)
Definition aggfunc_of (v : view) (metric : string) : aggfunc :=
  match v with
  | DoD => Sum
  | City =>
      if existsb (String.eqb metric)
           ["tu_vu_pct_city"; "vu_pct_city"; "repeat_rate_city"]
      then Mean else Sum
  | Hourly => Mean
  end.




(** *** The Derived Metric Calculator *)

Definition hundred : cell := of_Z 100.

(** [(df[a] / df[b] * 100).round(2)] *)
Definition pct (a b : cell) : cell := round 2 (mul (truediv a b) hundred).

(** [(df[a] / df[b]).round(2)] *)
Definition ratio (a b : cell) : cell := round 2 (truediv a b).

(** DoD view: no zero denominator is replaced. *)
Definition dod_metrics (df : DataFrame) : DataFrame :=
  let df := set_column (Name "tu_vu_pct")
              (fun r => Num (pct (num (Name "transacting_users") r)
                                 (num (Name "visitors") r))) df in
  let df := set_column (Name "vu_pct")
              (fun r => Num (pct (num (Name "visitors") r)
                                 (num (Name "base") r))) df in
  set_column (Name "repeat_rate")
    (fun r => Num (ratio (num (Name "orders_on_date") r)
                         (num (Name "transacting_users") r))) df.

(** [(df[c] == 0).any()]: the column holds a 0.  [.replace(0, pd.NA)]
    changes nothing in a column that holds none and keeps its dtype; in a
    column that holds one it puts [pd.NA] in its place and the column
    becomes an object column. *)
Definition holds_zero (c : label) (df : DataFrame) : bool :=
  existsb (fun r => eq_zero (num c r)) (rows df).

(** [(df[a] / df[b].replace(0, pd.NA) * 100).round(2)], for a column [b]
    that is an object column after the replacement or is not.  The quotient
    by an object column is an object column, which [.round] leaves as it
    is: its values are not rounded. *)
Definition guarded_pct (object : bool) (a b : cell) : cell :=
  if object then mul (truediv a (replace_zero_NA b)) hundred else pct a b.

(** [(df[a] / df[b].replace(0, pd.NA)).round(2)] *)
Definition guarded_ratio (object : bool) (a b : cell) : cell :=
  if object then truediv a (replace_zero_NA b) else ratio a b.

(** City view: only the visitors of [tu_vu_pct_city] go through
    [.replace(0, pd.NA)]. *)
Definition city_metrics (df : DataFrame) : DataFrame :=
  let object := holds_zero (Name "visitors") df in
  let df := set_column (Name "tu_vu_pct_city")
              (fun r => Num (guarded_pct object
                               (num (Name "transacting_users") r)
                               (num (Name "visitors") r))) df in
  let df := set_column (Name "vu_pct_city")
              (fun r => Num (pct (num (Name "visitors") r)
                                 (num (Name "base") r))) df in
  set_column (Name "repeat_rate_city")
    (fun r => Num (ratio (num (Name "orders_on_date") r)
                         (num (Name "transacting_users") r))) df.

(** Weekly chart view: every denominator goes through
    [.replace(0, pd.NA)]. *)
Definition weekly_metrics (df : DataFrame) : DataFrame :=
  let no_visitors := holds_zero (Name "visitors") df in
  let no_base := holds_zero (Name "base") df in
  let no_users := holds_zero (Name "transacting_users") df in
  let df := set_column (Name "tu_vu_pct")
              (fun r => Num (guarded_pct no_visitors
                               (num (Name "transacting_users") r)
                               (num (Name "visitors") r))) df in
  let df := set_column (Name "vu_pct")
              (fun r => Num (guarded_pct no_base
                               (num (Name "visitors") r)
                               (num (Name "base") r))) df in
  set_column (Name "repeat_rate")
    (fun r => Num (guarded_ratio no_users
                     (num (Name "orders_on_date") r)
                     (num (Name "transacting_users") r))) df.

(** *** The pivots of the views *)

(** [(~df['category'].isin(['NU', 'Unassigned'])) & (df['base'] != 0)] *)
Definition engaged (r : Row) : bool :=
  negb (match lookup (Name "category") r with
        | Some (Str c) => existsb (String.eqb c) ["NU"; "Unassigned"]
        | _ => false
        end)
  && ne_zero (num (Name "base") r).

(** The sort step shared by the DoD and hourly pivots. *)
Definition sort_pivot (argsort : list Z -> list nat) (pivot_df : DataFrame) : DataFrame :=
  let pivot_df := reset_index pivot_df in
  let pivot_df := sort_category_cohorts argsort pivot_df in
  set_index [Name "category"; Name "cohorts"] pivot_df.

(** The pivot of one metric in the DoD view. *)
Definition dod_pivot (argsort : list Z -> list nat) (metric : string)
  (df : DataFrame) : DataFrame :=
  let df_metric := if String.eqb metric "vu_pct" then filter_rows engaged df else df in
  let pivot_df :=
    map_cells (round 2)
      (pivot_table df_metric (Name metric) [Name "category"; Name "cohorts"]
         (Name "start_date") (aggfunc_of DoD metric)) in
  sort_pivot argsort pivot_df.

(** The pivot of one metric in the city view, before its rows are put in
    the order of the base sizes of the cities.  The column of
    [tu_vu_pct_city] is an object column when the visitors hold a 0; the
    means of its pivot are then object columns too, and [.round(2)] leaves
    them as they are. *)
Definition city_pivot (metric : string) (df : DataFrame) : DataFrame :=
  let df_metric :=
    if String.eqb metric "vu_pct_city" then filter_rows engaged df else df in
  let object :=
    String.eqb metric "tu_vu_pct_city" && holds_zero (Name "visitors") df in
  map_cells (if object then (fun x => x) else round 2)
    (pivot_table df_metric (Name metric) [Name "city"]
       (Name "start_date") (aggfunc_of City metric)).

(** The pivot of one metric and one date in the hourly view; [None] when
    the frame has no row for the date. *)
Definition hourly_pivot (argsort : list Z -> list nat) (metric : string)
  (date : Z) (df : DataFrame) : option DataFrame :=
  let df_sel :=
    filter_rows (fun r => value_eqb
                            (match lookup (Name "start_date") r with
                             | Some v => v
                             | None => Num NaN
                             end) (Ord date)) df in
  match rows df_sel with
  | [] => None
  | _ =>
      Some (sort_pivot argsort
              (map_cells (round (if String.eqb metric "pct_disc_orders" then 4 else 2))
                 (pivot_table df_sel (Name metric) [Name "category"; Name "cohorts"]
                    (Name "order_hour") (aggfunc_of Hourly metric))))
  end.

(** *** The Delta Computer *)

Definition is_col (l : label) : bool :=
  match l with Col _ => true | _ => false end.

Definition is_name (l : label) : bool :=
  match l with Name _ => true | _ => false end.

(** The columns of a pivot by date: column keys, each once. *)
Definition date_columns (df : DataFrame) : Prop :=
  Forall (fun l => is_col l = true) (columns df) /\ NoDup (columns df).

(** The two delta columns. *)
Definition delta_columns : list label := [Name "% Change"; Name "Absolute Diff"].

(** [((sel - cmp) / cmp * 100).round(1)], the percentage change of the DoD
    and city views. *)
Definition pct_change (sel cmp : cell) : cell :=
  round 1 (mul (truediv (sub sel cmp) cmp) hundred).

(** An index whose levels are named and are not named as a delta column,
    as the indexes (category, cohorts) and (city) are. *)
Definition plain_index (df : DataFrame) : bool :=
  forallb (fun l => is_name l && negb (mem_label l delta_columns)) (index_names df).

(** A pivot as the views build them: the index levels are distinct names,
    the index values are strings, the columns are column keys. *)
Definition pivot_shape (df : DataFrame) : bool :=
  forallb is_name (index_names df)
  && distinct_labels (index_names df)
  && forallb is_col (columns df)
  && forallb categorical (index df).

(** The delta step of the DoD view, from [dates = sorted(pivot_df.columns)]
    to the renaming of the period columns.  [dates[0]] is the compare date
    and [dates[1]] the selected date. *)
Definition dod_delta (pivot_df : DataFrame) : DataFrame :=
  match sorted label_leb (columns pivot_df) with
  | [d0; d1] =>
      let pivot_df :=
        filter_rows (fun r => negb (eq_zero (num d0 r) && eq_zero (num d1 r)))
          pivot_df in
      let pivot_df :=
        set_column (Name "Absolute Diff")
          (fun r => Num (sub (num d1 r) (num d0 r))) pivot_df in
      let pivot_df :=
        set_column (Name "% Change")
          (fun r => Num (pct_change (num d1 r) (num d0 r))) pivot_df in
      let pivot_df :=
        select_columns [Name "% Change"; Name "Absolute Diff"; d1; d0] pivot_df in
      rename_columns [(d1, Selected d1); (d0, Compare d0)] pivot_df
  | _ => pivot_df
  end.

(** The delta step of the city view: the same statements as in the DoD
    view. *)
Definition city_delta (pivot_df : DataFrame) : DataFrame :=
  match sorted label_leb (columns pivot_df) with
  | [d0; d1] =>
      let pivot_df :=
        filter_rows (fun r => negb (eq_zero (num d0 r) && eq_zero (num d1 r)))
          pivot_df in
      let pivot_df :=
        set_column (Name "Absolute Diff")
          (fun r => Num (sub (num d1 r) (num d0 r))) pivot_df in
      let pivot_df :=
        set_column (Name "% Change")
          (fun r => Num (pct_change (num d1 r) (num d0 r))) pivot_df in
      let pivot_df :=
        select_columns [Name "% Change"; Name "Absolute Diff"; d1; d0] pivot_df in
      rename_columns [(d1, Selected d1); (d0, Compare d0)] pivot_df
  | _ => pivot_df
  end.

(** What the delta step makes of one row that it keeps, for the compare
    date [d0] and the selected date [d1]. *)
Definition delta_row (names : list label) (d0 d1 : label) (r : Row) : Row :=
  let r1 := set_value (Name "Absolute Diff") (Num (sub (num d1 r) (num d0 r))) r in
  let r2 := set_value (Name "% Change")
              (Num (pct_change (num d1 r1) (num d0 r1))) r1 in
  map (fun p => (relabel names [(d1, Selected d1); (d0, Compare d0)] (fst p), snd p))
    (pick (names ++ [Name "% Change"; Name "Absolute Diff"; d1; d0])%list r2).

(** The rows that the delta step keeps. *)
Definition not_both_zero (d0 d1 : label) (r : Row) : bool :=
  negb (eq_zero (num d0 r) && eq_zero (num d1 r)).

(** The whole DoD computation of one metric. *)
Definition dod_view (argsort : list Z -> list nat) (metric : string)
  (df : DataFrame) : DataFrame :=
  dod_delta (dod_pivot argsort metric (dod_metrics df)).

(** The table that the DoD view shows for one metric.  [st.dataframe] is
    called inside the branch [len(dates) == 2] only: with another number of
    date columns the view shows the header of the metric and no table. *)
Definition dod_displayed (argsort : list Z -> list nat) (metric : string)
  (df : DataFrame) : option DataFrame :=
  let pivot_df := dod_pivot argsort metric (dod_metrics df) in
  if Nat.eqb (List.length (sorted label_leb (columns pivot_df))) 2
  then Some (dod_delta pivot_df)
  else None.

(** The percentage change of one cell in the hourly view:
    [((sel - cmp) / cmp.replace(0, pd.NA) * 100).round(1)] followed by
    [.replace([pd.NA, float('inf'), -float('inf')], 0)].  A column of
    compare values that holds a 0 is an object column after
    [.replace(0, pd.NA)], and so is the column of the quotients: [.round(1)]
    leaves it as it is and the last [replace] turns its missing values
    into 0.  A column without a 0 stays a float column: it is rounded, and
    its missing values stay missing. *)
Definition hourly_cell (object : bool) (sel cmp : cell) : cell :=
  let change := mul (truediv (sub sel cmp) (replace_zero_NA cmp)) hundred in
  if object then replace_NA_inf_zero change
  else replace_inf_zero (round 1 change).

(** The percentage change of the one cell of a column. *)
Definition hourly_pct_cell (sel cmp : cell) : cell :=
  hourly_cell (eq_zero cmp) sel cmp.

(** The difference in percentage points of one cell in the hourly view:
    [pivot_sel - pivot_cmp] followed by the same [replace], on float
    columns. *)
Definition hourly_pp_cell (sel cmp : cell) : cell :=
  replace_inf_zero (sub sel cmp).

(** The comparison table of the hourly view for two pivots. *)
Definition hourly_pct_change (metric : string) (pivot_sel pivot_cmp : DataFrame)
  : DataFrame :=
  let '(pivot_sel, pivot_cmp) := align_rows (Fin 0) pivot_sel pivot_cmp in
  if String.eqb metric "pct_disc_orders" then
    map_cells replace_inf_zero (frame_binop sub pivot_sel pivot_cmp)
  else
    let object := fun c => holds_zero c pivot_cmp in
    map_columns (fun c => if object c then replace_NA_inf_zero else replace_inf_zero)
      (map_columns (fun c => if object c then (fun x => x) else round 1)
         (map_cells (fun x => mul x hundred)
            (frame_binop truediv
               (frame_binop sub pivot_sel pivot_cmp)
               (map_cells replace_zero_NA pivot_cmp)))).

(** The comparison table of the hourly view for one metric and two dates;
    [None] when one of the two dates has no row. *)
Definition hourly_view (argsort : list Z -> list nat) (metric : string)
  (selected_date compare_date : Z) (df : DataFrame) : option DataFrame :=
  match hourly_pivot argsort metric selected_date df,
        hourly_pivot argsort metric compare_date df with
  | Some pivot_sel, Some pivot_cmp =>
      Some (hourly_pct_change metric pivot_sel pivot_cmp)
  | _, _ => None
  end.

End App.

Import App.

(** ** Sample tables *)

Module Samples.

Local Open Scope string_scope.

Definition dims (cat coh : string) : Row :=
  [(Name "category", Str cat); (Name "cohorts", Str coh)].

(** Two rows whose combinations are not canonical. *)
Definition two_unknown : DataFrame :=
  {| index_names := [];
     columns := [Name "category"; Name "cohorts"];
     rows := [dims "Foo" "Bar"; dims "Baz" "Qux"] |}.

(** Canonical and unknown combinations, out of order. *)
Definition mixed : DataFrame :=
  {| index_names := [];
     columns := [Name "category"; Name "cohorts"];
     rows := [dims "Foo" "Bar"; dims "Unassigned" "Unassigned";
              dims "NU" "New Users"; dims "DU_45+_Days" "RU10+"] |}.

(** A table by city, without the dimension columns. *)
Definition by_city : DataFrame :=
  {| index_names := [];
     columns := [Name "city"; Name "base"];
     rows := [[(Name "city", Str "Pune"); (Name "base", Num (of_Z 7))];
              [(Name "city", Str "Agra"); (Name "base", Num (of_Z 9))]] |}.

End Samples.


(** ** Sample data of the views *)

Module Data.

Local Open Scope string_scope.

(** A row of the daily table. *)
Definition daily (cat coh : string) (date base visitors tu orders : Z) : Row :=
  [(Name "category", Str cat); (Name "cohorts", Str coh);
   (Name "start_date", Ord date);
   (Name "base", Num (of_Z base)); (Name "visitors", Num (of_Z visitors));
   (Name "transacting_users", Num (of_Z tu));
   (Name "orders_on_date", Num (of_Z orders))].

Definition daily_columns : list label :=
  [Name "category"; Name "cohorts"; Name "start_date"; Name "base";
   Name "visitors"; Name "transacting_users"; Name "orders_on_date"].

Definition daily_frame (l : list Row) : DataFrame :=
  {| index_names := []; columns := daily_columns; rows := l |}.

(** The compare date is day 1 and the selected date is day 8.  A cohort
    whose base is 0 on the compare date and 5 on the selected date. *)
Definition zero_compare : DataFrame :=
  daily_frame [daily "RU_last30_Days" "RU1-5" 1 0 0 0 0;
               daily "RU_last30_Days" "RU1-5" 8 5 2 1 1].

(** A cohort with rows on both dates and one with a row on the selected
    date only. *)
Definition one_sided : DataFrame :=
  daily_frame [daily "NU" "New Users" 1 900 0 0 0;
               daily "NU" "New Users" 8 1000 0 0 0;
               daily "DU_30_45_Days" "RU6-10" 8 7 4 2 3].

(** A row with transacting users and orders but no visitor, and a row with
    visitors but no base. *)
Definition zero_denominators : DataFrame :=
  daily_frame [daily "RU_last30_Days" "RU6-10" 8 10 0 3 4;
               daily "DU_45+_Days" "RU1-5" 8 0 5 0 2].

(** A row of a pivot by (category, cohorts). *)
Definition pivot_row (cat coh : string) (cells : list (Z * cell)) : Row :=
  ([(Name "category", Str cat); (Name "cohorts", Str coh)]
   ++ map (fun p => (Col (fst p), Num (snd p))) cells)%list.

Definition pivot_frame (cols : list Z) (l : list Row) : DataFrame :=
  {| index_names := [Name "category"; Name "cohorts"];
     columns := map Col cols;
     rows := l |}.

(** A pivot of the DoD view with the base 0 on the compare date. *)
Definition zero_compare_pivot : DataFrame :=
  pivot_frame [1; 8]
    [pivot_row "RU_last30_Days" "RU1-5" [(1, of_Z 0); (8, of_Z 5)];
     pivot_row "DU_45+_Days" "RU10+" [(1, of_Z 5); (8, of_Z 0)]].

(** A pivot of the city view with the base 0 on the compare date. *)
Definition city_zero_compare_pivot : DataFrame :=
  {| index_names := [Name "city"];
     columns := [Col 1; Col 8];
     rows := [[(Name "city", Str "Pune");
               (Col 1, Num (of_Z 0)); (Col 8, Num (of_Z 5))]] |}.

(** A pivot of the DoD view with a cohort at 0 on both dates. *)
Definition zero_row_pivot : DataFrame :=
  pivot_frame [1; 8]
    [pivot_row "NU" "New Users" [(1, of_Z 900); (8, of_Z 1000)];
     pivot_row "DU_45+_Days" "RU10+" [(1, of_Z 0); (8, of_Z 0)]].

(** A pivot with the selected date only. *)
Definition single_date_pivot : DataFrame :=
  pivot_frame [8] [pivot_row "NU" "New Users" [(8, of_Z 1000)]].

(** Two pivots of the hourly view, at hour 10.  The new users are at 0 on
    both dates; the second cohort has a row on the selected date only. *)
Definition hourly_selected : DataFrame :=
  pivot_frame [10]
    [pivot_row "NU" "New Users" [(10, of_Z 0)];
     pivot_row "RU_last30_Days" "RU1-5" [(10, of_Z 4)]].

Definition hourly_compare : DataFrame :=
  pivot_frame [10] [pivot_row "NU" "New Users" [(10, of_Z 0)]].

(** A row of the city table. *)
Definition city_daily (city cat coh : string) (date base visitors tu orders : Z) : Row :=
  (Name "city", Str city) :: daily cat coh date base visitors tu orders.

(** Two cohorts of one city on one date, converting at 50% and at 25%. *)
Definition two_cohorts : DataFrame :=
  {| index_names := [];
     columns := Name "city" :: daily_columns;
     rows := [city_daily "Pune" "RU_last30_Days" "RU1-5" 8 3 2 1 1;
              city_daily "Pune" "RU_last30_Days" "RU1-5" 8 4 4 1 2] |}.

(** A row of the hourly table. *)
Definition hourly (cat coh : string) (date hour : Z) (dpo_fc : cell) : Row :=
  [(Name "category", Str cat); (Name "cohorts", Str coh);
   (Name "start_date", Ord date); (Name "order_hour", Ord hour);
   (Name "dpo_fc", Num dpo_fc)].

(** Hourly rows for the compare date 1 and the selected date 8: one cohort
    on both dates, one on the selected date only. *)
Definition hourly_rows : DataFrame :=
  {| index_names := [];
     columns := [Name "category"; Name "cohorts"; Name "start_date";
                 Name "order_hour"; Name "dpo_fc"];
     rows := [hourly "NU" "New Users" 1 10 (of_Z 0);
              hourly "NU" "New Users" 8 10 (of_Z 5);
              hourly "RU_last30_Days" "RU1-5" 1 10 (of_Z 4);
              hourly "RU_last30_Days" "RU1-5" 8 10 (of_Z 5);
              hourly "DU_45+_Days" "RU10+" 8 10 (of_Z 3)] |}.

End Data.


(** ** Further sample tables *)

Module Cases.

Local Open Scope string_scope.

(** A table that already has a column named as the scratch column of the
    sorter. *)
Definition with_scratch : DataFrame :=
  {| index_names := [];
     columns := [Name "category"; Name "__sort_order"; Name "cohorts"];
     rows := [[(Name "category", Str "Unassigned"); (Name "__sort_order", Str "a");
               (Name "cohorts", Str "Unassigned")];
              [(Name "category", Str "NU"); (Name "__sort_order", Str "b");
               (Name "cohorts", Str "New Users")]] |}.

(** Daily rows of one date only. *)
Definition one_date : DataFrame :=
  Data.daily_frame [Data.daily "NU" "New Users" 8 1000 0 0 0;
                    Data.daily "DU_30_45_Days" "RU6-10" 8 7 4 2 3].

(** A pivot by (category, cohorts) out of the canonical order. *)
Definition unsorted_pivot : DataFrame :=
  Data.pivot_frame [1; 8]
    [Data.pivot_row "DU_45+_Days" "RU10+" [(1, of_Z 5); (8, of_Z 0)];
     Data.pivot_row "NU" "New Users" [(1, of_Z 900); (8, of_Z 1000)];
     Data.pivot_row "RU_last30_Days" "RU1-5" [(1, of_Z 0); (8, of_Z 5)]].

End Cases.


(** ** app.py: the colours of the hourly comparison table *)

Module Style.

Local Open Scope string_scope.

(** [style_pct(val)]: the style of one cell of the comparison table of the
    hourly view. *)
Definition style_pct (val : cell) : string :=
  match val with
  | NaN => ""
  | PosInf => "background-color: #69db7c"
  | NegInf => "background-color: #ff6b6b"
  | Fin q =>
      match Qcompare q 0 with
      | Gt => "background-color: #69db7c"
      | Lt => "background-color: #ff6b6b"
      | Eq => ""
      end
  end.

End Style.

Import Style.


(** ** utils.py: the two weeks of [fetch_weekly_data] *)

Module Weekly.

(** A date is its proleptic Gregorian ordinal, [date.toordinal()], and a
    [timedelta] of whole days is a number of days.  [date.weekday()] is
    [(self.toordinal() + 6) % 7]: Monday is 0 and Sunday is 6. *)
Definition weekday (d : Z) : Z := (d + 6) mod 7.

(** [selected_date - timedelta(days=selected_date.weekday())] *)
Definition current_monday (selected_date : Z) : Z :=
  selected_date - weekday selected_date.

(** [(selected_date - current_monday).days + 1] *)
Definition days_to_include (selected_date : Z) : Z :=
  (selected_date - current_monday selected_date) + 1.

(** [current_monday - timedelta(days=7)] *)
Definition prev_week_monday (selected_date : Z) : Z :=
  current_monday selected_date - 7.

(** [prev_week_monday + timedelta(days=days_to_include - 1)] *)
Definition prev_week_end (selected_date : Z) : Z :=
  prev_week_monday selected_date + (days_to_include selected_date - 1).

(** [d BETWEEN lo AND hi], bounds included. *)
Definition between (lo hi d : Z) : bool := (lo <=? d) && (d <=? hi).

Definition in_current_week (selected_date d : Z) : bool :=
  between (current_monday selected_date) selected_date d.

Definition in_previous_week (selected_date d : Z) : bool :=
  between (prev_week_monday selected_date) (prev_week_end selected_date) d.

(** The [WHERE] clause of the query, on the start date of a row. *)
Definition weekly_where (selected_date d : Z) : bool :=
  in_current_week selected_date d || in_previous_week selected_date d.

End Weekly.

Import Weekly.

(** ** app.py: the traces of the weekly chart *)

Module Chart.

Local Open Scope string_scope.

(** [category_map] *)
Definition category_map : list (string * string) :=
  [("DU_30_45_Days", "STDU"); ("DU_45+_Days", "LTDU");
   ("RU_last30_Days", "RU"); ("NU", "NU")].

Fixpoint dict_get (m : list (string * string)) (k : string) : option string :=
  match m with
  | [] => None
  | (a, b) :: m' => if String.eqb a k then Some b else dict_get m' k
  end.

(** [series.replace(category_map)] on one value: a value that is a key of
    the dictionary is replaced, any other value is kept. *)
Definition replace_category (v : value) : value :=
  match v with
  | Str c => match dict_get category_map c with
             | Some n => Str n
             | None => v
             end
  | _ => v
  end.

(** The category of a row; a missing one is [Num NaN]. *)
Definition category_of (r : Row) : value :=
  match lookup (Name "category") r with
  | Some v => v
  | None => Num NaN
  end.

(** [df['category'] = df['category'].replace(category_map)], on a frame
    that has the column. *)
Definition rename_categories (df : DataFrame) : DataFrame :=
  set_column (Name "category") (fun r => replace_category (category_of r)) df.

(** [df['category'] != 'Unassigned'] *)
Definition not_unassigned (r : Row) : bool :=
  negb (value_eqb (category_of r) (Str "Unassigned")).

(** [df_metric]: the rows of the chart of one metric. *)
Definition metric_rows (metric : string) (df : DataFrame) : list Row :=
  if String.eqb metric "vu_pct" then filter engaged (rows df)
  else filter not_unassigned (rows df).

(** [pd.date_range(lo, hi, freq='D')] *)
Definition date_range (lo hi : Z) : list Z :=
  map (fun i => lo + Z.of_nat i) (seq 0 (Z.to_nat (hi - lo + 1))).

(** The dates of the rows; a row without a date has none. *)
Definition dates_of (l : list Row) : list Z :=
  flat_map (fun r => match column_key (Name "start_date") r with
                     | Some d => [d]
                     | None => []
                     end) l.

(** [all_dates]: every day from the first to the last date of the rows.
    There is no range when no row has a date: [pd.date_range] refuses a
    missing bound. *)
Definition all_dates (l : list Row) : option (list Z) :=
  match dates_of l with
  | [] => None
  | d :: ds => Some (date_range (fold_left Z.min ds d) (fold_left Z.max ds d))
  end.

Inductive week : Type := Current | Previous.

(** [df_metric['start_date'] >= current_monday] for the current week and
    [df_metric['start_date'] < current_monday] for the previous one. *)
Definition in_week (w : week) (current_monday : Z) (r : Row) : bool :=
  match column_key (Name "start_date") r with
  | Some d =>
      match w with
      | Current => (current_monday <=? d)%Z
      | Previous => (d <? current_monday)%Z
      end
  | None => false
  end.

(** [data['category'] == cat]: a missing value is equal to nothing. *)
Definition same_category (cat : value) (r : Row) : bool :=
  match cat with
  | Str _ => value_eqb (category_of r) cat
  | _ => false
  end.

Definition on_date (d : Z) (r : Row) : bool :=
  match column_key (Name "start_date") r with
  | Some d' => (d' =? d)%Z
  | None => false
  end.

(** One point of a trace: [groupby('start_date')[metric].sum()] followed by
    [reindex(all_dates)].  A date with rows gets their sum, a date without
    a row is missing. *)
Definition point (metric : string) (cat_data : list Row) (d : Z) : cell :=
  match filter (on_date d) cat_data with
  | [] => NaN
  | g => aggregate Sum (map (num (Name metric)) g)
  end.

(** A trace of the figure: its category and its week, which make its name
    [f"{cat} (Current)"] or [f"{cat} (Previous)"], and its points. *)
Record trace : Type := mkTrace {
  name : value * week;
  x : list Z;
  y : list cell
}.

(** The traces of one week, one per category of the week in the order of
    [unique()]. *)
Definition week_traces (metric : string) (w : week) (current_monday : Z)
  (dates : list Z) (l : list Row) : list trace :=
  let data := filter (in_week w current_monday) l in
  map (fun cat =>
         {| name := (cat, w);
            x := dates;
            y := map (point metric (filter (same_category cat) data)) dates |})
    (dedup value_eqb (map category_of data)).

(** The traces of the figure of one metric; [None] when [pd.date_range]
    raises. *)
Definition weekly_chart (metric : string) (current_monday : Z) (df : DataFrame)
  : option (list trace) :=
  let l := metric_rows metric df in
  match all_dates l with
  | None => None
  | Some dates =>
      Some (week_traces metric Current current_monday dates l
            ++ week_traces metric Previous current_monday dates l)%list
  end.

(** [metrics], the metrics of the chart view in the order of the loop. *)
Definition metrics : list string :=
  ["base"; "transacting_users"; "visitors"; "orders_on_date";
   "tu_vu_pct"; "vu_pct"; "repeat_rate";
   "menu_sessions"; "cart_sessions"; "menu_droppers"; "cart_droppers"].

(** [for metric, metric_display in metrics]: the figures drawn, in the
    order of the metrics.  The exception of [pd.date_range] is not caught:
    it ends the loop, and the figures of the later metrics are not
    drawn. *)
Fixpoint figures (ms : list string) (current_monday : Z) (df : DataFrame)
  : list (string * list trace) :=
  match ms with
  | [] => []
  | metric :: ms' =>
      match weekly_chart metric current_monday df with
      | None => []
      | Some ts => (metric, ts) :: figures ms' current_monday df
      end
  end.

(** The figures of the chart view, from the frame of [fetch_weekly_data];
    none when the frame is empty. *)
Definition chart_figures (selected_date : Z) (df : DataFrame)
  : list (string * list trace) :=
  match rows df with
  | [] => []
  | _ => figures metrics (current_monday selected_date)
           (weekly_metrics (rename_categories df))
  end.

(** The figure of one metric in the chart view; [None] when it is not
    drawn. *)
Definition chart_view (selected_date : Z) (metric : string) (df : DataFrame)
  : option (list trace) :=
  option_map snd
    (find (fun f => String.eqb (fst f) metric) (chart_figures selected_date df)).

End Chart.

Import Chart.

(** ** Sample data of the weekly chart *)

Module Weeks.

Local Open Scope string_scope.

(** Day 737997 is a Monday.  A category with one row on the Tuesday of the
    previous week and one on the Tuesday of the current week, and an
    unassigned row. *)
Definition two_weeks : DataFrame :=
  Data.daily_frame
    [Data.daily "DU_30_45_Days" "RU1-5" 737991 10 5 2 3;
     Data.daily "Unassigned" "Unassigned" 737998 4 1 1 1;
     Data.daily "DU_30_45_Days" "RU1-5" 737998 12 6 3 3].

(** The traces of the figure of [base] for these rows and the selected
    date 737999, a Wednesday. *)
Definition base_traces : list trace :=
  [ {| name := (Str "STDU", Current);
       x := date_range 737991 737998;
       y := [NaN; NaN; NaN; NaN; NaN; NaN; NaN; Fin (12 # 1)] |};
    {| name := (Str "STDU", Previous);
       x := date_range 737991 737998;
       y := [Fin (10 # 1); NaN; NaN; NaN; NaN; NaN; NaN; NaN] |} ].

(** New users only, on the same two days: no row passes the filter of
    VU %. *)
Definition new_users : DataFrame :=
  Data.daily_frame
    [Data.daily "NU" "New Users" 737991 10 5 2 3;
     Data.daily "NU" "New Users" 737998 12 6 3 3].

End Weeks.


(** ** app.py: the order of the cities *)

Module CityOrder.

Local Open Scope string_scope.

(** The order of two numbers; a missing value is compared with nothing. *)
Definition cell_leb (a b : cell) : bool :=
  match a, b with
  | NaN, _ | _, NaN => false
  | NegInf, _ => true
  | _, PosInf => true
  | Fin p, Fin q => Qle_bool p q
  | _, _ => false
  end.

(** [a] may stand before [b] in a descending sort with the missing keys
    last. *)
Definition precedes (a b : cell) : bool :=
  is_nan b || (negb (is_nan a) && cell_leb b a).

(** [df.sort_values(by, ascending=False)] on a numeric column.  The source
    passes no [kind] and no [na_position]: the algorithm is the default
    one, [argsort] below, and the rows with a missing key come last. *)
Definition sort_values_desc (argsort : list cell -> list nat) (by_ : label)
  (df : DataFrame) : DataFrame :=
  {| index_names := index_names df;
     columns := columns df;
     rows := take (argsort (map (num by_) (rows df))) (rows df) |}.

(** What the descending sort promises whatever its kind: the result lists
    every position once, the keys in that order do not increase, and the
    missing keys are at the end. *)
Definition argsort_desc_spec (argsort : list cell -> list nat) : Prop :=
  forall ks : list cell,
    Permutation (argsort ks) (seq 0 (List.length ks)) /\
    Sorted (fun a b => precedes a b = true)
      (map (fun i => nth i ks NaN) (argsort ks)).

(** A sort kind that meets [argsort_desc_spec]. *)
Definition insertion_argsort_desc (ks : list cell) : list nat :=
  map fst (sorted (fun a b => precedes (snd a) (snd b))
             (combine (seq 0 (List.length ks)) ks)).

(** [max(df['start_date'])]; there is none for a frame without rows. *)
Definition latest_date (df : DataFrame) : option Z :=
  match dates_of (rows df) with
  | [] => None
  | d :: ds => Some (fold_left Z.max ds d)
  end.

Definition city_of (r : Row) : value :=
  match lookup (Name "city") r with
  | Some v => v
  | None => Num NaN
  end.

(** [city_base_sizes], the series
    [df[df['start_date'] == latest_date].groupby('city')['base'].sum()],
    looked up at one city as [.map(city_base_sizes)] does: a city without a
    row on the latest date gets a missing value. *)
Definition city_base_size (df : DataFrame) (latest : Z) (city : value) : cell :=
  match filter (fun r => on_date latest r && is_str city
                         && value_eqb (city_of r) city) (rows df) with
  | [] => NaN
  | g => aggregate Sum (map (num (Name "base")) g)
  end.

Definition sort_key : label := Name "sort_key".

(** The sort step of the city view. *)
Definition sort_by_base (argsort : list cell -> list nat) (latest : Z)
  (df pivot_df : DataFrame) : DataFrame :=
  let pivot_df := reset_index pivot_df in
  let pivot_df :=
    set_column sort_key
      (fun r => Num (city_base_size df latest (city_of r))) pivot_df in
  let pivot_df := sort_values_desc argsort sort_key pivot_df in
  let pivot_df := drop_column sort_key pivot_df in
  set_index [Name "city"] pivot_df.

(** The whole city computation of one metric; [None] when [max] raises. *)
Definition city_view (argsort : list cell -> list nat) (metric : string)
  (df : DataFrame) : option DataFrame :=
  let df := city_metrics df in
  match latest_date df with
  | None => None
  | Some latest =>
      Some (city_delta (sort_by_base argsort latest df (city_pivot metric df)))
  end.

End CityOrder.

Import CityOrder.

(** ** Sample data of the city view *)

Module Cities.

Local Open Scope string_scope.

(** Two cities on the compare date 1 and the selected date 8, and a third
    with rows on the compare date only. *)
Definition three_cities : DataFrame :=
  {| index_names := [];
     columns := Name "city" :: Data.daily_columns;
     rows := [Data.city_daily "Agra" "NU" "New Users" 1 40 4 2 2;
              Data.city_daily "Agra" "NU" "New Users" 8 50 5 2 2;
              Data.city_daily "Kota" "NU" "New Users" 1 900 9 3 3;
              Data.city_daily "Pune" "NU" "New Users" 1 60 6 3 3;
              Data.city_daily "Pune" "NU" "New Users" 8 70 7 3 3] |}.

End Cities.


(** ** The groups of a pivot and the size of the numbers *)

Module Groups.
Import Cells Frames App.




End Groups.

Import Groups.

(** ** numpy: the default sort kind *)

(** [DataFrame.sort_values(by)] orders the rows by
    [numpy.argsort(kind='quicksort')] of the column.  For integer keys this
    is numpy's [aquicksort]: an introsort on the array [tosort] of the
    positions, which partitions a range of more than [SMALL_QUICKSORT + 1]
    positions around the median of three, sorts a shorter range by
    insertion, and falls back on [aheapsort] when the depth limit is
    used up.  The functions below follow the scalar C code statement by
    statement; positions are offsets into [tosort], which is a list.  (On
    processors with vector instructions numpy may sort by a vectorised
    routine instead, which orders equal keys in its own way; no kind but
    'stable' and 'mergesort' promises their order.) *)
Module Numpy.

Definition SMALL_QUICKSORT : Z := 16.

(** [tosort[i]] and [tosort[i] = x]. *)
Definition get (tosort : list nat) (i : Z) : nat := nth (Z.to_nat i) tosort O.

Fixpoint set_nth (n : nat) (x : nat) (l : list nat) : list nat :=
  match l, n with
  | [], _ => []
  | _ :: l', O => x :: l'
  | y :: l', S n' => y :: set_nth n' x l'
  end.

Definition set (tosort : list nat) (i : Z) (x : nat) : list nat :=
  if (i <? 0)%Z then tosort else set_nth (Z.to_nat i) x tosort.

(** [v[tosort[i]]] *)
Definition key (v : list Z) (tosort : list nat) (i : Z) : Z :=
  nth (get tosort i) v 0%Z.

(** [INTP_SWAP(tosort[i], tosort[j])] *)
Definition swap (tosort : list nat) (i j : Z) : list nat :=
  set (set tosort i (get tosort j)) j (get tosort i).

(** [if (less(v[*a], v[*b])) INTP_SWAP] of the two positions. *)
Definition swap_if_less (v : list Z) (tosort : list nat) (a b : Z) : list nat :=
  if (key v tosort a <? key v tosort b)%Z then swap tosort a b else tosort.

(** [do { ++pi; } while (less(v[*pi], vp));] *)
Fixpoint scan_up (fuel : nat) (v : list Z) (tosort : list nat) (vp : Z) (pi : Z) : Z :=
  match fuel with
  | O => pi
  | S fuel' =>
      let pi := (pi + 1)%Z in
      if (key v tosort pi <? vp)%Z then scan_up fuel' v tosort vp pi else pi
  end.

(** [do { --pj; } while (less(vp, v[*pj]));] *)
Fixpoint scan_down (fuel : nat) (v : list Z) (tosort : list nat) (vp : Z) (pj : Z) : Z :=
  match fuel with
  | O => pj
  | S fuel' =>
      let pj := (pj - 1)%Z in
      if (vp <? key v tosort pj)%Z then scan_down fuel' v tosort vp pj else pj
  end.

(** The [for (;;)] loop of the partition: it ends when [pi >= pj] and
    yields the positions and [pi]. *)
Fixpoint partition (fuel : nat) (v : list Z) (tosort : list nat) (vp : Z)
  (pi pj : Z) : list nat * Z :=
  match fuel with
  | O => (tosort, pi)
  | S fuel' =>
      let pi := scan_up (List.length tosort) v tosort vp pi in
      let pj := scan_down (List.length tosort) v tosort vp pj in
      if (pj <=? pi)%Z then (tosort, pi)
      else partition fuel' v (swap tosort pi pj) vp pi pj
  end.

(** The inner loop of the insertion sort, for the position [vi] with key
    [vp]: [while (pj > pl && less(vp, v[*pk])) { *pj-- = *pk--; } *pj = vi;] *)
Fixpoint insert_back (fuel : nat) (v : list Z) (tosort : list nat) (pl : Z)
  (vi : nat) (vp : Z) (pj : Z) : list nat :=
  match fuel with
  | O => set tosort pj vi
  | S fuel' =>
      if (pl <? pj)%Z && (vp <? key v tosort (pj - 1))%Z
      then insert_back fuel' v (set tosort pj (get tosort (pj - 1))) pl vi vp (pj - 1)%Z
      else set tosort pj vi
  end.

(** [for (pi = pl + 1; pi <= pr; ++pi) { ... }] *)
Fixpoint insertion_sort (fuel : nat) (v : list Z) (tosort : list nat)
  (pl pr pi : Z) : list nat :=
  match fuel with
  | O => tosort
  | S fuel' =>
      if (pi <=? pr)%Z then
        let vi := get tosort pi in
        let vp := nth vi v 0%Z in
        insertion_sort fuel' v
          (insert_back (List.length tosort) v tosort pl vi vp pi) pl pr (pi + 1)%Z
      else tosort
  end.

(** [aheapsort_(vv, tosort + pl, n)].  The C code works on [a = tosort - 1],
    so that [a[i]] is the position at offset [pl + i - 1]. *)
Definition heap_get (tosort : list nat) (pl i : Z) : nat := get tosort (pl + i - 1).

Definition heap_set (tosort : list nat) (pl i : Z) (x : nat) : list nat :=
  set tosort (pl + i - 1) x.

(** [for (i, j; j <= n;) { ... } a[i] = tmp;] *)
Fixpoint sift_down (fuel : nat) (v : list Z) (tosort : list nat) (pl n : Z)
  (tmp : nat) (i j : Z) : list nat :=
  match fuel with
  | O => heap_set tosort pl i tmp
  | S fuel' =>
      if (j <=? n)%Z then
        let j :=
          if (j <? n)%Z
             && (nth (heap_get tosort pl j) v 0 <? nth (heap_get tosort pl (j + 1)) v 0)%Z
          then (j + 1)%Z else j in
        if (nth tmp v 0 <? nth (heap_get tosort pl j) v 0)%Z
        then sift_down fuel' v (heap_set tosort pl i (heap_get tosort pl j)) pl n
               tmp j (j + j)%Z
        else heap_set tosort pl i tmp
      else heap_set tosort pl i tmp
  end.

(** [for (l = n >> 1; l > 0; --l) { tmp = a[l]; ... }] *)
Fixpoint heapify (fuel : nat) (v : list Z) (tosort : list nat) (pl n l : Z) : list nat :=
  match fuel with
  | O => tosort
  | S fuel' =>
      if (0 <? l)%Z then
        heapify fuel' v
          (sift_down (List.length tosort) v tosort pl n (heap_get tosort pl l)
             l (2 * l)%Z)
          pl n (l - 1)%Z
      else tosort
  end.

(** [for (; n > 1;) { tmp = a[n]; a[n] = a[1]; n -= 1; ... }] *)
Fixpoint heap_pop (fuel : nat) (v : list Z) (tosort : list nat) (pl n : Z) : list nat :=
  match fuel with
  | O => tosort
  | S fuel' =>
      if (1 <? n)%Z then
        let tmp := heap_get tosort pl n in
        let tosort := heap_set tosort pl n (heap_get tosort pl 1) in
        let n := (n - 1)%Z in
        heap_pop fuel' v (sift_down (List.length tosort) v tosort pl n tmp 1 2) pl n
      else tosort
  end.

Definition aheapsort (v : list Z) (tosort : list nat) (pl n : Z) : list nat :=
  let fuel := List.length tosort in
  heap_pop fuel v (heapify fuel v tosort pl n (Z.shiftr n 1)) pl n.

(** A range left for later, with its depth limit: an entry of the two
    stacks [stack] and [depth]. *)
Definition frame : Type := (Z * Z * Z)%type.

(** The loop [while ((pr - pl) > SMALL_QUICKSORT) { ... }]: one partition
    per turn.  The larger part is pushed on the stack, the loop goes on
    with the smaller one. *)
Fixpoint partitions (fuel : nat) (v : list Z) (tosort : list nat) (pl pr cdepth : Z)
  (stack : list frame) : list nat * Z * Z * Z * list frame :=
  match fuel with
  | O => (tosort, pl, pr, cdepth, stack)
  | S fuel' =>
      if (SMALL_QUICKSORT <? pr - pl)%Z then
        let pm := (pl + Z.shiftr (pr - pl) 1)%Z in
        let tosort := swap_if_less v tosort pm pl in
        let tosort := swap_if_less v tosort pr pm in
        let tosort := swap_if_less v tosort pm pl in
        let vp := key v tosort pm in
        let tosort := swap tosort pm (pr - 1) in
        let '(tosort, pi) :=
          partition (List.length tosort) v tosort vp pl (pr - 1)%Z in
        let tosort := swap tosort pi (pr - 1) in
        let cdepth := (cdepth - 1)%Z in
        if (pi - pl <? pr - pi)%Z
        then partitions fuel' v tosort pl (pi - 1)%Z cdepth
               ((pi + 1, pr, cdepth)%Z :: stack)
        else partitions fuel' v tosort (pi + 1)%Z pr cdepth
               ((pl, pi - 1, cdepth)%Z :: stack)
      else (tosort, pl, pr, cdepth, stack)
  end.

(** The loop [while (1) { ... }]: one range per turn, until the stack is
    empty. *)
Fixpoint ranges (fuel : nat) (v : list Z) (tosort : list nat) (pl pr cdepth : Z)
  (stack : list frame) : list nat :=
  match fuel with
  | O => tosort
  | S fuel' =>
      let '(tosort, stack) :=
        if (cdepth <? 0)%Z
        then (aheapsort v tosort pl (pr - pl + 1)%Z, stack)
        else
          let '(tosort, pl, pr, _, stack) :=
            partitions (List.length tosort) v tosort pl pr cdepth stack in
          (insertion_sort (List.length tosort) v tosort pl pr (pl + 1)%Z, stack) in
      match stack with
      | [] => tosort
      | (pl, pr, cdepth) :: stack => ranges fuel' v tosort pl pr cdepth stack
      end
  end.

(** [npy_get_msb(num) * 2], the depth limit. *)
Definition depth_limit (num : Z) : Z := (Z.log2 num * 2)%Z.

(** [aquicksort(v, tosort, num)] *)
Definition aquicksort (v : list Z) (tosort : list nat) : list nat :=
  let num := Z.of_nat (List.length tosort) in
  ranges (S (List.length tosort)) v tosort 0%Z (num - 1)%Z (depth_limit num) [].

(** [numpy.argsort(v, kind='quicksort')]: the positions [0 .. num - 1],
    sorted by [aquicksort]. *)
Definition argsort (v : list Z) : list nat :=
  aquicksort v (seq 0 (List.length v)).

End Numpy.

(** A dump of the daily table: three dates, and on each date one row per
    combination of [custom_order], in that order. *)
Module Dump.

Local Open Scope string_scope.



(** The dates of the rows, in the order of the rows. *)
Definition dates_of (l : list Row) : list Z := map (int_key (Name "start_date")) l.

End Dump.


(** * Properties *)

(** ** Labels, rows and lists *)

Lemma label_eqb_refl (a : label) : label_eqb a a = true.
Proof.
  induction a; simpl; auto using String.eqb_refl, Z.eqb_refl.
Qed.

Lemma label_eqb_eq (a b : label) : label_eqb a b = true <-> a = b.
Proof.
  split.
  - revert b; induction a; destruct b; simpl; try discriminate; intros H.
    + apply String.eqb_eq in H; congruence.
    + apply Z.eqb_eq in H; congruence.
    + f_equal; auto.
    + f_equal; auto.
  - intros ->; apply label_eqb_refl.
Qed.

Lemma label_eqb_neq (a b : label) : label_eqb a b = false <-> a <> b.
Proof.
  rewrite <- label_eqb_eq; destruct (label_eqb a b); split; congruence.
Qed.

Lemma label_eqb_sym (a b : label) : label_eqb a b = label_eqb b a.
Proof.
  destruct (label_eqb a b) eqn:E.
  - apply label_eqb_eq in E; subst; symmetry; apply label_eqb_refl.
  - symmetry; apply label_eqb_neq; apply label_eqb_neq in E; congruence.
Qed.

Lemma mem_label_In (c : label) (l : list label) : mem_label c l = true <-> In c l.
Proof.
  unfold mem_label; rewrite existsb_exists; split.
  - intros [x [Hx He]]; apply label_eqb_eq in He; subst; auto.
  - intros H; exists c; split; auto using label_eqb_refl.
Qed.

Lemma lookup_replace_value (c c' : label) (v : value) (r : Row) :
  lookup c r <> None ->
  lookup c' (replace_value c v r) = if label_eqb c c' then Some v else lookup c' r.
Proof.
  induction r as [|[l w] r IH]; simpl; intros H; [congruence|].
  destruct (label_eqb l c) eqn:E.
  - apply label_eqb_eq in E; subst l; simpl.
    destruct (label_eqb c c'); reflexivity.
  - simpl; destruct (label_eqb l c') eqn:E'.
    + rewrite (label_eqb_sym c c').
      apply label_eqb_eq in E'; subst l; rewrite E; reflexivity.
    + apply IH; exact H.
Qed.

Lemma lookup_app (c : label) (r s : Row) :
  lookup c (r ++ s) = match lookup c r with Some v => Some v | None => lookup c s end.
Proof.
  induction r as [|[l w] r IH]; simpl; auto.
  destruct (label_eqb l c); auto.
Qed.

(** Reading a row after [row[c] = v]. *)
Lemma lookup_set_value (c c' : label) (v : value) (r : Row) :
  lookup c' (set_value c v r) = if label_eqb c c' then Some v else lookup c' r.
Proof.
  unfold set_value; destruct (lookup c r) eqn:E.
  - apply lookup_replace_value; congruence.
  - rewrite lookup_app; simpl.
    destruct (label_eqb c c') eqn:E'.
    + apply label_eqb_eq in E'; subst c'; rewrite E; reflexivity.
    + destruct (lookup c' r); reflexivity.
Qed.

Lemma num_set_value (c c' : label) (v : value) (r : Row) :
  num c' (set_value c v r) = if label_eqb c c' then cell_of v else num c' r.
Proof.
  unfold num; rewrite lookup_set_value; destruct (label_eqb c c'); reflexivity.
Qed.

Lemma lookup_drop_value (c c' : label) (r : Row) :
  lookup c' (drop_value c r) = if label_eqb c c' then None else lookup c' r.
Proof.
  induction r as [|[l w] r IH]; simpl.
  - destruct (label_eqb c c'); reflexivity.
  - destruct (label_eqb l c) eqn:E; simpl.
    + apply label_eqb_eq in E; subst l; rewrite IH.
      destruct (label_eqb c c'); reflexivity.
    + destruct (label_eqb l c') eqn:E'; auto.
      apply label_eqb_eq in E'; subst l.
      destruct (label_eqb c c') eqn:E2; auto.
      apply label_eqb_eq in E2; subst c'; rewrite label_eqb_refl in E; discriminate.
Qed.

Lemma drop_value_replace_value (c : label) (v : value) (r : Row) :
  drop_value c (replace_value c v r) = drop_value c r.
Proof.
  induction r as [|[l w] r IH]; simpl; auto.
  destruct (label_eqb l c) eqn:E; simpl; rewrite E; simpl; congruence.
Qed.

(** Dropping a column that was just set gives the row without it. *)
Lemma drop_value_set_value (c : label) (v : value) (r : Row) :
  drop_value c (set_value c v r) = drop_value c r.
Proof.
  unfold set_value; destruct (lookup c r).
  - apply drop_value_replace_value.
  - unfold drop_value; rewrite filter_app; simpl.
    rewrite label_eqb_refl; simpl; apply app_nil_r.
Qed.

Lemma drop_value_idem (c : label) (r : Row) :
  drop_value c (drop_value c r) = drop_value c r.
Proof.
  unfold drop_value; induction r as [|[l w] r IH]; simpl; auto.
  destruct (label_eqb l c) eqn:E; simpl; auto.
  rewrite E; simpl; f_equal; exact IH.
Qed.

Lemma drop_value_absent (c : label) (r : Row) :
  lookup c r = None -> drop_value c r = r.
Proof.
  induction r as [|[l w] r IH]; simpl; auto.
  destruct (label_eqb l c) eqn:E; [discriminate|].
  intros H; simpl; f_equal; apply IH; exact H.
Qed.

Lemma drop_values_nil (r : Row) : drop_values [] r = r.
Proof.
  induction r as [|p r IH]; [reflexivity|].
  unfold drop_values in *; simpl; f_equal; exact IH.
Qed.

(** ** Insertion sort and positions *)

Lemma insert_perm {A : Type} (leb : A -> A -> bool) (x : A) (l : list A) :
  Permutation (insert leb x l) (x :: l).
Proof.
  induction l as [|y l IH]; simpl; auto.
  destruct (leb x y); auto.
  rewrite IH; apply perm_swap.
Qed.

Lemma sorted_perm {A : Type} (leb : A -> A -> bool) (l : list A) :
  Permutation (sorted leb l) l.
Proof.
  induction l as [|x l IH]; simpl; auto.
  rewrite insert_perm; auto.
Qed.

Section InsertionSort.

Variable A : Type.
Variable leb : A -> A -> bool.
Variable R : A -> A -> Prop.
Hypothesis leb_true : forall x y, leb x y = true -> R x y.
Hypothesis leb_false : forall x y, leb x y = false -> R y x.

Lemma insert_HdRel (y x : A) (l : list A) :
  HdRel R y l -> R y x -> HdRel R y (insert leb x l).
Proof.
  destruct l as [|z l]; simpl; intros H Hx.
  - constructor; exact Hx.
  - destruct (leb x z); constructor; auto.
    inversion H; auto.
Qed.

Lemma insert_Sorted (x : A) (l : list A) :
  Sorted R l -> Sorted R (insert leb x l).
Proof.
  induction 1 as [|y l Hs IH Hd]; simpl.
  - repeat constructor.
  - destruct (leb x y) eqn:E.
    + constructor; [constructor; auto|].
      constructor; apply leb_true; exact E.
    + constructor; auto.
      apply insert_HdRel; auto.
Qed.

Lemma sorted_Sorted (l : list A) : Sorted R (sorted leb l).
Proof.
  induction l as [|x l IH]; simpl; [constructor|].
  apply insert_Sorted; exact IH.
Qed.

(** A list that is in order is left as it is. *)
Lemma sorted_fixpoint (l : list A) :
  (forall x y, R x y -> leb x y = true) ->
  Sorted R l -> sorted leb l = l.
Proof.
  intros Hc; induction 1 as [|y l Hs IH Hd]; simpl; auto.
  rewrite IH; destruct Hd as [|z l Hz]; simpl; auto.
  rewrite (Hc _ _ Hz); reflexivity.
Qed.

End InsertionSort.

Lemma Sorted_map {A B : Type} (f : A -> B) (R : B -> B -> Prop) (l : list A) :
  Sorted (fun x y => R (f x) (f y)) l <-> Sorted R (map f l).
Proof.
  induction l as [|x l IH]; simpl; split; intros H; try constructor;
    inversion H as [|? ? Hs Hd]; subst.
  - apply IH; exact Hs.
  - destruct Hd; simpl; constructor; auto.
  - apply IH; exact Hs.
  - destruct l; simpl in *; constructor; inversion Hd; auto.
Qed.

Lemma Sorted_le_unique (l1 l2 : list Z) :
  Sorted Z.le l1 -> Sorted Z.le l2 -> Permutation l1 l2 -> l1 = l2.
Proof.
  intros H1 H2.
  apply Sorted_StronglySorted in H1; [|intros x y z; apply Z.le_trans].
  apply Sorted_StronglySorted in H2; [|intros x y z; apply Z.le_trans].
  revert l2 H2; induction H1 as [|a l1 Hs IH Ha]; intros l2 H2 Hp.
  - apply Permutation_nil in Hp; subst; reflexivity.
  - destruct H2 as [|b l2 Hs2 Hb].
    + apply Permutation_sym, Permutation_nil in Hp; discriminate.
    + assert (a = b) as ->.
      { assert (In a (b :: l2)) as Ia by (eapply Permutation_in; [exact Hp|left; auto]).
        assert (In b (a :: l1)) as Ib
            by (eapply Permutation_in; [apply Permutation_sym; exact Hp|left; auto]).
        rewrite Forall_forall in Ha, Hb.
        destruct Ia as [->|Ia]; auto.
        destruct Ib as [->|Ib]; auto.
        apply Z.le_antisymm; auto. }
      f_equal; apply IH; auto.
      eapply Permutation_cons_inv; exact Hp.
Qed.

Lemma take_map {A B : Type} (f : A -> B) (idx : list nat) (l : list A) :
  take idx (map f l) = map f (take idx l).
Proof.
  unfold take; induction idx as [|i idx IH]; simpl; auto.
  rewrite map_app, IH, nth_error_map.
  destruct (nth_error l i); reflexivity.
Qed.

Lemma take_seq_app {A : Type} (pre l : list A) :
  take (seq (List.length pre) (List.length l)) (pre ++ l) = l.
Proof.
  revert pre; induction l as [|x l IH]; intros pre; simpl; auto.
  rewrite nth_error_app2, Nat.sub_diag by lia; simpl.
  f_equal.
  specialize (IH (pre ++ [x])).
  rewrite length_app, <- app_assoc in IH; simpl in IH.
  rewrite Nat.add_1_r in IH; exact IH.
Qed.

Lemma take_seq {A : Type} (l : list A) : take (seq 0 (List.length l)) l = l.
Proof. exact (take_seq_app [] l). Qed.

(** Taking the rows at a permutation of the positions permutes the rows. *)
Lemma take_perm {A : Type} (idx : list nat) (l : list A) :
  Permutation idx (seq 0 (List.length l)) -> Permutation (take idx l) l.
Proof.
  intros H; unfold take; rewrite H.
  fold (take (seq 0 (List.length l)) l); rewrite take_seq; reflexivity.
Qed.

Lemma map_take_nth {A B : Type} (f : A -> B) (d : B) (idx : list nat) (l : list A) :
  Forall (fun i => (i < List.length l)%nat) idx ->
  map f (take idx l) = map (fun i => nth i (map f l) d) idx.
Proof.
  induction 1 as [|i idx Hi Hf IH]; simpl; auto.
  unfold take in *; simpl; rewrite map_app, IH; clear IH.
  destruct (nth_error l i) eqn:E.
  - simpl; f_equal; symmetry.
    apply nth_error_nth; rewrite nth_error_map, E; reflexivity.
  - apply nth_error_Some in Hi; congruence.
Qed.

Lemma perm_seq_bound (idx : list nat) (n : nat) :
  Permutation idx (seq 0 n) -> Forall (fun i => (i < n)%nat) idx.
Proof.
  intros H; apply Forall_forall; intros i Hi.
  apply (Permutation_in _ H), in_seq in Hi; lia.
Qed.

Lemma map_fst_combine_seq (a : nat) (ks : list Z) :
  map fst (combine (seq a (List.length ks)) ks) = seq a (List.length ks).
Proof.
  revert a; induction ks as [|k ks IH]; intros a; simpl; auto.
  rewrite IH; reflexivity.
Qed.

Lemma in_combine_seq (a : nat) (ks : list Z) (i : nat) (k : Z) :
  In (i, k) (combine (seq a (List.length ks)) ks) ->
  (a <= i)%nat /\ nth (i - a) ks 0 = k.
Proof.
  revert a; induction ks as [|x ks IH]; intros a; simpl; [tauto|].
  intros [H|H].
  - inversion H; subst; rewrite Nat.sub_diag; auto.
  - apply IH in H; destruct H as [Hle Hn]; split; [lia|].
    replace (i - a)%nat with (S (i - S a)) by lia; exact Hn.
Qed.

(** Insertion sort of the positions by their keys meets the promise of a
    sort kind, whatever it does with equal keys. *)
Lemma insertion_argsort_spec (leb : nat * Z -> nat * Z -> bool) :
  (forall p q, leb p q = true -> snd p <= snd q) ->
  (forall p q, leb p q = false -> snd q <= snd p) ->
  argsort_spec (fun ks => map fst (sorted leb (combine (seq 0 (List.length ks)) ks))).
Proof.
  intros Ht Hf ks; split.
  - rewrite sorted_perm, map_fst_combine_seq; reflexivity.
  - set (S := sorted leb (combine (seq 0 (List.length ks)) ks)).
    assert (E : map (fun i => nth i ks 0) (map fst S) = map snd S).
    { rewrite map_map; apply map_ext_in; intros [i k] Hin; simpl.
      apply (Permutation_in _ (sorted_perm leb _)), in_combine_seq in Hin.
      destruct Hin as [_ Hn]; rewrite Nat.sub_0_r in Hn; exact Hn. }
    rewrite E; apply (proj1 (Sorted_map snd Z.le S)).
    apply sorted_Sorted; auto.
Qed.

Lemma stable_argsort_spec : argsort_spec stable_argsort.
Proof.
  apply insertion_argsort_spec; intros p q H; lia.
Qed.

Lemma reversing_argsort_spec : argsort_spec reversing_argsort.
Proof.
  apply insertion_argsort_spec; intros p q H; lia.
Qed.

Lemma stable_argsort_stable : argsort_stable stable_argsort.
Proof. intros ks; reflexivity. Qed.

(** ** The Dimension Sorter *)

Lemma pair_eqb_eq (p q : string * string) : pair_eqb p q = true <-> p = q.
Proof.
  destruct p as [a b], q as [c d]; unfold pair_eqb; simpl.
  rewrite andb_true_iff, !String.eqb_eq; split.
  - intros [-> ->]; reflexivity.
  - intros H; inversion H; auto.
Qed.

Lemma list_index_None (p : string * string) (l : list (string * string)) :
  list_index p l = None <-> ~ In p l.
Proof.
  induction l as [|q l IH]; simpl; [tauto|].
  destruct (pair_eqb q p) eqn:E.
  - apply pair_eqb_eq in E; subst; split; [discriminate|tauto].
  - destruct (list_index p l); simpl.
    + split; [discriminate|]. intros H.
      assert (Hn : ~ In p l) by tauto.
      apply IH in Hn; discriminate.
    + split; auto. intros _ [H|H].
      * subst; rewrite (proj2 (pair_eqb_eq p p) eq_refl) in E; discriminate.
      * apply (proj1 IH eq_refl H).
Qed.

Lemma list_index_Some (p : string * string) (l : list (string * string)) (i : nat) :
  list_index p l = Some i -> (i < List.length l)%nat /\ nth_error l i = Some p.
Proof.
  revert i; induction l as [|q l IH]; simpl; intros i; [discriminate|].
  destruct (pair_eqb q p) eqn:E.
  - intros H; inversion H; subst; apply pair_eqb_eq in E; subst; simpl.
    split; [lia|reflexivity].
  - destruct (list_index p l) as [j|]; simpl; [|discriminate].
    intros H; inversion H; subst.
    destruct (IH j eq_refl); simpl; split; [lia|auto].
Qed.

(** A pair outside the canonical list gets the rank [len(custom_order)]. *)
Lemma rank_of_unknown (p : string * string) :
  ~ In p custom_order -> rank_of p = List.length custom_order.
Proof.
  intros H; unfold rank_of; rewrite (proj2 (list_index_None p custom_order) H).
  reflexivity.
Qed.

(** A canonical pair gets its position, which is smaller. *)
Lemma rank_of_canonical (p : string * string) :
  In p custom_order ->
  (rank_of p < List.length custom_order)%nat /\
  nth_error custom_order (rank_of p) = Some p.
Proof.
  intros H; unfold rank_of.
  destruct (list_index p custom_order) as [i|] eqn:E.
  - apply list_index_Some; exact E.
  - apply list_index_None in E; contradiction.
Qed.

Lemma rank_of_le (p : string * string) :
  (rank_of p <= List.length custom_order)%nat.
Proof.
  unfold rank_of; destruct (list_index p custom_order) as [i|] eqn:E; [|lia].
  apply list_index_Some in E; lia.
Qed.

Lemma sort_order_le (r : Row) : (sort_order r <= List.length custom_order)%nat.
Proof.
  unfold sort_order.
  destruct (lookup (Name "category") r) as [[c| |]|]; try lia.
  destruct (lookup (Name "cohorts") r) as [[h| |]|]; try lia.
  apply rank_of_le.
Qed.

Lemma sort_order_drop_scratch (r : Row) :
  sort_order (drop_value scratch r) = sort_order r.
Proof.
  unfold sort_order; rewrite !lookup_drop_value; reflexivity.
Qed.

(** The rows of the sorted frame: the rows of the input at the positions
    given by the sort of the ranks, without the scratch column and without
    the index. *)
Lemma sort_category_cohorts_rows (argsort : list Z -> list nat) (df : DataFrame) :
  has_dimension_columns df = true ->
  rows (sort_category_cohorts argsort df) =
  map (fun r => drop_values (index_names df) (drop_value scratch r))
    (take (argsort (map (fun r => Z.of_nat (sort_order r)) (rows df))) (rows df)).
Proof.
  intros H; unfold sort_category_cohorts; rewrite H.
  unfold reset_index_drop, drop_column, sort_values, set_column; simpl.
  set (f := fun r : Row => set_value scratch (Ord (Z.of_nat (sort_order r))) r).
  assert (E : map (int_key scratch) (map f (rows df)) =
              map (fun r => Z.of_nat (sort_order r)) (rows df)).
  { rewrite map_map; apply map_ext; intros r; unfold f, int_key.
    rewrite lookup_set_value, label_eqb_refl; reflexivity. }
  rewrite E, take_map, !map_map; apply map_ext; intros r.
  unfold f; rewrite drop_value_set_value; reflexivity.
Qed.

Lemma sort_category_cohorts_columns (argsort : list Z -> list nat) (df : DataFrame) :
  has_dimension_columns df = true ->
  columns (sort_category_cohorts argsort df) =
  filter (fun l => negb (label_eqb l scratch)) (columns df).
Proof.
  intros H; unfold sort_category_cohorts; rewrite H; simpl.
  destruct (mem_label scratch (columns df)); auto.
  rewrite filter_app; simpl; apply app_nil_r.
Qed.

Lemma sort_category_cohorts_index (argsort : list Z -> list nat) (df : DataFrame) :
  has_dimension_columns df = true ->
  index_names (sort_category_cohorts argsort df) = [].
Proof.
  intros H; unfold sort_category_cohorts; rewrite H; reflexivity.
Qed.

Lemma mem_label_filter (c : label) (p : label -> bool) (l : list label) :
  mem_label c (filter p l) = mem_label c l && p c.
Proof.
  induction l as [|x l IH]; simpl; auto.
  destruct (p x) eqn:E; simpl; rewrite IH.
  - destruct (label_eqb c x) eqn:E'; simpl; auto.
    apply label_eqb_eq in E'; subst; rewrite E; reflexivity.
  - destruct (label_eqb c x) eqn:E'; simpl; auto.
    apply label_eqb_eq in E'; subst; rewrite E, andb_false_r; reflexivity.
Qed.

(** The sorted frame still has its two dimension columns. *)
Lemma sort_category_cohorts_has_columns (argsort : list Z -> list nat) (df : DataFrame) :
  has_dimension_columns df = true ->
  has_dimension_columns (sort_category_cohorts argsort df) = true.
Proof.
  intros H; unfold has_dimension_columns.
  rewrite (sort_category_cohorts_columns argsort df H), !mem_label_filter.
  unfold has_dimension_columns in H; apply andb_true_iff in H; destruct H as [-> ->].
  reflexivity.
Qed.

Section SortKind.

Variable argsort : list Z -> list nat.
Hypothesis kind : argsort_spec argsort.
Variable df : DataFrame.
Hypothesis dims : has_dimension_columns df = true.
Hypothesis plain : index_names df = [].

Let ranks : list Z := map (fun r => Z.of_nat (sort_order r)) (rows df).

Lemma sorted_rows_eq :
  rows (sort_category_cohorts argsort df) =
  map (drop_value scratch) (take (argsort ranks) (rows df)).
Proof.
  rewrite sort_category_cohorts_rows by exact dims.
  rewrite plain; apply map_ext; intros r; apply drop_values_nil.
Qed.

Lemma argsort_ranks_perm : Permutation (argsort ranks) (seq 0 (List.length (rows df))).
Proof.
  destruct (kind ranks) as [Hp _].
  unfold ranks in Hp at 2; rewrite length_map in Hp; exact Hp.
Qed.

(** No row is lost and none is made up. *)
Lemma sorted_rows_perm :
  Permutation (rows (sort_category_cohorts argsort df))
    (map (drop_value scratch) (rows df)).
Proof.
  rewrite sorted_rows_eq; apply Permutation_map, take_perm, argsort_ranks_perm.
Qed.

(** The ranks of the output, in order. *)
Lemma sorted_rows_ranks :
  map (fun r => Z.of_nat (sort_order r)) (rows (sort_category_cohorts argsort df)) =
  map (fun i => nth i ranks 0) (argsort ranks).
Proof.
  rewrite sorted_rows_eq, map_map.
  rewrite (map_ext _ (fun r => Z.of_nat (sort_order r)))
    by (intros r; rewrite sort_order_drop_scratch; reflexivity).
  apply map_take_nth, perm_seq_bound, argsort_ranks_perm.
Qed.

(** The output is in the order of the ranks. *)
Lemma sorted_rows_Sorted :
  Sorted (fun r r' => (sort_order r <= sort_order r')%nat)
    (rows (sort_category_cohorts argsort df)).
Proof.
  destruct (kind ranks) as [_ Hs].
  rewrite <- sorted_rows_ranks in Hs.
  apply Sorted_map in Hs.
  eapply Sorted_ind with (P := fun l => Sorted _ l); [constructor| |exact Hs].
  intros a l _ IH Hd; constructor; auto.
  destruct Hd; constructor; lia.
Qed.

End SortKind.

(** *** A stable sort kind *)

Lemma insert_Forall2 {A B : Type} (R : A -> B -> Prop)
  (la : A -> A -> bool) (lb : B -> B -> bool) :
  (forall a a' b b', R a b -> R a' b' -> la a a' = lb b b') ->
  forall a b l m, R a b -> Forall2 R l m ->
                  Forall2 R (insert la a l) (insert lb b m).
Proof.
  intros Hc a b l m Hab H; induction H as [|a' b' l m Hab' H IH]; simpl.
  - repeat constructor; exact Hab.
  - rewrite (Hc a a' b b' Hab Hab').
    destruct (lb b b'); repeat constructor; auto.
Qed.

Lemma sorted_Forall2 {A B : Type} (R : A -> B -> Prop)
  (la : A -> A -> bool) (lb : B -> B -> bool) :
  (forall a a' b b', R a b -> R a' b' -> la a a' = lb b b') ->
  forall l m, Forall2 R l m -> Forall2 R (sorted la l) (sorted lb m).
Proof.
  intros Hc l m H; induction H; simpl; [constructor|].
  apply insert_Forall2; auto.
Qed.

Lemma take_Forall2 {A : Type} (L : list A) (S : list (nat * Z)) (X : list A) :
  Forall2 (fun p x => nth_error L (fst p) = Some x) S X ->
  take (map fst S) L = X.
Proof.
  induction 1 as [|p x S X Hp H IH]; simpl; auto.
  unfold take in *; simpl; rewrite Hp, IH; reflexivity.
Qed.

Lemma combine_seq_Forall2 {A : Type} (key : A -> Z) (pre l : list A) :
  Forall2 (fun p x => nth_error (pre ++ l) (fst p) = Some x /\ snd p = key x)
    (combine (seq (List.length pre) (List.length l)) (map key l)) l.
Proof.
  revert pre; induction l as [|x l IH]; intros pre; simpl; constructor.
  - simpl; rewrite nth_error_app2, Nat.sub_diag by lia; auto.
  - specialize (IH (pre ++ [x])).
    rewrite length_app, <- app_assoc in IH; simpl in IH.
    rewrite Nat.add_1_r in IH; exact IH.
Qed.

(** Taking the rows at the positions of the stable sort of their keys is
    the stable insertion sort of the rows. *)
Lemma take_stable_argsort {A : Type} (key : A -> Z) (l : list A) :
  take (stable_argsort (map key l)) l =
  sorted (fun x y => (key x <=? key y)) l.
Proof.
  unfold stable_argsort; rewrite length_map.
  apply take_Forall2.
  pose proof (combine_seq_Forall2 key [] l) as H; simpl in H.
  apply (sorted_Forall2 _ (fun a b : nat * Z => snd a <=? snd b)
           (fun x y => key x <=? key y)) in H.
  - eapply Forall2_impl; [|exact H]; simpl; tauto.
  - intros a a' b b' [_ ->] [_ ->]; reflexivity.
Qed.

Lemma insert_map {A : Type} (f : A -> A) (leb : A -> A -> bool) (x : A) (l : list A) :
  (forall a b, leb (f a) (f b) = leb a b) ->
  insert leb (f x) (map f l) = map f (insert leb x l).
Proof.
  intros Hc; induction l as [|y l IH]; simpl; auto.
  rewrite Hc; destruct (leb x y); simpl; congruence.
Qed.

Lemma sorted_map {A : Type} (f : A -> A) (leb : A -> A -> bool) (l : list A) :
  (forall a b, leb (f a) (f b) = leb a b) ->
  sorted leb (map f l) = map f (sorted leb l).
Proof.
  intros Hc; induction l as [|x l IH]; simpl; auto.
  rewrite IH; apply insert_map; exact Hc.
Qed.




Lemma rank_leb_drop (a b : Row) :
  rank_leb (drop_value scratch a) (drop_value scratch b) = rank_leb a b.
Proof. unfold rank_leb; rewrite !sort_order_drop_scratch; reflexivity. Qed.

Lemma map_drop_idem (l : list Row) :
  map (drop_value scratch) (map (drop_value scratch) l) = map (drop_value scratch) l.
Proof.
  rewrite map_map; apply map_ext; intros r; apply drop_value_idem.
Qed.

Lemma filter_scratch_idem (cs : list label) :
  let keep := fun l => negb (label_eqb l scratch) in
  filter keep (filter keep cs) = filter keep cs.
Proof.
  simpl; induction cs as [|c cs IH]; simpl; auto.
  destruct (label_eqb c scratch) eqn:E; simpl; auto.
  rewrite E; simpl; f_equal; exact IH.
Qed.

(** With a stable sort kind the rows of the output are the stable sort of
    the rows. *)
Lemma stable_sorted_rows (argsort : list Z -> list nat) (df : DataFrame) :
  argsort_stable argsort ->
  has_dimension_columns df = true -> index_names df = [] ->
  rows (sort_category_cohorts argsort df) =
  map (drop_value scratch) (sorted rank_leb (rows df)).
Proof.
  intros Hs Hd Hp; rewrite sorted_rows_eq by assumption.
  rewrite Hs, take_stable_argsort; reflexivity.
Qed.

Lemma rank_leb_Sorted (l : list Row) :
  Sorted (fun r r' => rank_leb r r' = true) (sorted rank_leb l).
Proof.
  apply sorted_Sorted; auto.
  unfold rank_leb; intros x y H; apply Z.leb_gt in H; apply Z.leb_le; lia.
Qed.

Lemma sorted_rank_leb_idem (l : list Row) :
  sorted rank_leb (sorted rank_leb l) = sorted rank_leb l.
Proof.
  apply sorted_fixpoint with (R := fun r r' => rank_leb r r' = true); auto.
  apply rank_leb_Sorted.
Qed.

(** With a stable sort kind sorting twice is sorting once. *)
Lemma stable_sort_idempotent (argsort : list Z -> list nat) (df : DataFrame) :
  argsort_stable argsort ->
  has_dimension_columns df = true -> index_names df = [] ->
  sort_category_cohorts argsort (sort_category_cohorts argsort df) =
  sort_category_cohorts argsort df.
Proof.
  intros Hs Hd Hp.
  pose proof (sort_category_cohorts_has_columns argsort df Hd) as Hd'.
  pose proof (sort_category_cohorts_index argsort df Hd) as Hp'.
  pose proof (stable_sorted_rows argsort _ Hs Hd' Hp') as Hr.
  pose proof (sort_category_cohorts_columns argsort _ Hd') as Hc.
  pose proof (sort_category_cohorts_index argsort _ Hd') as Hi.
  rewrite (stable_sorted_rows argsort df Hs Hd Hp) in Hr.
  rewrite sorted_map, sorted_rank_leb_idem, map_drop_idem in Hr
    by apply rank_leb_drop.
  rewrite <- (stable_sorted_rows argsort df Hs Hd Hp) in Hr.
  rewrite (sort_category_cohorts_columns argsort df Hd) in Hc.
  rewrite filter_scratch_idem in Hc.
  rewrite <- (sort_category_cohorts_columns argsort df Hd) in Hc.
  rewrite <- Hp' in Hi.
  destruct (sort_category_cohorts argsort (sort_category_cohorts argsort df)),
    (sort_category_cohorts argsort df); simpl in *; congruence.
Qed.

(** *** The claims on the Dimension Sorter *)

(** C10.  When the input table lacks a category column or a cohorts column,
    [sort_category_cohorts] returns it unchanged: same rows, same values,
    same order, same columns, same index. *)
Theorem sort_category_cohorts_without_dimensions
  (argsort : list Z -> list nat) (df : DataFrame) :
  mem_label (Name "category") (columns df) = false \/
  mem_label (Name "cohorts") (columns df) = false ->
  sort_category_cohorts argsort df = df.
Proof.
  intros H; unfold sort_category_cohorts, has_dimension_columns.
  destruct H as [-> | ->]; [reflexivity|].
  rewrite andb_false_r; reflexivity.
Qed.

Lemma sort_category_cohorts_without_dimensions_witness :
  mem_label (Name "category") (columns Samples.by_city) = false /\
  sort_category_cohorts stable_argsort Samples.by_city = Samples.by_city.
Proof.
  split; [reflexivity|].
  apply sort_category_cohorts_without_dimensions; left; reflexivity.
Defined.

(** C8.  A (category, cohorts) combination that is not in the canonical
    list gets the rank [len(custom_order)], which is larger than the rank of
    every canonical combination; the output holds every input row (without
    the scratch column), and in the output no row of a canonical combination
    comes after a row of rank [len(custom_order)]. *)
Theorem sort_category_cohorts_unknown_last
  (argsort : list Z -> list nat) (df : DataFrame) :
  argsort_spec argsort ->
  has_dimension_columns df = true ->
  index_names df = [] ->
  let out := sort_category_cohorts argsort df in
  (forall r c h,
      lookup (Name "category") r = Some (Str c) ->
      lookup (Name "cohorts") r = Some (Str h) ->
      (~ In (c, h) custom_order -> sort_order r = List.length custom_order) /\
      (In (c, h) custom_order -> (sort_order r < List.length custom_order)%nat)) /\
  Permutation (rows out) (map (drop_value scratch) (rows df)) /\
  List.length (rows out) = List.length (rows df) /\
  (forall front r back r',
      rows out = front ++ r :: back -> In r' back ->
      sort_order r = List.length custom_order ->
      sort_order r' = List.length custom_order).
Proof.
  intros kind dims plain out; split; [|split; [|split]].
  - intros r c h Hc Hh; unfold sort_order; rewrite Hc, Hh; split; intros H.
    + apply rank_of_unknown; exact H.
    + apply rank_of_canonical; exact H.
  - apply sorted_rows_perm; assumption.
  - unfold out.
    rewrite (Permutation_length (sorted_rows_perm argsort kind df dims plain)).
    apply length_map.
  - intros front r back r' E Hin Hr.
    pose proof (sorted_rows_Sorted argsort kind df dims plain) as Hs.
    fold out in Hs; rewrite E in Hs.
    apply Sorted_StronglySorted in Hs; [|intros x y z; apply Nat.le_trans].
    clear E; induction front as [|f front IH]; simpl in Hs.
    + apply StronglySorted_inv in Hs; destruct Hs as [_ Hf].
      rewrite Forall_forall in Hf; specialize (Hf r' Hin).
      pose proof (sort_order_le r'); lia.
    + apply StronglySorted_inv in Hs; destruct Hs as [Hs _]; auto.
Qed.

Lemma sort_category_cohorts_unknown_last_witness :
  rows (sort_category_cohorts stable_argsort Samples.mixed) =
  [Samples.dims "NU" "New Users"; Samples.dims "DU_45+_Days" "RU10+";
   Samples.dims "Unassigned" "Unassigned"; Samples.dims "Foo" "Bar"] /\
  Permutation (rows (sort_category_cohorts stable_argsort Samples.mixed))
    (map (drop_value scratch) (rows Samples.mixed)).
Proof.
  split; [reflexivity|].
  apply (sort_category_cohorts_unknown_last stable_argsort Samples.mixed
           stable_argsort_spec eq_refl eq_refl).
Defined.





(** numpy's quicksort sorts a range of at most 17 positions by insertion:
    on the two rows of unknown combinations it agrees with the stable
    kind, and sorting twice gives the same table as sorting once. *)
Lemma quicksort_on_two_rows :
  sort_category_cohorts Numpy.argsort Samples.two_unknown =
  sort_category_cohorts stable_argsort Samples.two_unknown /\
  sort_category_cohorts Numpy.argsort
    (sort_category_cohorts Numpy.argsort Samples.two_unknown) =
  sort_category_cohorts Numpy.argsort Samples.two_unknown.
Proof. split; reflexivity. Qed.


(** ** Cells *)

Lemma Qis_zero_iff (q : Q) : Qis_zero q = true <-> (q == 0)%Q.
Proof.
  unfold Qis_zero, Qeq; simpl; rewrite Z.eqb_eq; lia.
Qed.

Lemma rint_comp (p q : Q) : (p == q)%Q -> rint p = rint q.
Proof.
  intros H; unfold rint.
  rewrite (Qfloor_comp _ _ H).
  assert (E : (p - inject_Z (Qfloor q) == q - inject_Z (Qfloor q))%Q)
    by (rewrite H; reflexivity).
  rewrite (Qcompare_comp _ _ E _ _ (Qeq_refl (1 # 2))); reflexivity.
Qed.

(** Rounding does not depend on the representation of the rational. *)
Lemma Qround_dec_comp (d : nat) (p q : Q) :
  (p == q)%Q -> Qround_dec d p = Qround_dec d q.
Proof.
  intros H; unfold Qround_dec.
  rewrite (rint_comp (p * pow10 d)%Q (q * pow10 d)%Q) by (rewrite H; reflexivity).
  reflexivity.
Qed.

Lemma non_finite_mul_hundred (c : cell) :
  is_finite c = false -> is_finite (mul c hundred) = false.
Proof. destruct c; simpl; auto; discriminate. Qed.

Lemma non_finite_round (d : nat) (c : cell) :
  is_finite c = false -> is_finite (round d c) = false.
Proof. destruct c; simpl; auto. Qed.

(** Division by a zero never gives a finite number. *)
Lemma truediv_zero_non_finite (a b : cell) :
  eq_zero b = true -> is_finite (truediv a b) = false.
Proof.
  destruct b as [| | |q]; simpl; try discriminate; intros Hq.
  destruct a as [| | |p]; simpl; auto.
  - apply Qis_zero_iff in Hq.
    rewrite (Qcompare_comp _ _ Hq _ _ (Qeq_refl 0)); reflexivity.
  - apply Qis_zero_iff in Hq.
    rewrite (Qcompare_comp _ _ Hq _ _ (Qeq_refl 0)); reflexivity.
  - rewrite Hq; destruct (Qcompare p 0); reflexivity.
Qed.

(** In the DoD and city views a zero compare value never gives a finite
    percentage change: the division is not guarded. *)
Lemma pct_change_zero_compare (sel cmp : cell) :
  eq_zero cmp = true -> is_finite (pct_change sel cmp) = false.
Proof.
  intros H; unfold pct_change.
  apply non_finite_round, non_finite_mul_hundred, truediv_zero_non_finite, H.
Qed.

(** In the hourly view a zero compare value gives the percentage change 0,
    whatever the selected value: its column is an object column. *)
Lemma hourly_cell_zero_compare (sel cmp : cell) :
  eq_zero cmp = true -> hourly_cell true sel cmp = Fin 0.
Proof.
  intros H; unfold hourly_cell, replace_zero_NA; rewrite H.
  destruct (sub sel cmp); reflexivity.
Qed.

Lemma hourly_pct_cell_zero_compare (sel cmp : cell) :
  eq_zero cmp = true -> hourly_pct_cell sel cmp = Fin 0.
Proof.
  intros H; unfold hourly_pct_cell; rewrite H.
  apply hourly_cell_zero_compare; exact H.
Qed.

(** In a float column a non-zero compare value gives
    (selected - compare) / compare * 100 rounded to 1 decimal. *)
Lemma hourly_cell_float (s c : Q) :
  ~ (c == 0)%Q ->
  hourly_cell false (Fin s) (Fin c) = Fin (Qround_dec 1 ((s - c) / c * 100)%Q).
Proof.
  intros Hc.
  destruct (Qis_zero c) eqn:E; [apply Qis_zero_iff in E; contradiction|].
  unfold hourly_cell, replace_zero_NA, eq_zero; rewrite E.
  unfold sub, truediv; rewrite E.
  unfold mul, hundred, of_Z, round, replace_inf_zero; f_equal.
  apply Qround_dec_comp.
  rewrite !Qred_correct; reflexivity.
Qed.

(** In an object column a non-zero compare value gives
    (selected - compare) / compare * 100, not rounded. *)
Lemma hourly_cell_object (s c : Q) :
  ~ (c == 0)%Q ->
  hourly_cell true (Fin s) (Fin c) = Fin (Qred ((s - c) / c * 100)%Q).
Proof.
  intros Hc.
  destruct (Qis_zero c) eqn:E; [apply Qis_zero_iff in E; contradiction|].
  unfold hourly_cell, replace_zero_NA, eq_zero; rewrite E.
  unfold sub, truediv; rewrite E.
  unfold mul, hundred, of_Z, replace_NA_inf_zero; f_equal.
  apply Qred_complete.
  rewrite !Qred_correct; reflexivity.
Qed.

Lemma hourly_pct_cell_finite (s c : Q) :
  ~ (c == 0)%Q ->
  hourly_pct_cell (Fin s) (Fin c) = Fin (Qround_dec 1 ((s - c) / c * 100)%Q).
Proof.
  intros Hc; unfold hourly_pct_cell.
  destruct (eq_zero (Fin c)) eqn:E; [apply Qis_zero_iff in E; contradiction|].
  apply hourly_cell_float; exact Hc.
Qed.

(** The last [replace] of the hourly view leaves no infinity, in a float
    column and in an object column alike. *)
Lemma replace_inf_zero_no_inf (c : cell) : is_inf (replace_inf_zero c) = false.
Proof. destruct c; reflexivity. Qed.

Lemma replace_NA_inf_zero_finite (c : cell) :
  is_finite (replace_NA_inf_zero c) = true.
Proof. destruct c; reflexivity. Qed.

Lemma finite_no_inf (c : cell) : is_finite c = true -> is_inf c = false.
Proof. destruct c; auto; discriminate. Qed.

Lemma hourly_cell_no_inf (object : bool) (sel cmp : cell) :
  is_inf (hourly_cell object sel cmp) = false /\
  (object = true -> is_finite (hourly_cell object sel cmp) = true).
Proof.
  unfold hourly_cell; cbv zeta; destruct object; split; intros; try discriminate.
  - apply finite_no_inf, replace_NA_inf_zero_finite.
  - apply replace_NA_inf_zero_finite.
  - apply replace_inf_zero_no_inf.
Qed.

(** A ratio whose denominator went through [.replace(0, pd.NA)] is missing
    when the denominator is 0. *)
Lemma pct_guarded_zero (a b : cell) :
  eq_zero b = true -> pct a (replace_zero_NA b) = NaN.
Proof.
  intros H; unfold pct, replace_zero_NA; rewrite H; destruct a; reflexivity.
Qed.

Lemma ratio_guarded_zero (a b : cell) :
  eq_zero b = true -> ratio a (replace_zero_NA b) = NaN.
Proof.
  intros H; unfold ratio, replace_zero_NA; rewrite H; destruct a; reflexivity.
Qed.

(** Without the replacement a zero denominator gives no finite number, and
    it gives an infinity as soon as the numerator is a non-zero number. *)
Lemma pct_zero_denominator (a b : cell) :
  eq_zero b = true -> is_finite (pct a b) = false.
Proof.
  intros H; unfold pct.
  apply non_finite_round, non_finite_mul_hundred, truediv_zero_non_finite, H.
Qed.

Lemma pct_positive_over_zero (p : Q) (b : cell) :
  (0 < p)%Q -> eq_zero b = true -> pct (Fin p) b = PosInf.
Proof.
  intros H Hb; destruct b as [| | |q]; try discriminate.
  unfold pct, truediv; simpl in Hb; rewrite Hb.
  apply Qgt_alt in H; rewrite H; reflexivity.
Qed.

(** X26.  In the DoD view a row without visitors never has a finite
    [tu_vu_pct], and has an infinite one as soon as it has transacting
    users. *)
Lemma dod_metrics_zero_visitors (df : DataFrame) (r : Row) :
  In r (rows (dod_metrics df)) ->
  eq_zero (num (Name "visitors") r) = true ->
  is_finite (num (Name "tu_vu_pct") r) = false /\
  (forall p, num (Name "transacting_users") r = Fin p -> (0 < p)%Q ->
             num (Name "tu_vu_pct") r = PosInf).
Proof.
  unfold dod_metrics, set_column; simpl; rewrite !map_map.
  intros H; apply in_map_iff in H; destruct H as [r0 [<- _]].
  rewrite !num_set_value; simpl; intros Hz; split.
  - apply pct_zero_denominator; exact Hz.
  - intros p -> Hp; apply pct_positive_over_zero; auto.
Qed.

(** ** Deltas and derived metrics at zero denominators *)

(** C1.  The percentage change of the DoD view and of the city view divides
    by the compare value as it is.  With compare = 0 and selected = 5 the
    "% Change" cell is +infinity, where the claim asks for 0; with
    compare = 5 and selected = 0 it is -100.  The hourly view, which sends
    the compare values through [.replace(0, pd.NA)], gives 0. *)
Theorem dod_pct_change_zero_compare_is_infinite :
  map (num (Name "% Change")) (rows (dod_delta Data.zero_compare_pivot))
  = [PosInf; Fin (-100 # 1)] /\
  map (num (Name "% Change"))
    (rows (dod_view stable_argsort "base" Data.zero_compare))
  = [PosInf] /\
  map (num (Name "% Change")) (rows (city_delta Data.city_zero_compare_pivot))
  = [PosInf] /\
  hourly_pct_cell (of_Z 5) (of_Z 0) = Fin 0 /\
  hourly_pct_cell (of_Z 0) (of_Z 5) = Fin (-100 # 1) /\
  option_map index (hourly_view stable_argsort "dpo_fc" 8 1 Data.hourly_rows)
  = Some [[Str "DU_45+_Days"; Str "RU10+"]; [Str "NU"; Str "New Users"];
          [Str "RU_last30_Days"; Str "RU1-5"]] /\
  option_map (fun t => map (num (Col 10)) (rows t))
    (hourly_view stable_argsort "dpo_fc" 8 1 Data.hourly_rows)
  = Some [Fin 0; Fin 0; Fin (25 # 1)].
Proof. repeat split; reflexivity. Qed.

(** C2.  The delta table of the DoD view holds non-finite values: a cohort
    with a row on the selected date only has a missing compare cell, a
    missing "Absolute Diff" and a missing "% Change", and a zero compare
    value gives an infinite "% Change".  Nothing is coerced to 0 there. *)
Theorem dod_delta_table_holds_non_finite :
  map (fun r => (num (Name "% Change") r, num (Name "Absolute Diff") r))
    (rows (dod_view stable_argsort "base" Data.one_sided))
  = [(Fin (111 # 10), Fin (100 # 1)); (NaN, NaN)] /\
  existsb (fun r => negb (is_finite (num (Name "% Change") r)))
    (rows (dod_view stable_argsort "base" Data.zero_compare)) = true.
Proof. split; reflexivity. Qed.

(** C3.  The derived metrics of the DoD view divide by the denominator as
    it is: a row with 3 transacting users, 4 orders and no visitor has
    [tu_vu_pct] = +infinity, and a row with 5 visitors, 2 orders, no base
    and no transacting user has [vu_pct] and [repeat_rate] = +infinity.
    The city view guards [tu_vu_pct_city] only; the weekly view guards the
    three metrics and gives missing values.  A guarded column that held a
    0 is an object column, which [.round(2)] does not round: the repeat
    rate 4/3 of the first row stays as it is in the weekly view, and is
    1.33 in the two other views. *)
Theorem dod_metrics_infinite_on_zero_denominator :
  map (fun r => (num (Name "tu_vu_pct") r, num (Name "vu_pct") r,
                 num (Name "repeat_rate") r))
    (rows (dod_metrics Data.zero_denominators))
  = [(PosInf, Fin 0, Fin (133 # 100)); (Fin 0, PosInf, PosInf)] /\
  map (fun r => (num (Name "tu_vu_pct_city") r, num (Name "vu_pct_city") r,
                 num (Name "repeat_rate_city") r))
    (rows (city_metrics Data.zero_denominators))
  = [(NaN, Fin 0, Fin (133 # 100)); (Fin 0, PosInf, PosInf)] /\
  map (fun r => (num (Name "tu_vu_pct") r, num (Name "vu_pct") r,
                 num (Name "repeat_rate") r))
    (rows (weekly_metrics Data.zero_denominators))
  = [(NaN, Fin 0, Fin (4 # 3)); (Fin 0, NaN, NaN)].
Proof. repeat split; reflexivity. Qed.

Lemma holds_zero_In (c : label) (df : DataFrame) (r : Row) :
  In r (rows df) -> eq_zero (num c r) = true -> holds_zero c df = true.
Proof.
  intros Hr Hz; unfold holds_zero; apply existsb_exists; eauto.
Qed.

Lemma holds_zero_false (c : label) (df : DataFrame) :
  (forall r, In r (rows df) -> eq_zero (num c r) = false) -> holds_zero c df = false.
Proof.
  intros H; unfold holds_zero; apply not_true_is_false; intros E.
  apply existsb_exists in E; destruct E as [r [Hr Hz]].
  rewrite (H r Hr) in Hz; discriminate.
Qed.

Lemma guarded_pct_zero (a b : cell) :
  eq_zero b = true -> guarded_pct true a b = NaN.
Proof.
  intros H; unfold guarded_pct, replace_zero_NA; rewrite H; destruct a; reflexivity.
Qed.

Lemma guarded_ratio_zero (a b : cell) :
  eq_zero b = true -> guarded_ratio true a b = NaN.
Proof.
  intros H; unfold guarded_ratio, replace_zero_NA; rewrite H; destruct a; reflexivity.
Qed.

(** The weekly view computes the three metrics of the claim C3 as stated:
    each is missing when its denominator is 0. *)
Lemma weekly_metrics_null_on_zero (df : DataFrame) (r : Row) :
  In r (rows (weekly_metrics df)) ->
  (eq_zero (num (Name "visitors") r) = true -> num (Name "tu_vu_pct") r = NaN) /\
  (eq_zero (num (Name "base") r) = true -> num (Name "vu_pct") r = NaN) /\
  (eq_zero (num (Name "transacting_users") r) = true ->
   num (Name "repeat_rate") r = NaN).
Proof.
  unfold weekly_metrics, set_column; simpl; rewrite !map_map.
  intros H; apply in_map_iff in H; destruct H as [r0 [<- Hr0]].
  rewrite !num_set_value; simpl.
  repeat split; intros H.
  - rewrite (holds_zero_In _ df r0 Hr0 H); apply guarded_pct_zero; exact H.
  - rewrite (holds_zero_In _ df r0 Hr0 H); apply guarded_pct_zero; exact H.
  - rewrite (holds_zero_In _ df r0 Hr0 H); apply guarded_ratio_zero; exact H.
Qed.

(** What holds of every result of an operation on the cells of the columns
    holds of every cell of the frame it makes. *)
Lemma map_columns_cells (P : label -> cell -> Prop) (f : label -> cell -> cell)
  (df : DataFrame) (r : Row) (p : label * value) :
  (forall l c, P l (f l c)) ->
  In r (rows (map_columns f df)) -> In p r ->
  mem_label (fst p) (index_names df) = false ->
  P (fst p) (cell_of (snd p)).
Proof.
  intros Hf Hr Hp Hi; unfold map_columns in Hr; simpl in Hr.
  apply in_map_iff in Hr; destruct Hr as [r0 [<- _]].
  apply in_map_iff in Hp; destruct Hp as [p0 [<- _]].
  destruct (mem_label (fst p0) (index_names df)) eqn:E; simpl in *.
  - congruence.
  - apply Hf.
Qed.

(** X23.  No cell of the comparison table of the hourly view is an
    infinity, whatever the two pivots hold.  For the three percentage
    metrics the cells of a column whose aligned compare values hold a 0
    are numbers; in the other columns, and for [pct_disc_orders], a
    missing value stays missing. *)
Theorem hourly_pct_change_no_infinity (metric : string)
  (pivot_sel pivot_cmp : DataFrame) (r : Row) (p : label * value) :
  let out := hourly_pct_change metric pivot_sel pivot_cmp in
  let pivot_cmp' := snd (align_rows (Fin 0) pivot_sel pivot_cmp) in
  In r (rows out) -> In p r ->
  mem_label (fst p) (index_names out) = false ->
  is_inf (cell_of (snd p)) = false /\
  (String.eqb metric "pct_disc_orders" = false ->
   holds_zero (fst p) pivot_cmp' = true ->
   is_finite (cell_of (snd p)) = true).
Proof.
  unfold hourly_pct_change.
  destruct (align_rows (Fin 0) pivot_sel pivot_cmp) as [a b]; cbn [snd].
  destruct (String.eqb metric "pct_disc_orders"); cbv zeta; intros Hr Hp Hi.
  - split; [|discriminate].
    apply (map_columns_cells (fun _ c => is_inf c = false)
             (fun _ => replace_inf_zero) (frame_binop sub a b) r p);
      [intros _ c; apply replace_inf_zero_no_inf | exact Hr | exact Hp | exact Hi].
  - apply (fun H => map_columns_cells
             (fun l c => is_inf c = false /\
                         (false = false -> holds_zero l b = true -> is_finite c = true))
             _ _ r p H Hr Hp Hi).
    intros l c; destruct (holds_zero l b); split; try discriminate.
    + apply finite_no_inf, replace_NA_inf_zero_finite.
    + intros _ _; apply replace_NA_inf_zero_finite.
    + apply replace_inf_zero_no_inf.
Qed.

(** ** The columns of the pivots *)

Lemma dedup_In {A : Type} (eqb : A -> A -> bool) (l : list A) (x : A) :
  In x (dedup eqb l) -> In x l.
Proof.
  revert x; induction l as [|y l IH]; simpl; auto.
  intros x [H|H]; auto.
  apply filter_In in H; destruct H as [H _]; auto.
Qed.

Lemma dedup_NoDup {A : Type} (eqb : A -> A -> bool) (l : list A) :
  (forall a, eqb a a = true) -> NoDup (dedup eqb l).
Proof.
  intros Hr; induction l as [|y l IH]; simpl; constructor.
  - intros H; apply filter_In in H; destruct H as [_ H].
    rewrite Hr in H; discriminate.
  - apply NoDup_filter; exact IH.
Qed.

Lemma NoDup_map_Col (zs : list Z) : NoDup zs -> NoDup (map Col zs).
Proof.
  induction 1 as [|z zs Hz H IH]; simpl; constructor; auto.
  intros Hin; apply in_map_iff in Hin; destruct Hin as [y [E Hy]].
  inversion E; subst; contradiction.
Qed.

(** The columns of a pivot table are column keys, each once. *)
Lemma pivot_table_date_columns (df : DataFrame) (values : label)
  (idx : list label) (col : label) (f : aggfunc) :
  date_columns (pivot_table df values idx col f).
Proof.
  unfold date_columns, pivot_table; simpl; split.
  - apply Forall_forall; intros l H; apply in_map_iff in H.
    destruct H as [z [<- _]]; reflexivity.
  - apply NoDup_map_Col.
    eapply Permutation_NoDup; [apply Permutation_sym, sorted_perm|].
    apply dedup_NoDup; apply Z.eqb_refl.
Qed.

Lemma filter_map_Col (p : label -> bool) (zs : list Z) :
  (forall z, p (Col z) = true) -> filter p (map Col zs) = map Col zs.
Proof.
  intros H; induction zs as [|z zs IH]; simpl; auto.
  rewrite H, IH; reflexivity.
Qed.

Lemma filter_all_true {A : Type} (p : A -> bool) (l : list A) :
  Forall (fun x => p x = true) l -> filter p l = l.
Proof.
  induction 1 as [|x l Hx H IH]; simpl; auto.
  rewrite Hx, IH; reflexivity.
Qed.

(** Sorting a pivot by (category, cohorts) keeps its columns. *)
Lemma sort_pivot_columns (argsort : list Z -> list nat) (pivot_df : DataFrame) :
  index_names pivot_df = [Name "category"; Name "cohorts"] ->
  Forall (fun l => is_col l = true) (columns pivot_df) ->
  columns (sort_pivot argsort pivot_df) = columns pivot_df.
Proof.
  intros Hi Hc; unfold sort_pivot.
  assert (Hd : has_dimension_columns (reset_index pivot_df) = true).
  { unfold has_dimension_columns, reset_index; simpl; rewrite Hi; reflexivity. }
  unfold set_index; simpl.
  rewrite (sort_category_cohorts_columns argsort _ Hd).
  unfold reset_index; simpl; rewrite Hi; simpl.
  rewrite (filter_all_true (fun l => negb (label_eqb l scratch))).
  - apply filter_all_true.
    eapply Forall_impl; [|exact Hc]; intros [s|z|l|l]; simpl; try discriminate; auto.
  - eapply Forall_impl; [|exact Hc]; intros [s|z|l|l]; simpl; try discriminate; auto.
Qed.

Lemma map_cells_columns (f : cell -> cell) (df : DataFrame) :
  columns (map_cells f df) = columns df.
Proof. reflexivity. Qed.

(** The pivot of the DoD view has date columns. *)
Lemma dod_pivot_columns (argsort : list Z -> list nat) (metric : string) (df : DataFrame) :
  columns (dod_pivot argsort metric df) =
  columns (pivot_table
             (if String.eqb metric "vu_pct" then filter_rows engaged df else df)
             (Name metric) [Name "category"; Name "cohorts"] (Name "start_date")
             (aggfunc_of DoD metric)).
Proof.
  unfold dod_pivot; rewrite sort_pivot_columns; auto.
  rewrite map_cells_columns; apply pivot_table_date_columns.
Qed.

Lemma dod_pivot_date_columns (argsort : list Z -> list nat) (metric : string)
  (df : DataFrame) :
  date_columns (dod_pivot argsort metric df).
Proof.
  unfold date_columns; rewrite dod_pivot_columns; apply pivot_table_date_columns.
Qed.

Lemma city_pivot_date_columns (metric : string) (df : DataFrame) :
  date_columns (city_pivot metric df).
Proof.
  unfold date_columns, city_pivot; rewrite map_cells_columns.
  apply pivot_table_date_columns.
Qed.

(** ** The delta step of the DoD and city views *)

Lemma lookup_pick (c : label) (cs : list label) (r : Row) :
  lookup c (pick cs r) = if mem_label c cs then lookup c r else None.
Proof.
  unfold pick; induction cs as [|c0 cs IH]; simpl; auto.
  rewrite lookup_app, IH.
  destruct (label_eqb c c0) eqn:E; simpl.
  - apply label_eqb_eq in E; subst c0.
    destruct (lookup c r) eqn:L; simpl.
    + rewrite label_eqb_refl; reflexivity.
    + destruct (mem_label c cs); reflexivity.
  - destruct (lookup c0 r); simpl; auto.
    rewrite label_eqb_sym, E; reflexivity.
Qed.

Lemma pick_labels (cs : list label) (r : Row) (l : label) :
  In l (map fst (pick cs r)) -> In l cs.
Proof.
  unfold pick; induction cs as [|c0 cs IH]; simpl; auto.
  rewrite map_app, in_app_iff; intros [H|H]; auto.
  destruct (lookup c0 r); simpl in H; tauto.
Qed.

Lemma lookup_relabelled (rho : label -> label) (c : label) (r : Row) :
  (forall l, In l (map fst r) -> rho l = rho c -> l = c) ->
  lookup (rho c) (map (fun p => (rho (fst p), snd p)) r) = lookup c r.
Proof.
  induction r as [|[l v] r IH]; simpl; auto; intros H.
  destruct (label_eqb (rho l) (rho c)) eqn:E.
  - apply label_eqb_eq in E; apply H in E; auto.
    subst l; rewrite label_eqb_refl; reflexivity.
  - destruct (label_eqb l c) eqn:E'.
    + apply label_eqb_eq in E'; subst l; rewrite label_eqb_refl in E; discriminate.
    + apply IH; intros l' Hl; apply H; auto.
Qed.

Section DeltaRow.

Variable names : list label.
Variables a b : Z.
Hypothesis distinct : a <> b.
Hypothesis plain :
  forallb (fun l => is_name l && negb (mem_label l delta_columns)) names = true.

Let d0 : label := Col a.
Let d1 : label := Col b.
Let rho : label -> label := relabel names [(d1, Selected d1); (d0, Compare d0)].
Let cs : list label :=
  (names ++ [Name "% Change"; Name "Absolute Diff"; d1; d0])%list.

Lemma names_are_names (l : label) :
  In l names -> is_name l = true /\ mem_label l delta_columns = false.
Proof.
  intros H; rewrite forallb_forall in plain; specialize (plain l H).
  apply andb_true_iff in plain; destruct plain as [H1 H2].
  apply negb_true_iff in H2; auto.
Qed.

Lemma relabel_name (l : label) : is_name l = true -> rho l = l.
Proof.
  destruct l; try discriminate; intros _; unfold rho, relabel.
  destruct (mem_label _ names); reflexivity.
Qed.

Lemma not_in_names (l : label) : is_name l = false -> mem_label l names = false.
Proof.
  intros H; destruct (mem_label l names) eqn:E; auto.
  apply mem_label_In, names_are_names in E; destruct E; congruence.
Qed.

Lemma relabel_selected : rho d1 = Selected d1.
Proof.
  unfold rho, relabel; rewrite not_in_names by reflexivity.
  simpl; rewrite Z.eqb_refl; reflexivity.
Qed.

Lemma relabel_compare : rho d0 = Compare d0.
Proof.
  unfold rho, relabel; rewrite not_in_names by reflexivity.
  simpl; rewrite (proj2 (Z.eqb_neq a b) distinct), Z.eqb_refl; reflexivity.
Qed.

Lemma cs_classes (l : label) :
  In l cs -> is_name l = true \/ l = d1 \/ l = d0.
Proof.
  unfold cs; rewrite in_app_iff; simpl.
  intros [H|[<-|[<-|[<-|[<-|[]]]]]]; auto.
  left; apply names_are_names; exact H.
Qed.

Lemma relabel_injective (l c : label) :
  In l cs -> In c cs -> rho l = rho c -> l = c.
Proof.
  intros Hl Hc.
  destruct (cs_classes l Hl) as [Nl|[->| ->]], (cs_classes c Hc) as [Nc|[->| ->]];
    rewrite ?relabel_selected, ?relabel_compare,
      ?(relabel_name l Nl), ?(relabel_name c Nc);
    intros E; subst; try discriminate; auto.
Qed.

(** Reading the row made by the delta step. *)
Lemma lookup_delta_row (c : label) (r : Row) :
  In c cs ->
  lookup (rho c) (delta_row names d0 d1 r) =
  lookup c
    (set_value (Name "% Change")
       (Num (pct_change (num d1 r) (num d0 r)))
       (set_value (Name "Absolute Diff") (Num (sub (num d1 r) (num d0 r))) r)).
Proof.
  intros Hc; unfold delta_row; fold rho; fold cs.
  rewrite lookup_relabelled.
  - rewrite lookup_pick, (proj2 (mem_label_In c cs) Hc).
    rewrite !num_set_value; reflexivity.
  - intros l Hl; apply relabel_injective; auto.
    eapply pick_labels; exact Hl.
Qed.

Lemma delta_row_key (r : Row) :
  key_of names (delta_row names d0 d1 r) = key_of names r.
Proof.
  unfold key_of; apply map_ext_in; intros n Hn.
  destruct (names_are_names n Hn) as [N D].
  rewrite <- (relabel_name n N) at 1.
  rewrite lookup_delta_row by (unfold cs; apply in_or_app; auto).
  rewrite !lookup_set_value.
  unfold delta_columns in D; simpl in D.
  apply orb_false_iff in D; destruct D as [D1 D2].
  apply orb_false_iff in D2; destruct D2 as [D2 _].
  rewrite (label_eqb_sym _ n), D1, (label_eqb_sym _ n), D2; reflexivity.
Qed.

Lemma delta_row_cells (r : Row) :
  num (Name "% Change") (delta_row names d0 d1 r) =
    pct_change (num d1 r) (num d0 r) /\
  num (Name "Absolute Diff") (delta_row names d0 d1 r) =
    sub (num d1 r) (num d0 r) /\
  num (Selected d1) (delta_row names d0 d1 r) = num d1 r /\
  num (Compare d0) (delta_row names d0 d1 r) = num d0 r.
Proof.
  unfold num.
  rewrite <- (relabel_name (Name "% Change")) by reflexivity.
  rewrite <- (relabel_name (Name "Absolute Diff")) by reflexivity.
  rewrite <- relabel_selected, <- relabel_compare.
  rewrite !lookup_delta_row
    by (unfold cs; apply in_or_app; right; simpl; auto).
  rewrite !lookup_set_value; simpl; auto.
Qed.

End DeltaRow.

Lemma city_delta_eq (pivot_df : DataFrame) : city_delta pivot_df = dod_delta pivot_df.
Proof. reflexivity. Qed.

(** A pivot with two date columns has them sorted as compare date, then
    selected date. *)
Lemma sorted_two_columns (df : DataFrame) :
  date_columns df -> List.length (columns df) = 2%nat ->
  exists a b, a < b /\ sorted label_leb (columns df) = [Col a; Col b].
Proof.
  intros [Hc Hn] Hl.
  destruct (columns df) as [|x [|y [|z t]]]; try discriminate.
  inversion Hc as [|? ? Hx Hc']; subst; inversion Hc' as [|? ? Hy _]; subst.
  destruct x as [|p| |]; try discriminate; destruct y as [|q| |]; try discriminate.
  assert (p <> q).
  { intros ->; inversion Hn as [|? ? Hin _]; apply Hin; left; reflexivity. }
  simpl; destruct (p <=? q) eqn:E.
  - exists p, q; split; auto; apply Z.leb_le in E; lia.
  - exists q, p; split; auto; apply Z.leb_gt in E; lia.
Qed.

(** The delta step on a pivot with a compare date and a selected date. *)
Lemma dod_delta_two_dates (pivot_df : DataFrame) (a b : Z) :
  sorted label_leb (columns pivot_df) = [Col a; Col b] -> a < b ->
  dod_delta pivot_df =
  {| index_names := index_names pivot_df;
     columns := (delta_columns ++ [Selected (Col b); Compare (Col a)])%list;
     rows := map (delta_row (index_names pivot_df) (Col a) (Col b))
               (filter (not_both_zero (Col a) (Col b)) (rows pivot_df)) |}.
Proof.
  intros H Hab; unfold dod_delta; rewrite H.
  unfold rename_columns, select_columns, set_column, filter_rows; simpl.
  rewrite (proj2 (Z.eqb_neq a b)) by lia.
  rewrite !Z.eqb_refl, !map_map; reflexivity.
Qed.

(** The delta step on a pivot that has not exactly two columns. *)
Lemma dod_delta_other (pivot_df : DataFrame) :
  List.length (columns pivot_df) <> 2%nat -> dod_delta pivot_df = pivot_df.
Proof.
  intros H; unfold dod_delta.
  rewrite <- (Permutation_length (sorted_perm label_leb (columns pivot_df))) in H.
  destruct (sorted label_leb (columns pivot_df)) as [|x [|y [|z t]]]; auto.
  contradiction H; reflexivity.
Qed.

Lemma date_columns_no_delta (df : DataFrame) (c : label) :
  date_columns df -> In c delta_columns -> mem_label c (columns df) = false.
Proof.
  intros [Hc _] Hin; destruct (mem_label c (columns df)) eqn:E; auto.
  apply mem_label_In in E; rewrite Forall_forall in Hc; apply Hc in E.
  destruct Hin as [<-|[<-|[]]]; discriminate.
Qed.

(** C9.  In the DoD view and in the city view the two delta columns are
    added exactly when the pivot has two distinct date columns: then the
    table has the columns "% Change", "Absolute Diff", selected date,
    compare date; with any other number of date columns (the two dates are
    the same, or there are rows for one date only) the delta step returns
    the pivot as it is, without a delta column.  The step is a total
    function: it raises no error. *)
Theorem delta_columns_iff_two_dates (pivot_df : DataFrame) :
  date_columns pivot_df ->
  (List.length (columns pivot_df) = 2%nat ->
   exists a b,
     a < b /\ sorted label_leb (columns pivot_df) = [Col a; Col b] /\
     columns (dod_delta pivot_df) =
       [Name "% Change"; Name "Absolute Diff"; Selected (Col b); Compare (Col a)] /\
     columns (city_delta pivot_df) =
       [Name "% Change"; Name "Absolute Diff"; Selected (Col b); Compare (Col a)]) /\
  (List.length (columns pivot_df) <> 2%nat ->
   dod_delta pivot_df = pivot_df /\ city_delta pivot_df = pivot_df /\
   forall c, In c delta_columns ->
             mem_label c (columns (dod_delta pivot_df)) = false /\
             mem_label c (columns (city_delta pivot_df)) = false).
Proof.
  intros Hd; split; intros Hl.
  - destruct (sorted_two_columns pivot_df Hd Hl) as [a [b [Hab Hs]]].
    exists a, b; change (city_delta pivot_df) with (dod_delta pivot_df).
    rewrite (dod_delta_two_dates pivot_df a b Hs Hab); auto.
  - change (city_delta pivot_df) with (dod_delta pivot_df).
    rewrite (dod_delta_other pivot_df Hl).
    repeat split; auto using date_columns_no_delta.
Qed.

Lemma pivot_frame_date_columns (cols : list Z) (l : list Row) :
  NoDup cols -> date_columns (Data.pivot_frame cols l).
Proof.
  intros H; split; simpl.
  - apply Forall_forall; intros c Hc; apply in_map_iff in Hc.
    destruct Hc as [z [<- _]]; reflexivity.
  - apply NoDup_map_Col; exact H.
Qed.

Lemma delta_columns_iff_two_dates_witness :
  columns (dod_delta Data.zero_row_pivot) =
    [Name "% Change"; Name "Absolute Diff"; Selected (Col 8); Compare (Col 1)] /\
  dod_delta Data.single_date_pivot = Data.single_date_pivot.
Proof.
  split.
  - reflexivity.
  - apply (delta_columns_iff_two_dates Data.single_date_pivot).
    + apply pivot_frame_date_columns; repeat constructor; simpl; tauto.
    + simpl; discriminate.
Defined.

(** The rows of the delta table are made from the kept rows of the pivot. *)
Lemma dod_delta_row_inv (pivot_df : DataFrame) (a b : Z) (r' : Row) :
  sorted label_leb (columns pivot_df) = [Col a; Col b] -> a < b ->
  In r' (rows (dod_delta pivot_df)) ->
  exists r, In r (rows pivot_df) /\
            not_both_zero (Col a) (Col b) r = true /\
            r' = delta_row (index_names pivot_df) (Col a) (Col b) r.
Proof.
  intros Hs Hab; rewrite (dod_delta_two_dates pivot_df a b Hs Hab); simpl.
  intros H; apply in_map_iff in H; destruct H as [r [<- Hr]].
  apply filter_In in Hr; destruct Hr; exists r; auto.
Qed.

(** In the DoD and city views every row of the delta table holds the
    percentage change and the difference of its two period cells. *)
Lemma dod_delta_cells (pivot_df : DataFrame) (a b : Z) (r' : Row) :
  sorted label_leb (columns pivot_df) = [Col a; Col b] -> a < b ->
  plain_index pivot_df = true ->
  In r' (rows (dod_delta pivot_df)) ->
  num (Name "% Change") r' =
    pct_change (num (Selected (Col b)) r') (num (Compare (Col a)) r') /\
  num (Name "Absolute Diff") r' =
    sub (num (Selected (Col b)) r') (num (Compare (Col a)) r').
Proof.
  intros Hs Hab Hp Hr.
  destruct (dod_delta_row_inv pivot_df a b r' Hs Hab Hr) as [r [_ [_ ->]]].
  assert (Hne : a <> b) by lia.
  destruct (delta_row_cells (index_names pivot_df) a b Hne Hp r)
    as [-> [-> [-> ->]]]; auto.
Qed.

(** X25.  A row of the delta table of the DoD view with a zero compare
    value has no finite percentage change. *)
Lemma dod_delta_zero_compare_row (pivot_df : DataFrame) (a b : Z) (r' : Row) :
  sorted label_leb (columns pivot_df) = [Col a; Col b] -> a < b ->
  plain_index pivot_df = true ->
  In r' (rows (dod_delta pivot_df)) ->
  eq_zero (num (Compare (Col a)) r') = true ->
  is_finite (num (Name "% Change") r') = false.
Proof.
  intros Hs Hab Hp Hr Hz.
  destruct (dod_delta_cells pivot_df a b r' Hs Hab Hp Hr) as [-> _].
  apply pct_change_zero_compare; exact Hz.
Qed.

(** C5, as the code has it.  In the DoD view and in the city view, on a
    pivot with a compare date and a selected date, a key whose rows are 0 on
    both dates is absent from the delta table, and no row of the delta
    table is 0 in both period columns.  (The hourly view drops no row.) *)
Theorem delta_drops_rows_zero_on_both_dates (pivot_df : DataFrame) (a b : Z) :
  sorted label_leb (columns pivot_df) = [Col a; Col b] -> a < b ->
  plain_index pivot_df = true ->
  (forall k,
      (forall r, In r (rows pivot_df) -> key_of (index_names pivot_df) r = k ->
                 eq_zero (num (Col a) r) = true /\ eq_zero (num (Col b) r) = true) ->
      ~ In k (index (dod_delta pivot_df)) /\ ~ In k (index (city_delta pivot_df))) /\
  (forall r',
      In r' (rows (dod_delta pivot_df)) \/ In r' (rows (city_delta pivot_df)) ->
      eq_zero (num (Compare (Col a)) r') && eq_zero (num (Selected (Col b)) r')
      = false).
Proof.
  intros Hs Hab Hp; assert (Hne : a <> b) by lia.
  change (city_delta pivot_df) with (dod_delta pivot_df); split.
  - intros k Hk.
    assert (Hn : ~ In k (index (dod_delta pivot_df))); [|tauto].
    unfold index; intros Hin; apply in_map_iff in Hin.
    destruct Hin as [r' [Hkey Hr']].
    destruct (dod_delta_row_inv pivot_df a b r' Hs Hab Hr') as [r [Hr [Hkeep ->]]].
    rewrite (dod_delta_two_dates pivot_df a b Hs Hab) in Hkey; simpl in Hkey.
    rewrite (delta_row_key (index_names pivot_df) a b Hne Hp) in Hkey.
    destruct (Hk r Hr Hkey) as [Ha Hb].
    unfold not_both_zero in Hkeep; rewrite Ha, Hb in Hkeep; discriminate.
  - intros r' Hr'; assert (Hin : In r' (rows (dod_delta pivot_df))) by tauto.
    destruct (dod_delta_row_inv pivot_df a b r' Hs Hab Hin) as [r [_ [Hkeep ->]]].
    destruct (delta_row_cells (index_names pivot_df) a b Hne Hp r)
      as [_ [_ [-> ->]]].
    unfold not_both_zero in Hkeep; apply negb_true_iff in Hkeep; exact Hkeep.
Qed.

Lemma delta_drops_rows_zero_on_both_dates_witness :
  index (dod_delta Data.zero_row_pivot) = [[Str "NU"; Str "New Users"]] /\
  ~ In [Str "DU_45+_Days"; Str "RU10+"] (index (dod_delta Data.zero_row_pivot)).
Proof.
  split; [reflexivity|].
  apply (delta_drops_rows_zero_on_both_dates Data.zero_row_pivot 1 8
           eq_refl eq_refl eq_refl).
  intros r [<-|[<-|[]]]; simpl; intros H; [discriminate|split; reflexivity].
Defined.

(** C5, as stated, fails in the hourly view: after the alignment and the
    filling the new users are at 0 in both pivots, and the second cohort is
    at 0 in the filled compare pivot, yet both keys are rows of the
    comparison table. *)
Lemma hourly_keeps_rows_zero_on_both_dates :
  cell_at Data.hourly_selected [Str "NU"; Str "New Users"] (Col 10) = Fin 0 /\
  cell_at Data.hourly_compare [Str "NU"; Str "New Users"] (Col 10) = Fin 0 /\
  index (hourly_pct_change "dpo_fc" Data.hourly_selected Data.hourly_compare)
  = [[Str "NU"; Str "New Users"]; [Str "RU_last30_Days"; Str "RU1-5"]].
Proof. repeat split; reflexivity. Qed.

(** ** Keys and the alignment of two pivots *)

Lemma value_eqb_str (v w : value) :
  is_str v = true -> value_eqb v w = true -> v = w.
Proof.
  destruct v, w; simpl; try discriminate; intros _ H.
  apply String.eqb_eq in H; congruence.
Qed.

Lemma value_eqb_str_r (v w : value) :
  is_str w = true -> value_eqb v w = true -> v = w.
Proof.
  destruct v, w; simpl; try discriminate; intros _ H.
  apply String.eqb_eq in H; congruence.
Qed.

Lemma key_eqb_eq (k k' : key) :
  categorical k = true -> key_eqb k k' = true -> k = k'.
Proof.
  revert k'; induction k as [|v k IH]; intros [|w k']; simpl; try discriminate; auto.
  intros Hc H; apply andb_true_iff in Hc, H; destruct Hc, H.
  f_equal; [apply value_eqb_str|apply IH]; auto.
Qed.

Lemma key_eqb_eq_r (k k' : key) :
  categorical k' = true -> key_eqb k k' = true -> k = k'.
Proof.
  revert k'; induction k as [|v k IH]; intros [|w k']; simpl; try discriminate; auto.
  intros Hc H; apply andb_true_iff in Hc, H; destruct Hc, H.
  f_equal; [apply value_eqb_str_r|apply IH]; auto.
Qed.

Lemma key_eqb_refl (k : key) : categorical k = true -> key_eqb k k = true.
Proof.
  induction k as [|v k IH]; simpl; auto.
  intros H; apply andb_true_iff in H; destruct H as [Hv Hk].
  rewrite (IH Hk), andb_true_r.
  destruct v; try discriminate; apply String.eqb_refl.
Qed.

Lemma keys_eqb_eq (a b : list key) :
  forallb categorical a = true -> keys_eqb a b = true -> a = b.
Proof.
  revert b; induction a as [|x a IH]; intros [|y b]; simpl; try discriminate; auto.
  intros Hc H; apply andb_true_iff in Hc, H; destruct Hc, H.
  f_equal; [apply key_eqb_eq|apply IH]; auto.
Qed.

Lemma dedup_complete (l : list key) (x : key) :
  forallb categorical l = true -> In x l -> In x (dedup key_eqb l).
Proof.
  induction l as [|y l IH]; simpl; auto.
  intros Hc [->|H]; auto.
  apply andb_true_iff in Hc; destruct Hc as [Hy Hl].
  destruct (key_eqb y x) eqn:E.
  - left; apply key_eqb_eq; auto.
  - right; apply filter_In; split; [apply IH; auto|rewrite E; reflexivity].
Qed.

Lemma lookup_combine_notin (n : label) (names : list label) (k : key) :
  mem_label n names = false -> lookup n (combine names k) = None.
Proof.
  revert k; induction names as [|m names IH]; intros [|v k]; simpl; auto.
  intros H; apply orb_false_iff in H; destruct H as [H1 H2].
  rewrite label_eqb_sym, H1; apply IH; exact H2.
Qed.

(** The key of a fresh row is the key it was made with. *)
Lemma key_of_make_row (names : list label) (k : key) (cs : list label)
  (f : label -> cell) :
  distinct_labels names = true -> List.length k = List.length names ->
  key_of names (make_row names k cs f) = k.
Proof.
  unfold make_row; revert k; induction names as [|n names IH];
    intros [|v k]; simpl; try discriminate; auto.
  intros Hd Hl; apply andb_true_iff in Hd; destruct Hd as [Hn Hd].
  apply negb_true_iff in Hn; rewrite label_eqb_refl; f_equal.
  rewrite <- (IH k Hd) at 2 by lia.
  unfold key_of; apply map_ext_in; intros m Hm.
  destruct (label_eqb n m) eqn:E.
  - apply label_eqb_eq in E; subst m.
    apply mem_label_In in Hm; congruence.
  - simpl; rewrite E; reflexivity.
Qed.

(** The cells of a fresh row. *)
Lemma num_make_row (names : list label) (k : key) (cs : list label)
  (f : label -> cell) (c : label) :
  mem_label c names = false -> In c cs ->
  num c (make_row names k cs f) = f c.
Proof.
  intros Hn Hc; unfold num, make_row.
  rewrite lookup_app, lookup_combine_notin by exact Hn.
  induction cs as [|c0 cs IH]; simpl; [contradiction|].
  destruct (label_eqb c0 c) eqn:E.
  - apply label_eqb_eq in E; subst; reflexivity.
  - destruct Hc as [->|Hc]; [rewrite label_eqb_refl in E; discriminate|auto].
Qed.

Lemma find_row_Some (df : DataFrame) (k : key) (r : Row) :
  find_row df k = Some r ->
  In r (rows df) /\ key_eqb (key_of (index_names df) r) k = true.
Proof. apply find_some. Qed.

Lemma find_row_None (df : DataFrame) (k : key) :
  categorical k = true -> ~ In k (index df) -> find_row df k = None.
Proof.
  intros Hk Hn; destruct (find_row df k) as [r|] eqn:E; auto.
  apply find_row_Some in E; destruct E as [Hr He].
  apply key_eqb_eq_r in He; auto.
  exfalso; apply Hn; unfold index; rewrite <- He; apply in_map; exact Hr.
Qed.

Section Reindex.

Variable df : DataFrame.
Variable fill : cell.
Variable ks : list key.
Hypothesis names_distinct : distinct_labels (index_names df) = true.
Hypothesis ks_ok :
  forall k, In k ks ->
            categorical k = true /\ List.length k = List.length (index_names df).

Let fresh (k : key) : Row :=
  match find_row df k with
  | Some r => r
  | None => make_row (index_names df) k (columns df) (fun _ => fill)
  end.

Lemma key_of_fresh (k : key) :
  In k ks -> key_of (index_names df) (fresh k) = k.
Proof.
  intros Hk; destruct (ks_ok k Hk) as [Hc Hl]; unfold fresh.
  destruct (find_row df k) as [r|] eqn:E.
  - apply find_row_Some in E; destruct E as [_ E].
    apply key_eqb_eq_r; auto.
  - apply key_of_make_row; auto.
Qed.

(** The index of a reindexed frame is the list of keys it was given. *)
Lemma reindex_rows_index : index (reindex_rows fill ks df) = ks.
Proof.
  unfold index, reindex_rows; simpl; rewrite map_map.
  rewrite <- (map_id ks) at 2; apply map_ext_in; intros k Hk.
  apply key_of_fresh; exact Hk.
Qed.

Lemma reindex_rows_find (k : key) :
  In k ks -> find_row (reindex_rows fill ks df) k = Some (fresh k).
Proof.
  unfold find_row, reindex_rows; simpl; fold fresh.
  assert (Hall : forall k', In k' ks ->
                   key_of (index_names df) (fresh k') = k' /\ categorical k' = true).
  { intros k' Hk'; split; [apply key_of_fresh|apply ks_ok]; auto. }
  clear ks_ok; induction ks as [|k0 l IH]; simpl; [contradiction|].
  intros Hk; destruct (Hall k0 (or_introl eq_refl)) as [E0 C0]; rewrite E0.
  destruct (key_eqb k0 k) eqn:E.
  - apply key_eqb_eq in E; auto; subst; reflexivity.
  - destruct Hk as [->|Hk]; [rewrite key_eqb_refl in E by auto; discriminate|].
    apply IH; auto.
    intros k' Hk'; apply Hall; right; exact Hk'.
Qed.

(** A key that is new to the frame gets the fill value in every column. *)
Lemma reindex_rows_new (k : key) (c : label) :
  In k ks -> ~ In k (index df) ->
  mem_label c (index_names df) = false -> In c (columns df) ->
  cell_at (reindex_rows fill ks df) k c = fill.
Proof.
  intros Hk Hn Hc Hin; unfold cell_at; rewrite reindex_rows_find by exact Hk.
  unfold fresh; rewrite find_row_None; [|apply ks_ok; exact Hk|exact Hn].
  apply (num_make_row _ _ _ (fun _ => fill)); auto.
Qed.

(** A key of the frame keeps its row. *)
Lemma reindex_rows_old (k : key) (c : label) :
  In k ks -> In k (index df) ->
  cell_at (reindex_rows fill ks df) k c = cell_at df k c.
Proof.
  intros Hk Hin; unfold cell_at; rewrite reindex_rows_find by exact Hk.
  unfold fresh; destruct (find_row df k) as [r|] eqn:E; auto.
  exfalso; unfold index in Hin; apply in_map_iff in Hin.
  destruct Hin as [r [Hr Hin]].
  apply (find_none _ _ E) in Hin.
  rewrite Hr, key_eqb_refl in Hin; [discriminate|apply ks_ok; exact Hk].
Qed.

End Reindex.

Lemma pivot_shape_inv (df : DataFrame) :
  pivot_shape df = true ->
  distinct_labels (index_names df) = true /\
  (forall c, In c (columns df) -> mem_label c (index_names df) = false) /\
  forallb categorical (index df) = true /\
  (forall k, In k (index df) ->
             categorical k = true /\ List.length k = List.length (index_names df)).
Proof.
  unfold pivot_shape; rewrite !andb_true_iff; intros [[[Hn Hd] Hc] Hk].
  repeat split; auto.
  - intros c Hin; rewrite forallb_forall in Hc; specialize (Hc c Hin).
    destruct (mem_label c (index_names df)) eqn:E; auto.
    apply mem_label_In in E; rewrite forallb_forall in Hn; specialize (Hn c E).
    destruct c; discriminate.
  - rewrite forallb_forall in Hk; auto.
  - unfold index, key_of in H; apply in_map_iff in H; destruct H as [r [<- _]].
    apply length_map.
Qed.

Lemma join_outer_In (a b : list key) (k : key) :
  forallb categorical a = true -> forallb categorical b = true ->
  (In k (join_outer a b) <-> In k a \/ In k b).
Proof.
  intros Ha Hb; unfold join_outer.
  destruct (keys_eqb a b) eqn:E.
  - apply keys_eqb_eq in E; auto; subst; tauto.
  - rewrite <- in_app_iff; split; intros H.
    + apply (Permutation_in _ (sorted_perm key_leb _)) in H.
      apply dedup_In in H; exact H.
    + apply (Permutation_in _ (Permutation_sym (sorted_perm key_leb _))).
      apply dedup_complete; auto.
      rewrite forallb_app, Ha, Hb; reflexivity.
Qed.

(** C4, as stated, fails in the DoD view: the cohort (DU_30_45_Days, RU6-10)
    has a row on the selected date only, it is a row of the pivot, and its
    cell for the compare date is missing, not 0. *)
Lemma dod_pivot_missing_side_not_zero :
  In [Str "DU_30_45_Days"; Str "RU6-10"]
    (index (dod_pivot stable_argsort "base" Data.one_sided)) /\
  cell_at (dod_pivot stable_argsort "base" Data.one_sided)
    [Str "DU_30_45_Days"; Str "RU6-10"] (Col 1) = NaN /\
  cell_at (dod_pivot stable_argsort "base" Data.one_sided)
    [Str "DU_30_45_Days"; Str "RU6-10"] (Col 1) <> Fin 0.
Proof.
  repeat split; try (vm_compute; tauto); try reflexivity.
  vm_compute; discriminate.
Qed.

(** ** The cells of a pivot table *)

Lemma find_mapped (names : list label) (g : key -> Row) (ks : list key) (k : key) :
  (forall k', In k' ks -> key_of names (g k') = k' /\ categorical k' = true) ->
  In k ks ->
  find (fun r => key_eqb (key_of names r) k) (map g ks) = Some (g k).
Proof.
  induction ks as [|k0 l IH]; simpl; [contradiction|]; intros Hall Hk.
  destruct (Hall k0 (or_introl eq_refl)) as [E0 C0]; rewrite E0.
  destruct (key_eqb k0 k) eqn:E.
  - apply key_eqb_eq in E; auto; subst; reflexivity.
  - destruct Hk as [->|Hk]; [rewrite key_eqb_refl in E by auto; discriminate|].
    apply IH; auto.
Qed.



Section PivotTable.

Variable df : DataFrame.
Variable values : label.
Variable idx : list label.
Variable col : label.
Variable f : aggfunc.
Hypothesis idx_names : forallb is_name idx = true.
Hypothesis idx_distinct : distinct_labels idx = true.
Hypothesis categorical_rows :
  forall r, In r (rows df) -> categorical (key_of idx r) = true.

Let agged (k : key) (z : Z) : cell :=
  aggregate f (group_values df values idx col k z).

Let groups : list (key * Z) :=
  flat_map (fun r => match group_key idx r, column_key col r with
                     | Some k, Some z => if is_nan (agged k z) then [] else [(k, z)]
                     | _, _ => []
                     end) (rows df).







End PivotTable.

(** ** The aggregation function of each view *)



(** ** One date only *)

Lemma dedup_one_value (l : list Z) (d : Z) :
  (forall y, In y l -> y = d) -> (List.length (dedup Z.eqb l) <= 1)%nat.
Proof.
  destruct l as [|x l]; simpl; [lia|]; intros H.
  assert (E : forall m, (forall y, In y m -> y = d) ->
                        filter (fun y => negb (x =? y)) m = []).
  { induction m as [|y m IH]; simpl; auto; intros Hm.
    rewrite (H x (or_introl eq_refl)), (Hm y (or_introl eq_refl)), Z.eqb_refl.
    simpl; rewrite <- (H x (or_introl eq_refl)); apply IH; auto. }
  rewrite E; [simpl; lia|].
  intros y Hy; apply dedup_In in Hy; auto.
Qed.

(** A pivot table of rows that all have one column key has at most one
    column. *)
Lemma pivot_table_one_column (df : DataFrame) (values : label) (idx : list label)
  (col : label) (f : aggfunc) (d : Z) :
  (forall r z, In r (rows df) -> column_key col r = Some z -> z = d) ->
  (List.length (columns (pivot_table df values idx col f)) <= 1)%nat.
Proof.
  intros H; unfold pivot_table; simpl.
  rewrite length_map, (Permutation_length (sorted_perm Z.leb _)).
  apply (dedup_one_value _ d); intros y Hy.
  apply in_map_iff in Hy; destruct Hy as [[k z] [<- Hg]]; simpl.
  apply in_flat_map in Hg; destruct Hg as [r [Hr Hg]].
  destruct (group_key idx r) as [k'|]; [|contradiction].
  destruct (column_key col r) as [z'|] eqn:Ez; [|contradiction].
  destruct (is_nan _); [contradiction|].
  destruct Hg as [Hg|[]]; inversion Hg; subst; eauto.
Qed.

Lemma dod_pivot_index_names (argsort : list Z -> list nat) (metric : string)
  (df : DataFrame) :
  index_names (dod_pivot argsort metric df) = [Name "category"; Name "cohorts"].
Proof. reflexivity. Qed.

Lemma dod_displayed_two (argsort : list Z -> list nat) (metric : string)
  (df : DataFrame) :
  List.length (columns (dod_pivot argsort metric (dod_metrics df))) = 2%nat ->
  dod_displayed argsort metric df = Some (dod_view argsort metric df).
Proof.
  intros H; unfold dod_displayed, dod_view; cbv zeta.
  rewrite (Permutation_length (sorted_perm label_leb _)), H; reflexivity.
Qed.

Lemma dod_displayed_other (argsort : list Z -> list nat) (metric : string)
  (df : DataFrame) :
  List.length (columns (dod_pivot argsort metric (dod_metrics df))) <> 2%nat ->
  dod_displayed argsort metric df = None.
Proof.
  intros H; unfold dod_displayed; cbv zeta.
  rewrite (Permutation_length (sorted_perm label_leb _)).
  destruct (Nat.eqb_spec
              (List.length (columns (dod_pivot argsort metric (dod_metrics df)))) 2);
    [contradiction|reflexivity].
Qed.

(** X24.  When the rows loaded for the DoD view all have one date (the
    selected date and the compare date are the same, or only one of them
    has rows), the view computes the pivot and no delta, and it shows no
    table for the metric: the table is shown in the two-date branch
    only. *)
Lemma dod_view_one_date (argsort : list Z -> list nat) (metric : string)
  (df : DataFrame) (d : Z) :
  (forall r, In r (rows df) -> lookup (Name "start_date") r = Some (Ord d)) ->
  dod_view argsort metric df = dod_pivot argsort metric (dod_metrics df) /\
  dod_displayed argsort metric df = None.
Proof.
  intros H.
  assert (L : (List.length (columns (dod_pivot argsort metric (dod_metrics df)))
               <= 1)%nat).
  { rewrite dod_pivot_columns.
    assert (Hd : forall r z, In r (rows (dod_metrics df)) ->
                             column_key (Name "start_date") r = Some z -> z = d).
    { unfold dod_metrics, set_column; simpl; rewrite !map_map.
      intros r z Hr; apply in_map_iff in Hr; destruct Hr as [r0 [<- Hr0]].
      unfold column_key; rewrite !lookup_set_value; simpl.
      rewrite (H r0 Hr0); congruence. }
    match goal with
    | |- context [pivot_table ?x ?v ?i ?c ?g] =>
        apply (pivot_table_one_column x v i c g d)
    end.
    destruct (String.eqb metric "vu_pct"); simpl; auto.
    intros r z Hr; apply filter_In in Hr; destruct Hr; eauto. }
  split.
  - unfold dod_view; apply dod_delta_other; lia.
  - apply dod_displayed_other; lia.
Qed.

(** ** The comparison table of the hourly view, cell by cell *)

Lemma keys_eqb_refl (a : list key) :
  forallb categorical a = true -> keys_eqb a a = true.
Proof.
  induction a as [|k a IH]; simpl; auto; intros H.
  apply andb_true_iff in H; destruct H as [Hk Ha].
  rewrite key_eqb_refl, IH; auto.
Qed.

Lemma join_outer_same (a : list key) :
  forallb categorical a = true -> join_outer a a = a.
Proof. intros H; unfold join_outer; rewrite keys_eqb_refl; auto. Qed.

Lemma labels_eqb_eq (a b : list label) : labels_eqb a b = true -> a = b.
Proof.
  revert b; induction a as [|x a IH]; intros [|y b]; simpl; try discriminate; auto.
  intros H; apply andb_true_iff in H; destruct H as [H1 H2].
  apply label_eqb_eq in H1; f_equal; auto.
Qed.

Lemma dedup_labels_complete (l : list label) (x : label) :
  In x l -> In x (dedup label_eqb l).
Proof.
  induction l as [|y l IH]; simpl; auto.
  intros [->|H]; auto.
  destruct (label_eqb y x) eqn:E.
  - left; apply label_eqb_eq; exact E.
  - right; apply filter_In; split; [auto|rewrite E; reflexivity].
Qed.

Lemma join_labels_In (a b : list label) (c : label) :
  In c (join_labels a b) <-> In c a \/ In c b.
Proof.
  unfold join_labels; destruct (labels_eqb a b) eqn:E.
  - apply labels_eqb_eq in E; subst; tauto.
  - rewrite <- in_app_iff; split; intros H.
    + apply (Permutation_in _ (sorted_perm label_leb _)), dedup_In in H; exact H.
    + apply (Permutation_in _ (Permutation_sym (sorted_perm label_leb _))).
      apply dedup_labels_complete; exact H.
Qed.

Lemma find_map {A B : Type} (p : B -> bool) (q : A -> bool) (g : A -> B) (l : list A) :
  (forall x, p (g x) = q x) -> find p (map g l) = option_map g (find q l).
Proof.
  intros H; induction l as [|x l IH]; simpl; auto.
  rewrite H; destruct (q x); auto.
Qed.

Section MapCells.

Variable f : cell -> cell.
Variable names : list label.

Let h (p : label * value) : label * value :=
  if mem_label (fst p) names then p else (fst p, Num (f (cell_of (snd p)))).

Lemma lookup_map_cells_index (n : label) (r : Row) :
  mem_label n names = true -> lookup n (map h r) = lookup n r.
Proof.
  intros Hn; induction r as [|[l v] r IH]; simpl; auto.
  unfold h at 1; simpl.
  destruct (mem_label l names) eqn:E; simpl; destruct (label_eqb l n) eqn:El; auto.
  apply label_eqb_eq in El; subst; congruence.
Qed.

Lemma lookup_map_cells_column (c : label) (r : Row) :
  mem_label c names = false ->
  lookup c (map h r) = option_map (fun v => Num (f (cell_of v))) (lookup c r).
Proof.
  intros Hn; induction r as [|[l v] r IH]; simpl; auto.
  unfold h at 1; simpl.
  destruct (mem_label l names) eqn:E; simpl; destruct (label_eqb l c) eqn:El; auto.
  apply label_eqb_eq in El; subst; congruence.
Qed.

Lemma key_of_map_cells (r : Row) : key_of names (map h r) = key_of names r.
Proof.
  unfold key_of; apply map_ext_in; intros n Hn.
  rewrite lookup_map_cells_index; auto; apply mem_label_In; exact Hn.
Qed.

End MapCells.

(** An elementwise operation that keeps missing values missing acts on
    every cell of the columns. *)
Lemma map_cells_cell (f : cell -> cell) (df : DataFrame) (k : key) (c : label) :
  f NaN = NaN -> mem_label c (index_names df) = false ->
  cell_at (map_cells f df) k c = f (cell_at df k c).
Proof.
  intros Hf Hc; unfold cell_at, find_row, map_cells; simpl.
  rewrite (find_map _ (fun r => key_eqb (key_of (index_names df) r) k))
    by (intros r; rewrite key_of_map_cells; reflexivity).
  destruct (find _ (rows df)) as [r|]; simpl; auto.
  unfold num; rewrite lookup_map_cells_column by exact Hc.
  destruct (lookup c r); simpl; auto.
Qed.

Lemma map_cells_index (f : cell -> cell) (df : DataFrame) :
  index (map_cells f df) = index df.
Proof.
  unfold index, map_cells; simpl; rewrite map_map.
  apply map_ext; intros r; apply key_of_map_cells.
Qed.

Section FrameOf.

Variable names : list label.
Variable ks : list key.
Variable cs : list label.
Hypothesis names_distinct : distinct_labels names = true.
Hypothesis ks_ok :
  forall k, In k ks -> categorical k = true /\ List.length k = List.length names.
Hypothesis cs_ok : forall c, In c cs -> mem_label c names = false.

Lemma frame_of_index (F : key -> label -> cell) :
  index (frame_of names ks cs F) = ks.
Proof.
  unfold index, frame_of; simpl; rewrite map_map.
  rewrite <- (map_id ks) at 2; apply map_ext_in; intros k Hk.
  apply key_of_make_row; auto; apply ks_ok; exact Hk.
Qed.

Lemma frame_of_cell (F : key -> label -> cell) (k : key) (c : label) :
  In k ks -> In c cs -> cell_at (frame_of names ks cs F) k c = F k c.
Proof.
  intros Hk Hc; unfold cell_at, find_row, frame_of; simpl.
  rewrite find_mapped; auto.
  - apply num_make_row; auto.
  - intros k' Hk'; destruct (ks_ok k' Hk'); split; auto.
    apply key_of_make_row; auto.
Qed.

Lemma map_cells_frame_of (f : cell -> cell) (F : key -> label -> cell) :
  map_cells f (frame_of names ks cs F) =
  frame_of names ks cs (fun k c => f (F k c)).
Proof.
  unfold map_cells, frame_of; simpl; f_equal.
  rewrite map_map; apply map_ext; intros k; unfold make_row.
  rewrite map_app, map_map; f_equal.
  - rewrite <- (map_id (combine names k)) at 2.
    apply map_ext_in; intros [n v] Hin; simpl.
    apply in_combine_l in Hin.
    rewrite (proj2 (mem_label_In n names) Hin); reflexivity.
  - apply map_ext_in; intros c Hc; simpl.
    rewrite (cs_ok c Hc); reflexivity.
Qed.

Lemma map_columns_frame_of (f : label -> cell -> cell) (F : key -> label -> cell) :
  map_columns f (frame_of names ks cs F) =
  frame_of names ks cs (fun k c => f c (F k c)).
Proof.
  unfold map_columns, frame_of; simpl; f_equal.
  rewrite map_map; apply map_ext; intros k; unfold make_row.
  rewrite map_app, map_map; f_equal.
  - rewrite <- (map_id (combine names k)) at 2.
    apply map_ext_in; intros [n v] Hin; simpl.
    apply in_combine_l in Hin.
    rewrite (proj2 (mem_label_In n names) Hin); reflexivity.
  - apply map_ext_in; intros c Hc; simpl.
    rewrite (cs_ok c Hc); reflexivity.
Qed.

End FrameOf.

(** The two aligned pivots have the names and columns they had, and one
    index of categorical keys. *)
Lemma align_rows_shape (pivot_sel pivot_cmp : DataFrame) :
  pivot_shape pivot_sel = true ->
  pivot_shape pivot_cmp = true ->
  index_names pivot_sel = index_names pivot_cmp ->
  let a := fst (align_rows (Fin 0) pivot_sel pivot_cmp) in
  let b := snd (align_rows (Fin 0) pivot_sel pivot_cmp) in
  index_names a = index_names pivot_sel /\
  index_names b = index_names pivot_sel /\
  columns a = columns pivot_sel /\
  columns b = columns pivot_cmp /\
  index b = index a /\
  (forall k, In k (index a) ->
             categorical k = true /\
             List.length k = List.length (index_names pivot_sel)).
Proof.
  intros Hs Hc Hn.
  destruct (pivot_shape_inv pivot_sel Hs) as [Ds [Cs [Ks Ls]]].
  destruct (pivot_shape_inv pivot_cmp Hc) as [Dc [Cc [Kc Lc]]].
  unfold align_rows.
  destruct (keys_eqb (index pivot_sel) (index pivot_cmp)) eqn:E; simpl.
  - apply keys_eqb_eq in E; auto; repeat split; auto; apply Ls; auto.
  - set (ks := join_outer (index pivot_sel) (index pivot_cmp)).
    assert (Hin : forall k, In k ks <-> In k (index pivot_sel) \/ In k (index pivot_cmp))
      by (intros k; apply join_outer_In; auto).
    assert (Oks : forall k, In k ks ->
                    categorical k = true /\
                    List.length k = List.length (index_names pivot_sel)).
    { intros k Hk; apply Hin in Hk; destruct Hk as [Hk|Hk]; auto.
      rewrite Hn; auto. }
    assert (Okc : forall k, In k ks ->
                    categorical k = true /\
                    List.length k = List.length (index_names pivot_cmp))
      by (intros k Hk; rewrite <- Hn; auto).
    rewrite !reindex_rows_index by auto.
    repeat split; auto; apply Oks; auto.
Qed.

(** In the hourly view every cell of the comparison table is computed from
    the two aligned cells of its key and its hour: the percentage change,
    as an object column computes it when the aligned compare values of the
    hour hold a 0 and as a float column computes it otherwise, or the
    difference for [pct_disc_orders]. *)
Lemma hourly_pct_change_cells (metric : string) (pivot_sel pivot_cmp : DataFrame) :
  pivot_shape pivot_sel = true ->
  pivot_shape pivot_cmp = true ->
  index_names pivot_sel = index_names pivot_cmp ->
  let aligned := align_rows (Fin 0) pivot_sel pivot_cmp in
  let out := hourly_pct_change metric pivot_sel pivot_cmp in
  index out = index (fst aligned) /\
  forall k c,
    In k (index (fst aligned)) ->
    In c (columns pivot_sel) \/ In c (columns pivot_cmp) ->
    cell_at out k c =
    (if String.eqb metric "pct_disc_orders" then hourly_pp_cell
     else hourly_cell (holds_zero c (snd aligned)))
      (cell_at (fst aligned) k c) (cell_at (snd aligned) k c).
Proof.
  intros Hs Hc Hn.
  destruct (pivot_shape_inv pivot_sel Hs) as [Ds [Cs [Ks Ls]]].
  destruct (pivot_shape_inv pivot_cmp Hc) as [Dc [Cc [Kc Lc]]].
  pose proof (align_rows_shape pivot_sel pivot_cmp Hs Hc Hn) as Hsh.
  unfold hourly_pct_change; cbv zeta in Hsh |- *; revert Hsh.
  destruct (align_rows (Fin 0) pivot_sel pivot_cmp) as [a b]; simpl.
  intros [Na [Nb [Ca [Cb [Iab Oks]]]]].
  set (names := index_names pivot_sel) in *.
  set (ks := index a) in *.
  set (cs1 := join_labels (columns a) (columns b)).
  assert (Hcat : forallb categorical ks = true)
    by (apply forallb_forall; intros k Hk; apply Oks; exact Hk).
  assert (Hcs1 : forall c, In c cs1 -> mem_label c names = false).
  { intros c H; apply join_labels_In in H; rewrite Ca, Cb in H.
    destruct H as [H|H]; auto.
    rewrite Hn; auto. }
  assert (B1 : frame_binop sub a b =
               frame_of names ks cs1 (fun k c => sub (cell_at a k c) (cell_at b k c))).
  { unfold frame_binop; fold ks; rewrite Iab, Na, join_outer_same by exact Hcat.
    reflexivity. }
  destruct (String.eqb metric "pct_disc_orders").
  - rewrite B1, (map_cells_frame_of names ks cs1 Hcs1).
    split; [apply frame_of_index; auto|].
    intros k c Hk Hcol; rewrite frame_of_cell; auto.
    apply join_labels_In; rewrite Ca, Cb; exact Hcol.
  - set (cs2 := join_labels cs1 (columns b)).
    assert (Hcs2 : forall c, In c cs2 -> mem_label c names = false).
    { intros c H; apply join_labels_In in H; destruct H as [H|H]; auto.
      rewrite Cb in H; rewrite Hn; auto. }
    assert (B2 : frame_binop truediv (frame_binop sub a b)
                   (map_cells replace_zero_NA b) =
                 frame_of names ks cs2
                   (fun k c =>
                      truediv
                        (cell_at (frame_of names ks cs1
                                    (fun k c => sub (cell_at a k c) (cell_at b k c))) k c)
                        (cell_at (map_cells replace_zero_NA b) k c))).
    { rewrite B1; unfold frame_binop at 1.
      rewrite map_cells_index, frame_of_index, Iab by auto.
      fold ks; rewrite join_outer_same by exact Hcat; reflexivity. }
    rewrite B2, (map_cells_frame_of names ks cs2 Hcs2),
      !(map_columns_frame_of names ks cs2 Hcs2).
    split; [apply frame_of_index; auto|].
    intros k c Hk Hcol.
    assert (H1 : In c cs1) by (apply join_labels_In; rewrite Ca, Cb; exact Hcol).
    assert (H2 : In c cs2) by (apply join_labels_In; auto).
    rewrite frame_of_cell by auto.
    rewrite frame_of_cell by auto.
    rewrite map_cells_cell; [|reflexivity|rewrite Nb; apply Hcs1; exact H1].
    unfold hourly_cell; destruct (holds_zero c b); reflexivity.
Qed.

(** ** The Dimension Sorter when no two rows tie *)

Lemma NoDup_map_injective {A B : Type} (f : A -> B) (l : list A) :
  (forall x y, f x = f y -> x = y) -> NoDup l -> NoDup (map f l).
Proof.
  intros Hf H; induction H as [|x l Hx H IH]; simpl; constructor; auto.
  intros Hin; apply in_map_iff in Hin; destruct Hin as [y [E Hy]].
  apply Hf in E; subst; auto.
Qed.

Lemma map_injective_on {A B : Type} (f : A -> B) (P : A -> Prop) (l m : list A) :
  (forall x y, P x -> P y -> f x = f y -> x = y) ->
  Forall P l -> Forall P m -> map f l = map f m -> l = m.
Proof.
  intros Hf; revert m; induction l as [|x l IH]; intros [|y m] Hl Hm E;
    simpl in E; try discriminate; auto.
  inversion Hl; inversion Hm; injection E; intros; subst.
  f_equal; auto.
Qed.

Lemma map_nth_positions (ks : list Z) :
  map (fun i => nth i ks 0) (seq 0 (List.length ks)) = ks.
Proof.
  pose proof (map_take_nth (fun z : Z => z) 0 (seq 0 (List.length ks)) ks) as H.
  rewrite take_seq, !map_id in H; symmetry; apply H.
  apply perm_seq_bound; reflexivity.
Qed.

(** Keys that are all different have one sorted order of their positions:
    every sort kind returns it. *)
Lemma argsort_unique (a1 a2 : list Z -> list nat) (ks : list Z) :
  argsort_spec a1 -> argsort_spec a2 -> NoDup ks -> a1 ks = a2 ks.
Proof.
  intros H1 H2 Hn.
  destruct (H1 ks) as [P1 S1], (H2 ks) as [P2 S2].
  apply (map_injective_on (fun i => nth i ks 0)
           (fun i => (i < List.length ks)%nat)).
  - intros x y Hx Hy E; apply (proj1 (NoDup_nth ks 0) Hn); auto.
  - apply perm_seq_bound; exact P1.
  - apply perm_seq_bound; exact P2.
  - apply Sorted_le_unique; auto.
    transitivity (map (fun i => nth i ks 0) (seq 0 (List.length ks))).
    + apply Permutation_map; exact P1.
    + symmetry; apply Permutation_map; exact P2.
Qed.

Lemma sort_category_cohorts_ext (a1 a2 : list Z -> list nat) (df : DataFrame) :
  a1 (map (fun r => Z.of_nat (sort_order r)) (rows df)) =
  a2 (map (fun r => Z.of_nat (sort_order r)) (rows df)) ->
  sort_category_cohorts a1 df = sort_category_cohorts a2 df.
Proof.
  intros E; unfold sort_category_cohorts.
  destruct (has_dimension_columns df); [|reflexivity].
  unfold reset_index_drop, drop_column, sort_values, set_column; simpl.
  set (f := fun r : Row => set_value scratch (Ord (Z.of_nat (sort_order r))) r).
  assert (K : map (int_key scratch) (map f (rows df)) =
              map (fun r => Z.of_nat (sort_order r)) (rows df)).
  { rewrite map_map; apply map_ext; intros r; unfold f, int_key.
    rewrite lookup_set_value, label_eqb_refl; reflexivity. }
  rewrite K, E; reflexivity.
Qed.

Lemma ranks_NoDup (l : list Row) :
  NoDup (map sort_order l) -> NoDup (map (fun r => Z.of_nat (sort_order r)) l).
Proof.
  intros H; rewrite <- (map_map sort_order Z.of_nat).
  apply NoDup_map_injective; auto.
  intros x y; apply Nat2Z.inj.
Qed.

(** X1.  When no two rows of the table have the same rank, the result of
    [sort_category_cohorts] does not depend on the sort kind of
    [sort_values]: any two kinds that sort give the same table.  Sorting
    the result again then gives the result back. *)
Theorem sort_category_cohorts_distinct_ranks
  (a1 a2 : list Z -> list nat) (df : DataFrame) :
  argsort_spec a1 -> argsort_spec a2 ->
  NoDup (map sort_order (rows df)) ->
  sort_category_cohorts a1 df = sort_category_cohorts a2 df /\
  (index_names df = [] ->
   sort_category_cohorts a1 (sort_category_cohorts a1 df) =
   sort_category_cohorts a1 df).
Proof.
  intros H1 H2 Hn.
  assert (Any : forall b1 b2 d, argsort_spec b1 -> argsort_spec b2 ->
                  NoDup (map sort_order (rows d)) ->
                  sort_category_cohorts b1 d = sort_category_cohorts b2 d).
  { intros b1 b2 d K1 K2 Kn; apply sort_category_cohorts_ext.
    apply argsort_unique; auto using ranks_NoDup. }
  split; [apply Any; auto|].
  intros Hi.
  destruct (has_dimension_columns df) eqn:Hd.
  - assert (Hn' : NoDup (map sort_order (rows (sort_category_cohorts a1 df)))).
    { eapply Permutation_NoDup; [|exact Hn].
      symmetry.
      transitivity (map sort_order (map (drop_value scratch) (rows df))).
      - apply Permutation_map, sorted_rows_perm; auto.
      - rewrite map_map.
        rewrite (map_ext _ sort_order) by (intros r; apply sort_order_drop_scratch).
        reflexivity. }
    rewrite (Any a1 stable_argsort _ H1 stable_argsort_spec Hn').
    rewrite (Any a1 stable_argsort df H1 stable_argsort_spec Hn).
    apply stable_sort_idempotent; auto using stable_argsort_stable.
  - unfold sort_category_cohorts; rewrite Hd, Hd; reflexivity.
Qed.

Lemma sort_category_cohorts_distinct_ranks_witness :
  sort_category_cohorts stable_argsort Samples.mixed =
  sort_category_cohorts reversing_argsort Samples.mixed.
Proof.
  assert (H : NoDup (map sort_order (rows Samples.mixed))).
  { vm_compute.
    repeat (constructor; [simpl; intuition discriminate|]); constructor. }
  exact (proj1 (sort_category_cohorts_distinct_ranks stable_argsort reversing_argsort
                  Samples.mixed stable_argsort_spec reversing_argsort_spec H)).
Defined.

(** X2.  The rank of a canonical combination is its position in
    [custom_order], and no other combination has that rank: two rows tie
    only when they hold the same canonical combination or when neither
    holds one. *)
Theorem sort_order_canonical_injective (r r' : Row) (c h c' h' : string) :
  lookup (Name "category") r = Some (Str c) ->
  lookup (Name "cohorts") r = Some (Str h) ->
  lookup (Name "category") r' = Some (Str c') ->
  lookup (Name "cohorts") r' = Some (Str h') ->
  In (c, h) custom_order ->
  nth_error custom_order (sort_order r) = Some (c, h) /\
  (sort_order r = sort_order r' -> (c, h) = (c', h')).
Proof.
  intros Hc Hh Hc' Hh' Hin.
  unfold sort_order; rewrite Hc, Hh, Hc', Hh'.
  destruct (rank_of_canonical _ Hin) as [Hlt Hnth].
  split; [exact Hnth|].
  intros E; unfold rank_of at 2 in E.
  destruct (list_index (c', h') custom_order) as [i|] eqn:Hi.
  - apply list_index_Some in Hi; destruct Hi as [_ Hi].
    rewrite E in Hnth; congruence.
  - lia.
Qed.

Lemma sort_order_canonical_injective_witness :
  nth_error custom_order (sort_order (Samples.dims "DU_45+_Days" "RU10+")) =
  Some ("DU_45+_Days"%string, "RU10+"%string).
Proof.
  apply (sort_order_canonical_injective
           (Samples.dims "DU_45+_Days" "RU10+") (Samples.dims "NU" "New Users")
           "DU_45+_Days" "RU10+" "NU" "New Users");
    try reflexivity.
  simpl; tauto.
Defined.

Lemma take_In {A : Type} (idx : list nat) (l : list A) (x : A) :
  In x (take idx l) -> In x l.
Proof.
  unfold take; intros H; apply in_flat_map in H; destruct H as [i [_ H]].
  destruct (nth_error l i) as [y|] eqn:E; simpl in H; [|contradiction].
  destruct H as [->|[]]; eapply nth_error_In; eauto.
Qed.

Lemma lookup_drop_values (cs : list label) (c : label) (r : Row) :
  lookup c (drop_values cs r) = if mem_label c cs then None else lookup c r.
Proof.
  induction r as [|[l v] r IH]; simpl.
  - destruct (mem_label c cs); reflexivity.
  - destruct (mem_label l cs) eqn:M; simpl.
    + rewrite IH; destruct (label_eqb l c) eqn:E; auto.
      apply label_eqb_eq in E; subst; rewrite M; reflexivity.
    + rewrite IH; destruct (label_eqb l c) eqn:E; auto.
      apply label_eqb_eq in E; subst; rewrite M; reflexivity.
Qed.

(** X3.  For a table with the two dimension columns, the table returned by
    [sort_category_cohorts] has no column named [__sort_order]: a column of
    that name in the table it is given is overwritten by the ranks and
    dropped with them.  Every other column is kept, and every row of the
    result is a row of the input without its index values and that column.
    (A table without the dimension columns is returned as it is, with such
    a column when it has one.) *)
Theorem sort_category_cohorts_drops_scratch
  (argsort : list Z -> list nat) (df : DataFrame) :
  has_dimension_columns df = true ->
  let out := sort_category_cohorts argsort df in
  index_names out = [] /\
  mem_label scratch (columns out) = false /\
  (forall c, c <> scratch -> mem_label c (columns out) = mem_label c (columns df)) /\
  (forall r, In r (rows out) ->
     lookup scratch r = None /\
     exists r0, In r0 (rows df) /\
       forall c, c <> scratch -> mem_label c (index_names df) = false ->
                 lookup c r = lookup c r0).
Proof.
  intros Hd out; unfold out.
  rewrite sort_category_cohorts_index, sort_category_cohorts_columns by exact Hd.
  split; [reflexivity|].
  split; [rewrite mem_label_filter, label_eqb_refl; apply andb_false_r|].
  split.
  - intros c Hc; rewrite mem_label_filter.
    apply label_eqb_neq in Hc; rewrite Hc; apply andb_true_r.
  - intros r Hr; rewrite sort_category_cohorts_rows in Hr by exact Hd.
    apply in_map_iff in Hr; destruct Hr as [r0 [<- Hr0]].
    apply take_In in Hr0.
    split.
    + rewrite lookup_drop_values, lookup_drop_value, label_eqb_refl.
      destruct (mem_label scratch (index_names df)); reflexivity.
    + exists r0; split; [exact Hr0|].
      intros c Hc Hi; rewrite lookup_drop_values, Hi, lookup_drop_value.
      assert (E : label_eqb scratch c = false)
        by (apply label_eqb_neq; congruence).
      rewrite E; reflexivity.
Qed.

Lemma sort_category_cohorts_drops_scratch_witness :
  mem_label scratch (columns Cases.with_scratch) = true /\
  mem_label scratch
    (columns (sort_category_cohorts stable_argsort Cases.with_scratch)) = false.
Proof.
  split; [reflexivity|].
  apply (sort_category_cohorts_drops_scratch stable_argsort Cases.with_scratch).
  reflexivity.
Defined.

(** ** The sort step of the pivots *)

Section SortPivot.

Variable argsort : list Z -> list nat.
Hypothesis kind : argsort_spec argsort.
Variable p : DataFrame.
Hypothesis by_dimension : index_names p = [Name "category"; Name "cohorts"].
Hypothesis cols : Forall (fun l => is_col l = true) (columns p).
Hypothesis no_scratch : forall r, In r (rows p) -> lookup scratch r = None.

Lemma reset_index_has_dimensions : has_dimension_columns (reset_index p) = true.
Proof.
  unfold has_dimension_columns, reset_index; simpl; rewrite by_dimension; reflexivity.
Qed.

Lemma sort_pivot_rows :
  rows (sort_pivot argsort p) = rows (sort_category_cohorts argsort (reset_index p)).
Proof. reflexivity. Qed.

Lemma sort_pivot_index_names : index_names (sort_pivot argsort p) = index_names p.
Proof. rewrite by_dimension; reflexivity. Qed.

Lemma map_drop_scratch_rows : map (drop_value scratch) (rows p) = rows p.
Proof.
  rewrite <- (map_id (rows p)) at 2; apply map_ext_in.
  intros r Hr; apply drop_value_absent, no_scratch, Hr.
Qed.

Lemma sort_pivot_perm : Permutation (rows (sort_pivot argsort p)) (rows p).
Proof.
  rewrite sort_pivot_rows.
  transitivity (map (drop_value scratch) (rows p));
    [|rewrite map_drop_scratch_rows; reflexivity].
  apply (sorted_rows_perm argsort kind (reset_index p) reset_index_has_dimensions).
  reflexivity.
Qed.

Lemma sort_pivot_index_perm : Permutation (index (sort_pivot argsort p)) (index p).
Proof.
  unfold index; rewrite sort_pivot_index_names.
  apply Permutation_map, sort_pivot_perm.
Qed.

Lemma sort_pivot_Sorted :
  Sorted (fun r r' => (sort_order r <= sort_order r')%nat) (rows (sort_pivot argsort p)).
Proof.
  rewrite sort_pivot_rows.
  apply (sorted_rows_Sorted argsort kind (reset_index p) reset_index_has_dimensions).
  reflexivity.
Qed.

End SortPivot.

(** X4.  The sort step of the DoD and hourly pivots ([reset_index], the
    sorter, [set_index]) only reorders the rows of the pivot: the index
    levels and the columns are the ones of the pivot, the rows are the same
    rows in the order of their ranks, whatever the sort kind. *)
Theorem sort_pivot_reorders_rows (argsort : list Z -> list nat) (p : DataFrame) :
  argsort_spec argsort ->
  index_names p = [Name "category"; Name "cohorts"] ->
  Forall (fun l => is_col l = true) (columns p) ->
  (forall r, In r (rows p) -> lookup scratch r = None) ->
  let out := sort_pivot argsort p in
  index_names out = index_names p /\
  columns out = columns p /\
  Permutation (rows out) (rows p) /\
  Permutation (index out) (index p) /\
  Sorted (fun r r' => (sort_order r <= sort_order r')%nat) (rows out).
Proof.
  intros K Hi Hc Hs out; unfold out.
  split; [apply sort_pivot_index_names; exact Hi|].
  split; [apply sort_pivot_columns; assumption|].
  split; [apply sort_pivot_perm; assumption|].
  split; [apply sort_pivot_index_perm; assumption|].
  apply sort_pivot_Sorted; assumption.
Qed.

Lemma sort_pivot_reorders_rows_witness :
  index (sort_pivot stable_argsort Cases.unsorted_pivot) =
  [[Str "NU"; Str "New Users"]; [Str "RU_last30_Days"; Str "RU1-5"];
   [Str "DU_45+_Days"; Str "RU10+"]] /\
  Permutation (rows (sort_pivot stable_argsort Cases.unsorted_pivot))
    (rows Cases.unsorted_pivot).
Proof.
  split; [reflexivity|].
  apply (sort_pivot_reorders_rows stable_argsort Cases.unsorted_pivot
           stable_argsort_spec).
  - reflexivity.
  - repeat constructor.
  - intros r Hr; simpl in Hr.
    destruct Hr as [<-|[<-|[<-|[]]]]; reflexivity.
Defined.

(** ** The keys of the pivots of the views *)

Lemma cell_eqb_refl (c : cell) : cell_eqb c c = true.
Proof.
  destruct c; simpl; auto.
  apply Qeq_bool_iff; reflexivity.
Qed.

Lemma value_eqb_refl (v : value) : value_eqb v v = true.
Proof.
  destruct v; simpl.
  - apply String.eqb_refl.
  - apply Z.eqb_refl.
  - apply cell_eqb_refl.
Qed.

Lemma key_eqb_same (k : key) : key_eqb k k = true.
Proof.
  induction k as [|v k IH]; simpl; auto.
  rewrite value_eqb_refl; exact IH.
Qed.

Lemma Sorted_le_NoDup_lt (l : list Z) : Sorted Z.le l -> NoDup l -> Sorted Z.lt l.
Proof.
  induction 1 as [|a l Hs IH Hd]; intros Hn; constructor.
  - apply IH; inversion Hn; auto.
  - inversion Hn as [|? ? Ha _]; subst.
    destruct Hd as [|b l Hab]; constructor.
    assert (a <> b) by (intros ->; apply Ha; left; reflexivity).
    lia.
Qed.

Lemma lookup_name_cols (s : string) (F : label -> cell) (zs : list Z) :
  lookup (Name s) (map (fun c => (c, Num (F c))) (map Col zs)) = None.
Proof.
  induction zs as [|z zs IH]; simpl; auto.
Qed.




Section PivotKeys.

Variable df : DataFrame.
Variable values : label.
Variable idx : list label.
Variable col : label.
Variable f : aggfunc.
Hypothesis idx_distinct : distinct_labels idx = true.

Let agged (k : key) (z : Z) : cell :=
  aggregate f (group_values df values idx col k z).

Let groups : list (key * Z) :=
  flat_map (fun r => match group_key idx r, column_key col r with
                     | Some k, Some z => if is_nan (agged k z) then [] else [(k, z)]
                     | _, _ => []
                     end) (rows df).

Let ks : list key := sorted key_leb (dedup key_eqb (map fst groups)).

Let zs : list Z := sorted Z.leb (dedup Z.eqb (map snd groups)).

Lemma pivot_keys_from_rows (k : key) :
  In k ks ->
  exists r z, In r (rows df) /\ group_key idx r = Some k /\
              column_key col r = Some z /\ is_nan (agged k z) = false.
Proof.
  intros H; unfold ks in H.
  apply (Permutation_in _ (sorted_perm key_leb _)) in H.
  apply dedup_In in H; apply in_map_iff in H.
  destruct H as [[k' z] [E H]]; simpl in E; subst k'.
  unfold groups in H; apply in_flat_map in H; destruct H as [r [Hr H]].
  destruct (group_key idx r) as [k1|] eqn:G; [|contradiction].
  destruct (column_key col r) as [z1|] eqn:C; [|contradiction].
  destruct (is_nan (agged k1 z1)) eqn:N; [contradiction|].
  destruct H as [H|[]]; inversion H; subst.
  exists r, z; auto.
Qed.

Lemma pivot_keys_length (k : key) : In k ks -> List.length k = List.length idx.
Proof.
  intros H; apply pivot_keys_from_rows in H.
  destruct H as [r [z [_ [G _]]]]; unfold group_key in G.
  destruct (forallb _ idx); inversion G; subst.
  unfold key_of; apply length_map.
Qed.

Lemma pivot_table_index : index (pivot_table df values idx col f) = ks.
Proof.
  transitivity (map (fun k : key => k) ks); [|apply map_id].
  unfold index, pivot_table; cbv zeta; cbn [rows index_names]; rewrite map_map.
  apply map_ext_in; intros k Hk.
  apply key_of_make_row; auto using pivot_keys_length.
Qed.

Lemma pivot_table_index_NoDup : NoDup (index (pivot_table df values idx col f)).
Proof.
  rewrite pivot_table_index; unfold ks.
  eapply Permutation_NoDup; [symmetry; apply sorted_perm|].
  apply dedup_NoDup, key_eqb_same.
Qed.

Lemma pivot_table_index_from_rows (k : key) :
  In k (index (pivot_table df values idx col f)) ->
  exists r, In r (rows df) /\ group_key idx r = Some k.
Proof.
  rewrite pivot_table_index; intros H; apply pivot_keys_from_rows in H.
  destruct H as [r [z [Hr [G _]]]]; eauto.
Qed.

Lemma pivot_table_no_name (s : string) (r : Row) :
  mem_label (Name s) idx = false ->
  In r (rows (pivot_table df values idx col f)) -> lookup (Name s) r = None.
Proof.
  intros Hs Hr; unfold pivot_table in Hr; cbv zeta in Hr; cbn [rows] in Hr.
  apply in_map_iff in Hr; destruct Hr as [k [<- _]].
  unfold make_row; rewrite lookup_app, lookup_combine_notin by exact Hs.
  apply lookup_name_cols.
Qed.

Lemma pivot_table_columns_ascending :
  exists ds, columns (pivot_table df values idx col f) = map Col ds /\ Sorted Z.lt ds.
Proof.
  exists zs; split; [reflexivity|].
  apply Sorted_le_NoDup_lt.
  - apply (sorted_Sorted Z Z.leb Z.le).
    + intros x y H; apply Z.leb_le; exact H.
    + intros x y H; apply Z.leb_gt in H; lia.
  - unfold zs; eapply Permutation_NoDup; [symmetry; apply sorted_perm|].
    apply dedup_NoDup, Z.eqb_refl.
Qed.

End PivotKeys.

Lemma map_cells_no_name (g : cell -> cell) (d : DataFrame) (s : string) (r : Row) :
  mem_label (Name s) (index_names d) = false ->
  (forall r0, In r0 (rows d) -> lookup (Name s) r0 = None) ->
  In r (rows (map_cells g d)) -> lookup (Name s) r = None.
Proof.
  intros Hs Hd Hr; unfold map_cells in Hr; cbn [rows] in Hr.
  apply in_map_iff in Hr; destruct Hr as [r0 [<- Hr0]].
  rewrite (lookup_map_cells_column g (index_names d)) by exact Hs.
  rewrite (Hd r0 Hr0); reflexivity.
Qed.

(** A pivot by (category, cohorts) with its cells rounded, as the DoD and
    hourly views build it before they sort it. *)
Section RoundedPivot.

Variable argsort : list Z -> list nat.
Hypothesis kind : argsort_spec argsort.
Variable df : DataFrame.
Variable values col : label.
Variable f : aggfunc.
Variable g : cell -> cell.

Let dims : list label := [Name "category"; Name "cohorts"].
Let pivot : DataFrame := map_cells g (pivot_table df values dims col f).

Lemma rounded_pivot_cols : Forall (fun l => is_col l = true) (columns pivot).
Proof.
  unfold pivot; rewrite map_cells_columns.
  apply (pivot_table_date_columns df values dims col f).
Qed.

Lemma rounded_pivot_no_scratch (r : Row) : In r (rows pivot) -> lookup scratch r = None.
Proof.
  apply map_cells_no_name; [reflexivity|].
  intros r0; apply pivot_table_no_name; reflexivity.
Qed.

Lemma rounded_pivot_NoDup : NoDup (index pivot).
Proof.
  unfold pivot; rewrite map_cells_index.
  apply pivot_table_index_NoDup; reflexivity.
Qed.

Lemma sorted_pivot_NoDup : NoDup (index (sort_pivot argsort pivot)).
Proof.
  eapply Permutation_NoDup; [|exact rounded_pivot_NoDup].
  symmetry; apply sort_pivot_index_perm;
    auto using rounded_pivot_cols, rounded_pivot_no_scratch.
Qed.

Lemma sorted_pivot_index_In (k : key) :
  In k (index (sort_pivot argsort pivot)) ->
  In k (index (pivot_table df values dims col f)).
Proof.
  intros H.
  apply (Permutation_in k (sort_pivot_index_perm argsort kind pivot eq_refl
                             rounded_pivot_no_scratch)) in H.
  unfold pivot in H; rewrite map_cells_index in H; exact H.
Qed.


End RoundedPivot.

(** X5.  Every pivot of the three views has one row per key: no two rows of
    the pivot of the DoD view, of the city view or of the hourly view have
    the same key, whatever rows the data has and whatever the sort kind.
    The columns of the DoD and city pivots are the dates in ascending
    order, each once. *)
Theorem pivot_keys_unique (argsort : list Z -> list nat) (metric : string)
  (df : DataFrame) :
  argsort_spec argsort ->
  NoDup (index (dod_pivot argsort metric df)) /\
  NoDup (index (city_pivot metric df)) /\
  (forall date p, hourly_pivot argsort metric date df = Some p -> NoDup (index p)) /\
  (exists ds, columns (dod_pivot argsort metric df) = map Col ds /\ Sorted Z.lt ds) /\
  (exists ds, columns (city_pivot metric df) = map Col ds /\ Sorted Z.lt ds).
Proof.
  intros K.
  split; [apply sorted_pivot_NoDup; exact K|].
  split.
  { unfold city_pivot; rewrite map_cells_index.
    apply pivot_table_index_NoDup; reflexivity. }
  split.
  { intros date p H; unfold hourly_pivot in H; cbv zeta in H.
    destruct (rows (filter_rows _ df)); [discriminate|].
    inversion H; subst; apply sorted_pivot_NoDup; exact K. }
  split.
  - rewrite dod_pivot_columns; apply pivot_table_columns_ascending.
  - unfold city_pivot; rewrite map_cells_columns.
    apply pivot_table_columns_ascending.
Qed.

Lemma pivot_keys_unique_witness :
  NoDup (index (dod_pivot stable_argsort "base" (dod_metrics Data.one_sided))).
Proof.
  apply (pivot_keys_unique stable_argsort "base" (dod_metrics Data.one_sided)
           stable_argsort_spec).
Defined.

(** ** The cells of the pivots of the views *)




Lemma group_key_key_of (idx : list label) (r : Row) (k : key) :
  group_key idx r = Some k -> key_of idx r = k.
Proof.
  unfold group_key; destruct (forallb _ idx); congruence.
Qed.

Lemma engaged_category (r : Row) (c : string) :
  engaged r = true -> lookup (Name "category") r = Some (Str c) ->
  c <> "NU"%string /\ c <> "Unassigned"%string.
Proof.
  unfold engaged; intros H Hc; rewrite Hc in H.
  apply andb_true_iff in H; destruct H as [H _].
  apply negb_true_iff in H; simpl in H.
  rewrite orb_false_r in H; apply orb_false_iff in H; destruct H as [H1 H2].
  apply String.eqb_neq in H1, H2; auto.
Qed.

(** X8.  The VU % filter.  Every key of the pivot of [vu_pct] in the DoD
    view, and every city of the pivot of [vu_pct_city] in the city view,
    comes from a row of the data that passes the filter: its category is
    neither NU nor Unassigned and its base is not 0.  So the categories NU
    and Unassigned are never rows of the VU % table of the DoD view. *)
Theorem vu_pct_pivot_keys_pass_filter (argsort : list Z -> list nat) (df : DataFrame) :
  argsort_spec argsort ->
  (forall k, In k (index (dod_pivot argsort "vu_pct" df)) ->
     (exists r, In r (rows df) /\ engaged r = true /\
                key_of [Name "category"; Name "cohorts"] r = k) /\
     forall h, k <> [Str "NU"; h] /\ k <> [Str "Unassigned"; h]) /\
  (forall k, In k (index (city_pivot "vu_pct_city" df)) ->
     exists r, In r (rows df) /\ engaged r = true /\ key_of [Name "city"] r = k).
Proof.
  intros K; split.
  - intros k Hk; unfold dod_pivot in Hk; cbv zeta in Hk.
    change (String.eqb "vu_pct" "vu_pct") with true in Hk; cbv iota in Hk.
    apply sorted_pivot_index_In in Hk; [|exact K].
    apply pivot_table_index_from_rows in Hk; [|reflexivity].
    destruct Hk as [r [Hr G]].
    unfold filter_rows in Hr; cbn [rows] in Hr; apply filter_In in Hr.
    destruct Hr as [Hr He]; apply group_key_key_of in G.
    split; [exists r; auto|].
    intros h; subst k; unfold key_of; simpl.
    destruct (lookup (Name "category") r) as [[c| |]|] eqn:Hc;
      try (split; discriminate).
    destruct (engaged_category r c He Hc) as [N1 N2].
    split; intros E; inversion E; subst; tauto.
  - intros k Hk; unfold city_pivot in Hk; cbv zeta in Hk.
    change (String.eqb "vu_pct_city" "vu_pct_city") with true in Hk; cbv iota in Hk.
    rewrite map_cells_index in Hk.
    apply pivot_table_index_from_rows in Hk; [|reflexivity].
    destruct Hk as [r [Hr G]].
    unfold filter_rows in Hr; cbn [rows] in Hr; apply filter_In in Hr.
    destruct Hr as [Hr He]; apply group_key_key_of in G.
    exists r; auto.
Qed.

Lemma vu_pct_pivot_keys_pass_filter_witness :
  (exists r, In r (rows (dod_metrics Data.one_sided)) /\ engaged r = true /\
             key_of [Name "category"; Name "cohorts"] r =
             [Str "DU_30_45_Days"; Str "RU6-10"]) /\
  forall h, [Str "DU_30_45_Days"; Str "RU6-10"] <> [Str "NU"; h] /\
            [Str "DU_30_45_Days"; Str "RU6-10"] <> [Str "Unassigned"; h].
Proof.
  apply (proj1 (vu_pct_pivot_keys_pass_filter stable_argsort
                  (dod_metrics Data.one_sided) stable_argsort_spec)
           [Str "DU_30_45_Days"; Str "RU6-10"]).
  vm_compute; auto.
Defined.

(** ** The rows of the delta table *)

(** X9.  Every row of the delta table of the DoD and city views comes from
    one row of the pivot, with the same key: its two period cells are the
    cells of that row for the selected and the compare date, under the
    labels of the selected and the compare period. *)
Theorem delta_table_rows (pivot_df : DataFrame) (a b : Z) (r' : Row) :
  sorted label_leb (columns pivot_df) = [Col a; Col b] -> a < b ->
  plain_index pivot_df = true ->
  In r' (rows (dod_delta pivot_df)) \/ In r' (rows (city_delta pivot_df)) ->
  exists r,
    In r (rows pivot_df) /\
    key_of (index_names pivot_df) r' = key_of (index_names pivot_df) r /\
    num (Selected (Col b)) r' = num (Col b) r /\
    num (Compare (Col a)) r' = num (Col a) r.
Proof.
  intros Hs Hab Hp Hr.
  assert (Hin : In r' (rows (dod_delta pivot_df)))
    by (destruct Hr as [Hr|Hr]; [|rewrite city_delta_eq in Hr]; exact Hr).
  destruct (dod_delta_row_inv pivot_df a b r' Hs Hab Hin) as [r [Hr0 [_ ->]]].
  assert (Hne : a <> b) by lia.
  destruct (delta_row_cells (index_names pivot_df) a b Hne Hp r) as [P [D [S C]]].
  exists r; split; [exact Hr0|].
  split; [apply delta_row_key; auto|].
  auto.
Qed.

Lemma delta_table_rows_witness :
  let r' := delta_row [Name "category"; Name "cohorts"] (Col 1) (Col 8)
              (Data.pivot_row "NU" "New Users" [(1, of_Z 900); (8, of_Z 1000)]) in
  exists r,
    In r (rows Data.zero_row_pivot) /\
    key_of (index_names Data.zero_row_pivot) r' =
      key_of (index_names Data.zero_row_pivot) r /\
    num (Selected (Col 8)) r' = num (Col 8) r /\
    num (Compare (Col 1)) r' = num (Col 1) r.
Proof.
  intros r'.
  apply (delta_table_rows Data.zero_row_pivot 1 8 r' eq_refl eq_refl eq_refl).
  left; vm_compute; auto.
Defined.

(** X10.  The delta step keeps, in the order of the pivot, exactly the rows
    that are not 0 on both dates: a row with a number other than 0 or with a
    missing value on either date is a row of the delta table, and the table
    has no other row. *)
Theorem delta_keeps_rows_in_order (pivot_df : DataFrame) (a b : Z) :
  sorted label_leb (columns pivot_df) = [Col a; Col b] -> a < b ->
  plain_index pivot_df = true ->
  index (dod_delta pivot_df) =
    map (key_of (index_names pivot_df))
      (filter (not_both_zero (Col a) (Col b)) (rows pivot_df)) /\
  index (city_delta pivot_df) = index (dod_delta pivot_df) /\
  (forall r, In r (rows pivot_df) ->
     eq_zero (num (Col a) r) = false \/ eq_zero (num (Col b) r) = false ->
     In (key_of (index_names pivot_df) r) (index (dod_delta pivot_df))) /\
  (List.length (rows (dod_delta pivot_df)) <= List.length (rows pivot_df))%nat.
Proof.
  intros Hs Hab Hp.
  assert (Hne : a <> b) by lia.
  assert (E : index (dod_delta pivot_df) =
              map (key_of (index_names pivot_df))
                (filter (not_both_zero (Col a) (Col b)) (rows pivot_df))).
  { rewrite (dod_delta_two_dates pivot_df a b Hs Hab); unfold index; cbn [rows index_names].
    rewrite map_map; apply map_ext; intros r.
    apply delta_row_key; auto. }
  split; [exact E|].
  split; [rewrite city_delta_eq; reflexivity|].
  split.
  - intros r Hr Hz; rewrite E; apply in_map, filter_In; split; [exact Hr|].
    unfold not_both_zero; apply negb_true_iff, andb_false_iff; exact Hz.
  - rewrite (dod_delta_two_dates pivot_df a b Hs Hab); cbn [rows].
    rewrite length_map; apply filter_length_le.
Qed.

Lemma delta_keeps_rows_in_order_witness :
  index (dod_delta Data.zero_compare_pivot) =
  [[Str "RU_last30_Days"; Str "RU1-5"]; [Str "DU_45+_Days"; Str "RU10+"]].
Proof.
  apply (delta_keeps_rows_in_order Data.zero_compare_pivot 1 8 eq_refl eq_refl eq_refl).
Defined.

(** ** The sign of the percentage change *)

Lemma rint_nonneg (q : Q) : (0 <= q)%Q -> 0 <= rint q.
Proof.
  intros H; unfold rint.
  assert (F : 0 <= Qfloor q).
  { change 0 with (Qfloor 0); apply Qfloor_resp_le; exact H. }
  destruct (Qcompare (q - inject_Z (Qfloor q)) (1 # 2)); try lia.
  destruct (Z.even (Qfloor q)); lia.
Qed.

Lemma rint_nonpos (q : Q) : (q <= 0)%Q -> rint q <= 0.
Proof.
  intros H; unfold rint.
  assert (F : Qfloor q <= 0).
  { change 0 with (Qfloor 0); apply Qfloor_resp_le; exact H. }
  destruct (Z.eq_dec (Qfloor q) 0) as [E|E].
  - rewrite E.
    assert (Hq : (q == 0)%Q).
    { apply Qle_antisym; [exact H|].
      pose proof (Qfloor_le q) as L; rewrite E in L; exact L. }
    assert (C : Qcompare (q - inject_Z 0) (1 # 2) = Lt).
    { apply Qlt_alt; rewrite Hq; reflexivity. }
    rewrite C; lia.
  - destruct (Qcompare (q - inject_Z (Qfloor q)) (1 # 2)); try lia.
    destruct (Z.even (Qfloor q)); lia.
Qed.

Lemma pow10_pos (d : nat) : (0 < pow10 d)%Q.
Proof.
  unfold pow10; change 0%Q with (inject_Z 0); rewrite <- Zlt_Qlt.
  apply Z.pow_pos_nonneg; lia.
Qed.

Lemma Qround_dec_nonneg (d : nat) (q : Q) : (0 <= q)%Q -> (0 <= Qround_dec d q)%Q.
Proof.
  intros H; unfold Qround_dec; rewrite Qred_correct.
  apply Qle_shift_div_l; [apply pow10_pos|].
  rewrite Qmult_0_l; change 0%Q with (inject_Z 0); rewrite <- Zle_Qle.
  apply rint_nonneg, Qmult_le_0_compat; [exact H|].
  apply Qlt_le_weak, pow10_pos.
Qed.

Lemma Qround_dec_nonpos (d : nat) (q : Q) : (q <= 0)%Q -> (Qround_dec d q <= 0)%Q.
Proof.
  intros H; unfold Qround_dec; rewrite Qred_correct.
  apply Qle_shift_div_r; [apply pow10_pos|].
  rewrite Qmult_0_l; change 0%Q with (inject_Z 0); rewrite <- Zle_Qle.
  apply rint_nonpos.
  setoid_replace 0%Q with (0 * pow10 d)%Q by ring.
  apply Qmult_le_compat_r; [exact H|].
  apply Qlt_le_weak, pow10_pos.
Qed.

Lemma pct_change_finite (s c : Q) :
  ~ (c == 0)%Q ->
  pct_change (Fin s) (Fin c) = Fin (Qround_dec 1 ((s - c) / c * 100)%Q).
Proof.
  intros Hc; unfold pct_change, sub, truediv.
  destruct (Qis_zero c) eqn:Z; [apply Qis_zero_iff in Z; contradiction|].
  unfold mul, hundred, of_Z, round; f_equal.
  apply Qround_dec_comp.
  rewrite !Qred_correct; reflexivity.
Qed.

(** X11.  Over a positive compare value the percentage change of the DoD
    and city views is a number whose sign follows the direction of the
    change: it is not negative when the selected value is not below the
    compare value, not positive when it is not above, and 0 when the two
    are equal.  The rounding to 1 decimal never turns the sign. *)
Theorem pct_change_sign (s c : Q) :
  (0 < c)%Q ->
  exists q, pct_change (Fin s) (Fin c) = Fin q /\
            ((c <= s)%Q -> (0 <= q)%Q) /\
            ((s <= c)%Q -> (q <= 0)%Q) /\
            ((s == c)%Q -> (q == 0)%Q).
Proof.
  intros Hc.
  assert (Hne : ~ (c == 0)%Q) by (intros E; rewrite E in Hc; discriminate).
  exists (Qround_dec 1 ((s - c) / c * 100)%Q).
  split; [apply pct_change_finite; exact Hne|].
  assert (Up : (c <= s)%Q -> (0 <= (s - c) / c * 100)%Q).
  { intros H; apply Qmult_le_0_compat; [|discriminate].
    apply Qle_shift_div_l; [exact Hc|].
    rewrite Qmult_0_l; unfold Qminus; rewrite <- Qle_minus_iff; exact H. }
  assert (Down : (s <= c)%Q -> ((s - c) / c * 100 <= 0)%Q).
  { intros H.
    setoid_replace ((s - c) / c * 100)%Q with (- ((c - s) / c * 100))%Q
      by (field; exact Hne).
    setoid_replace 0%Q with (- 0)%Q by reflexivity.
    apply Qopp_le_compat, Qmult_le_0_compat; [|discriminate].
    apply Qle_shift_div_l; [exact Hc|].
    rewrite Qmult_0_l; unfold Qminus; rewrite <- Qle_minus_iff; exact H. }
  split; [intros H; apply Qround_dec_nonneg, Up, H|].
  split; [intros H; apply Qround_dec_nonpos, Down, H|].
  intros E; apply Qle_antisym.
  - apply Qround_dec_nonpos, Down; rewrite E; apply Qle_refl.
  - apply Qround_dec_nonneg, Up; rewrite E; apply Qle_refl.
Qed.

Lemma pct_change_sign_witness :
  exists q, pct_change (Fin (1000 # 1)) (Fin (900 # 1)) = Fin q /\ (0 <= q)%Q.
Proof.
  destruct (pct_change_sign (1000 # 1) (900 # 1) eq_refl) as [q [E [Up _]]].
  exists q; split; [exact E|].
  apply Up; discriminate.
Defined.

(** ** The comparison table of the hourly view, key by key *)

Lemma align_rows_cells (pivot_sel pivot_cmp : DataFrame) :
  pivot_shape pivot_sel = true ->
  pivot_shape pivot_cmp = true ->
  index_names pivot_sel = index_names pivot_cmp ->
  let aligned := align_rows (Fin 0) pivot_sel pivot_cmp in
  (forall k, In k (index (fst aligned)) <->
             In k (index pivot_sel) \/ In k (index pivot_cmp)) /\
  (forall k c, In k (index pivot_cmp) -> ~ In k (index pivot_sel) ->
               In c (columns pivot_sel) -> cell_at (fst aligned) k c = Fin 0) /\
  (forall k c, In k (index pivot_sel) -> ~ In k (index pivot_cmp) ->
               In c (columns pivot_cmp) -> cell_at (snd aligned) k c = Fin 0) /\
  (forall k c, In k (index pivot_sel) ->
               cell_at (fst aligned) k c = cell_at pivot_sel k c) /\
  (forall k c, In k (index pivot_cmp) ->
               cell_at (snd aligned) k c = cell_at pivot_cmp k c).
Proof.
  intros Hs Hc Hn aligned.
  destruct (pivot_shape_inv pivot_sel Hs) as [Ds [Cs [Ks Ls]]].
  destruct (pivot_shape_inv pivot_cmp Hc) as [Dc [Cc [Kc Lc]]].
  unfold aligned, align_rows.
  destruct (keys_eqb (index pivot_sel) (index pivot_cmp)) eqn:E; simpl.
  - apply keys_eqb_eq in E; auto.
    rewrite <- E; repeat split; try tauto; intros; contradiction.
  - set (ks := join_outer (index pivot_sel) (index pivot_cmp)).
    assert (Hin : forall k, In k ks <-> In k (index pivot_sel) \/ In k (index pivot_cmp))
      by (intros k; apply join_outer_In; auto).
    assert (Oks : forall k, In k ks ->
                    categorical k = true /\
                    List.length k = List.length (index_names pivot_sel)).
    { intros k Hk; apply Hin in Hk; destruct Hk as [Hk|Hk]; auto.
      rewrite Hn; auto. }
    assert (Okc : forall k, In k ks ->
                    categorical k = true /\
                    List.length k = List.length (index_names pivot_cmp))
      by (intros k Hk; rewrite <- Hn; auto).
    rewrite !reindex_rows_index by auto.
    repeat split; try apply Hin.
    + intros k c Hk Hk' Hcol; apply reindex_rows_new; auto; apply Hin; auto.
    + intros k c Hk Hk' Hcol; apply reindex_rows_new; auto; apply Hin; auto.
    + intros k c Hk; apply reindex_rows_old; auto; apply Hin; auto.
    + intros k c Hk; apply reindex_rows_old; auto; apply Hin; auto.
Qed.

Lemma hourly_cell_vanished (object : bool) (q : Q) :
  ~ (q == 0)%Q -> hourly_cell object (Fin 0) (Fin q) = Fin (-100 # 1).
Proof.
  intros Hq.
  assert (E : ((0 - q) / q * 100 == -100 # 1)%Q) by (field; exact Hq).
  destruct object.
  - rewrite hourly_cell_object by exact Hq.
    f_equal; rewrite (Qred_complete _ _ E); reflexivity.
  - rewrite hourly_cell_float by exact Hq.
    f_equal; rewrite (Qround_dec_comp 1 _ _ E); reflexivity.
Qed.

Lemma hourly_pct_cell_vanished (q : Q) :
  ~ (q == 0)%Q -> hourly_pct_cell (Fin 0) (Fin q) = Fin (-100 # 1).
Proof. intros Hq; apply hourly_cell_vanished; exact Hq. Qed.

(** A column with a zero cell holds a zero. *)
Lemma holds_zero_cell_at (df : DataFrame) (k : key) (c : label) :
  eq_zero (cell_at df k c) = true -> holds_zero c df = true.
Proof.
  unfold cell_at, find_row, holds_zero.
  destruct (find _ (rows df)) as [r|] eqn:E; [|discriminate].
  intros H; apply find_some in E.
  apply existsb_exists; exists r; tauto.
Qed.

(** A missing value stays missing in a float column of the table. *)
Lemma hourly_cell_float_missing (sel cmp : cell) :
  is_nan sel = true \/ is_nan cmp = true -> hourly_cell false sel cmp = NaN.
Proof.
  intros [H|H].
  - destruct sel; try discriminate; destruct cmp as [| | |q]; try reflexivity.
  - destruct cmp; try discriminate; destruct sel; reflexivity.
Qed.

(** C4, as the code has it.  In the hourly view the alignment of the
    selected pivot and the compare pivot gives both the same index, the
    union of their keys; a key present in one pivot only gets 0 in every
    column of the pivot it was missing from, and the keys that a pivot had
    keep their cells.  The comparison table is computed from the aligned
    pivots: it has one row per key of either pivot, and in the row of a key
    of one pivot only the other side counts as 0.  For the three percentage
    metrics a key of the selected pivot only shows 0 (its compare value 0
    is guarded) and a key of the compare pivot only shows -100 wherever its
    compare value is a number other than 0; for [pct_disc_orders] the cell
    is the selected value, or minus the compare value.  (The DoD and city
    views align no pivots: they build one pivot over both dates, without a
    fill value.) *)
Theorem hourly_alignment_union_fill_zero (metric : string)
  (pivot_sel pivot_cmp : DataFrame) :
  pivot_shape pivot_sel = true ->
  pivot_shape pivot_cmp = true ->
  index_names pivot_sel = index_names pivot_cmp ->
  let aligned := align_rows (Fin 0) pivot_sel pivot_cmp in
  let out := hourly_pct_change metric pivot_sel pivot_cmp in
  index (fst aligned) = index (snd aligned) /\
  (forall k, In k (index (fst aligned)) <->
             In k (index pivot_sel) \/ In k (index pivot_cmp)) /\
  (forall k c, In k (index pivot_cmp) -> ~ In k (index pivot_sel) ->
               In c (columns pivot_sel) -> cell_at (fst aligned) k c = Fin 0) /\
  (forall k c, In k (index pivot_sel) -> ~ In k (index pivot_cmp) ->
               In c (columns pivot_cmp) -> cell_at (snd aligned) k c = Fin 0) /\
  (forall k c, In k (index pivot_sel) ->
               cell_at (fst aligned) k c = cell_at pivot_sel k c) /\
  (forall k c, In k (index pivot_cmp) ->
               cell_at (snd aligned) k c = cell_at pivot_cmp k c) /\
  (forall k, In k (index out) <-> In k (index pivot_sel) \/ In k (index pivot_cmp)) /\
  (forall k c, In c (columns pivot_sel) -> In c (columns pivot_cmp) ->
     (In k (index pivot_sel) -> ~ In k (index pivot_cmp) ->
      cell_at out k c =
      if String.eqb metric "pct_disc_orders"
      then hourly_pp_cell (cell_at pivot_sel k c) (Fin 0)
      else Fin 0) /\
     (~ In k (index pivot_sel) -> In k (index pivot_cmp) ->
      (String.eqb metric "pct_disc_orders" = true ->
       cell_at out k c = hourly_pp_cell (Fin 0) (cell_at pivot_cmp k c)) /\
      (String.eqb metric "pct_disc_orders" = false ->
       forall q, cell_at pivot_cmp k c = Fin q -> ~ (q == 0)%Q ->
                 cell_at out k c = Fin (-100 # 1)))).
Proof.
  intros Hs Hc Hn aligned out.
  destruct (hourly_pct_change_cells metric pivot_sel pivot_cmp Hs Hc Hn) as [Hi Hcell].
  destruct (align_rows_cells pivot_sel pivot_cmp Hs Hc Hn)
    as [Hin [Nsel [Ncmp [Osel Ocmp]]]].
  destruct (align_rows_shape pivot_sel pivot_cmp Hs Hc Hn) as [_ [_ [_ [_ [Iab _]]]]].
  fold out in Hi, Hcell; fold aligned in Hi, Hcell, Hin, Nsel, Ncmp, Osel, Ocmp, Iab.
  cbv zeta in Hin, Nsel, Ncmp, Osel, Ocmp, Iab.
  split; [symmetry; exact Iab|].
  split; [exact Hin|].
  split; [exact Nsel|].
  split; [exact Ncmp|].
  split; [exact Osel|].
  split; [exact Ocmp|].
  split; [intros k; rewrite Hi; apply Hin|].
  intros k c C1 C2; split.
  - intros K1 K2; rewrite Hcell by (auto; apply Hin; auto).
    rewrite Osel by auto.
    assert (Z : cell_at (snd aligned) k c = Fin 0) by (apply Ncmp; auto).
    destruct (String.eqb metric "pct_disc_orders"); rewrite Z; [reflexivity|].
    rewrite (holds_zero_cell_at (snd aligned) k c) by (rewrite Z; reflexivity).
    apply hourly_cell_zero_compare; reflexivity.
  - intros K1 K2; split; intros Hm.
    + rewrite Hcell by (auto; apply Hin; auto).
      rewrite Hm, Nsel, Ocmp by auto; reflexivity.
    + intros q Hq Hne; rewrite Hcell by (auto; apply Hin; auto).
      rewrite Hm, Nsel, Ocmp, Hq by auto.
      apply hourly_cell_vanished; exact Hne.
Qed.

Lemma hourly_alignment_union_fill_zero_witness :
  let out := hourly_pct_change "dpo_fc" Data.hourly_compare Data.hourly_selected in
  index out = [[Str "NU"; Str "New Users"]; [Str "RU_last30_Days"; Str "RU1-5"]] /\
  cell_at Data.hourly_selected [Str "RU_last30_Days"; Str "RU1-5"] (Col 10)
  = Fin (4 # 1) /\
  cell_at out [Str "RU_last30_Days"; Str "RU1-5"] (Col 10) = Fin (-100 # 1).
Proof.
  intros out; split; [reflexivity|]; split; [reflexivity|].
  destruct (hourly_alignment_union_fill_zero "dpo_fc" Data.hourly_compare
              Data.hourly_selected eq_refl eq_refl eq_refl)
    as [_ [_ [_ [_ [_ [_ [_ H]]]]]]].
  destruct (H [Str "RU_last30_Days"; Str "RU1-5"] (Col 10)) as [_ H2];
    [simpl; auto|simpl; auto|].
  destruct H2 as [_ H3].
  - simpl; intros [E|[]]; discriminate.
  - simpl; auto.
  - apply (H3 eq_refl (4 # 1)); [reflexivity|discriminate].
Defined.

(** X12.  A cell of the hourly comparison table for a key of both pivots
    is computed from the two cells of the pivots.  For the three percentage
    metrics, a compare value 0 gives 0; in a column whose aligned compare
    values hold a 0 the cell is (selected - compare) / compare * 100 as
    computed, not rounded, and 0 when it would be missing or infinite; in a
    column without a 0 a missing selected or compare value gives a missing
    cell.  For [pct_disc_orders] a missing value gives a missing cell
    too. *)
Theorem hourly_table_cells (metric : string) (pivot_sel pivot_cmp : DataFrame)
  (k : key) (c : label) :
  pivot_shape pivot_sel = true ->
  pivot_shape pivot_cmp = true ->
  index_names pivot_sel = index_names pivot_cmp ->
  In c (columns pivot_sel) -> In c (columns pivot_cmp) ->
  In k (index pivot_sel) -> In k (index pivot_cmp) ->
  let out := hourly_pct_change metric pivot_sel pivot_cmp in
  let object := holds_zero c (snd (align_rows (Fin 0) pivot_sel pivot_cmp)) in
  let sel := cell_at pivot_sel k c in
  let cmp := cell_at pivot_cmp k c in
  (String.eqb metric "pct_disc_orders" = false ->
   (eq_zero cmp = true -> cell_at out k c = Fin 0) /\
   (object = true ->
    cell_at out k c =
    replace_NA_inf_zero (mul (truediv (sub sel cmp) (replace_zero_NA cmp)) hundred)) /\
   (object = false -> is_nan sel = true \/ is_nan cmp = true ->
    cell_at out k c = NaN)) /\
  (String.eqb metric "pct_disc_orders" = true ->
   is_nan sel = true \/ is_nan cmp = true -> cell_at out k c = NaN).
Proof.
  intros Hs Hc Hn C1 C2 K1 K2 out object sel cmp.
  destruct (hourly_pct_change_cells metric pivot_sel pivot_cmp Hs Hc Hn) as [_ Hcell].
  destruct (align_rows_cells pivot_sel pivot_cmp Hs Hc Hn)
    as [Hin [_ [_ [Osel Ocmp]]]].
  cbv zeta in Hin, Osel, Ocmp, Hcell.
  assert (E : cell_at out k c =
              (if String.eqb metric "pct_disc_orders" then hourly_pp_cell
               else hourly_cell object) sel cmp).
  { unfold out; rewrite Hcell by (auto; apply Hin; auto).
    rewrite Osel, Ocmp by auto; reflexivity. }
  split; intros Hm; rewrite Hm in E.
  - split; [|split].
    + intros Z.
      assert (O : object = true).
      { apply (holds_zero_cell_at _ k c); rewrite Ocmp by auto; exact Z. }
      rewrite E, O; apply hourly_cell_zero_compare; exact Z.
    + intros O; rewrite E, O; reflexivity.
    + intros O N; rewrite E, O; apply hourly_cell_float_missing; exact N.
  - intros N; rewrite E; unfold hourly_pp_cell.
    destruct N as [N|N].
    + destruct sel; try discriminate; destruct cmp; reflexivity.
    + destruct cmp; try discriminate; destruct sel; reflexivity.
Qed.

Lemma hourly_table_cells_witness :
  let out := hourly_pct_change "dpo_fc" Data.hourly_selected Data.hourly_compare in
  cell_at out [Str "NU"; Str "New Users"] (Col 10) = Fin 0.
Proof.
  intros out.
  assert (C1 : In (Col 10) (columns Data.hourly_selected)) by (simpl; auto).
  assert (C2 : In (Col 10) (columns Data.hourly_compare)) by (simpl; auto).
  assert (K1 : In [Str "NU"; Str "New Users"] (index Data.hourly_selected))
    by (simpl; auto).
  assert (K2 : In [Str "NU"; Str "New Users"] (index Data.hourly_compare))
    by (simpl; auto).
  destruct (hourly_table_cells "dpo_fc" Data.hourly_selected Data.hourly_compare
              [Str "NU"; Str "New Users"] (Col 10) eq_refl eq_refl eq_refl
              C1 C2 K1 K2) as [H _].
  destruct (H eq_refl) as [Z _].
  apply Z; reflexivity.
Defined.

Lemma on_date_iff (r : Row) (d : Z) :
  value_eqb (match lookup (Name "start_date") r with
             | Some v => v
             | None => Num NaN
             end) (Ord d) = true <->
  lookup (Name "start_date") r = Some (Ord d).
Proof.
  destruct (lookup (Name "start_date") r) as [[s|z|c]|]; simpl;
    split; intros H; try discriminate.
  - apply Z.eqb_eq in H; subst; reflexivity.
  - inversion H; apply Z.eqb_refl.
Qed.

Lemma hourly_pivot_None (argsort : list Z -> list nat) (metric : string) (d : Z)
  (df : DataFrame) :
  hourly_pivot argsort metric d df = None <->
  forall r, In r (rows df) -> lookup (Name "start_date") r <> Some (Ord d).
Proof.
  unfold hourly_pivot; cbv zeta; unfold filter_rows; cbn [rows].
  set (p := fun r : Row => value_eqb _ (Ord d)).
  destruct (filter p (rows df)) as [|r0 l] eqn:E; split; intros H; auto.
  - intros r Hr Hd.
    assert (Hin : In r (filter p (rows df)))
      by (apply filter_In; split; [exact Hr|apply on_date_iff; exact Hd]).
    rewrite E in Hin; contradiction.
  - discriminate.
  - exfalso.
    assert (Hin : In r0 (filter p (rows df))) by (rewrite E; left; reflexivity).
    apply filter_In in Hin; destruct Hin as [Hr Hp].
    apply (H r0 Hr), on_date_iff; exact Hp.
Qed.

(** X13.  The hourly view builds its comparison table only when the data
    has rows for both dates: there is no table exactly when no row has the
    selected date or no row has the compare date. *)
Theorem hourly_view_needs_both_dates (argsort : list Z -> list nat) (metric : string)
  (selected_date compare_date : Z) (df : DataFrame) :
  hourly_view argsort metric selected_date compare_date df = None <->
  (forall r, In r (rows df) ->
             lookup (Name "start_date") r <> Some (Ord selected_date)) \/
  (forall r, In r (rows df) ->
             lookup (Name "start_date") r <> Some (Ord compare_date)).
Proof.
  unfold hourly_view.
  rewrite <- !(hourly_pivot_None argsort metric).
  destruct (hourly_pivot argsort metric selected_date df),
           (hourly_pivot argsort metric compare_date df);
    split; intros H; auto; try discriminate; destruct H; discriminate.
Qed.

(** ** The colours of the hourly comparison table *)

(** X14.  The colour of a cell of the hourly comparison table never goes
    against the direction of the change.  For the three percentage metrics
    a cell whose compare value is 0 or missing is not coloured, and over a
    positive compare value a green cell means that the selected value is
    above the compare value and a red cell that it is below, in an object
    column and in a float column alike.  For [pct_disc_orders] the cell of
    two numbers is green exactly when the selected value is above the
    compare value and red exactly when it is below, also over a compare
    value 0. *)
Theorem style_pct_follows_change (object : bool) (sel cmp : cell) :
  (eq_zero cmp = true -> object = true) ->
  (eq_zero cmp = true \/ is_nan cmp = true ->
   style_pct (hourly_cell object sel cmp) = ""%string) /\
  (forall s c, sel = Fin s -> cmp = Fin c -> (0 < c)%Q ->
     (style_pct (hourly_cell object sel cmp) = "background-color: #69db7c"%string ->
      (c < s)%Q) /\
     (style_pct (hourly_cell object sel cmp) = "background-color: #ff6b6b"%string ->
      (s < c)%Q)) /\
  (forall s c, sel = Fin s -> cmp = Fin c ->
     (style_pct (hourly_pp_cell sel cmp) = "background-color: #69db7c"%string <->
      (c < s)%Q) /\
     (style_pct (hourly_pp_cell sel cmp) = "background-color: #ff6b6b"%string <->
      (s < c)%Q)).
Proof.
  intros Hobj; split; [|split].
  - intros [H|H].
    + rewrite (Hobj H), hourly_cell_zero_compare by exact H; reflexivity.
    + destruct cmp; try discriminate.
      destruct object, sel; reflexivity.
  - intros s c -> -> Hc.
    assert (Hne : ~ (c == 0)%Q) by (intros E; rewrite E in Hc; discriminate).
    set (x := ((s - c) / c * 100)%Q).
    assert (Up : (c <= s)%Q -> (0 <= x)%Q).
    { intros H; apply Qmult_le_0_compat; [|discriminate].
      apply Qle_shift_div_l; [exact Hc|].
      rewrite Qmult_0_l; unfold Qminus; rewrite <- Qle_minus_iff; exact H. }
    assert (Down : (s <= c)%Q -> (x <= 0)%Q).
    { intros H; unfold x.
      setoid_replace ((s - c) / c * 100)%Q with (- ((c - s) / c * 100))%Q
        by (field; exact Hne).
      setoid_replace 0%Q with (- 0)%Q by reflexivity.
      apply Qopp_le_compat, Qmult_le_0_compat; [|discriminate].
      apply Qle_shift_div_l; [exact Hc|].
      rewrite Qmult_0_l; unfold Qminus; rewrite <- Qle_minus_iff; exact H. }
    assert (Sign : forall y, (0 <= x -> 0 <= y)%Q -> (x <= 0 -> y <= 0)%Q ->
              (style_pct (Fin y) = "background-color: #69db7c"%string -> (c < s)%Q) /\
              (style_pct (Fin y) = "background-color: #ff6b6b"%string -> (s < c)%Q)).
    { intros y Pos Neg; unfold style_pct.
      destruct (Qcompare y 0) eqn:E; split; intros H; try discriminate.
      - apply Qnot_le_lt; intros L.
        apply Qlt_alt in E.
        apply (Qlt_not_le _ _ E), Pos, Up, L.
      - apply Qnot_le_lt; intros L.
        apply Qgt_alt in E.
        apply (Qlt_not_le _ _ E), Neg, Down, L. }
    destruct object.
    + rewrite hourly_cell_object by exact Hne; fold x.
      apply Sign; rewrite Qred_correct; auto.
    + rewrite hourly_cell_float by exact Hne; fold x.
      apply Sign; [apply Qround_dec_nonneg|apply Qround_dec_nonpos].
  - intros s c -> ->.
    unfold hourly_pp_cell, sub, replace_inf_zero, style_pct.
    assert (E : Qcompare (Qred (s - c)) 0 = Qcompare s c).
    { rewrite (Qcompare_comp _ _ (Qred_correct (s - c)) _ _ (Qeq_refl 0)).
      destruct (Qcompare s c) eqn:C.
      - apply Qeq_alt in C; apply Qeq_alt; rewrite C; ring.
      - apply Qlt_alt in C; apply Qlt_alt.
        apply (Qplus_lt_l _ _ c); ring_simplify; exact C.
      - apply Qgt_alt in C; apply Qgt_alt.
        apply (Qplus_lt_l _ _ c); ring_simplify; exact C. }
    rewrite E.
    destruct (Qcompare s c) eqn:C; split; split; intros H; try discriminate;
      try reflexivity.
    + apply Qeq_alt in C; rewrite C in H; exfalso; apply (Qlt_irrefl _ H).
    + apply Qeq_alt in C; rewrite C in H; exfalso; apply (Qlt_irrefl _ H).
    + apply Qlt_alt in C; exfalso; apply (Qlt_irrefl _ (Qlt_trans _ _ _ C H)).
    + apply Qlt_alt; exact C.
    + apply Qgt_alt; exact C.
    + apply Qgt_alt in C; exfalso; apply (Qlt_irrefl _ (Qlt_trans _ _ _ C H)).
Qed.

Lemma style_pct_follows_change_witness :
  style_pct (hourly_cell true (of_Z 5) (of_Z 0)) = ""%string /\
  style_pct (hourly_pp_cell (Fin (1 # 4)) (Fin 0)) = "background-color: #69db7c"%string.
Proof.
  split; [|reflexivity].
  apply (style_pct_follows_change true (of_Z 5) (of_Z 0) (fun _ => eq_refl)).
  left; reflexivity.
Defined.

(** ** The guarded and the unguarded metrics *)



Lemma div_finite_or_missing (a b : cell) :
  is_finite a = true -> is_finite b = true ->
  let v := truediv a (replace_zero_NA b) in
  is_nan v = true \/ is_finite v = true.
Proof.
  destruct a as [| | |p], b as [| | |q]; try discriminate; intros _ _.
  unfold replace_zero_NA, eq_zero; cbv zeta.
  destruct (Qis_zero q) eqn:E; [left; reflexivity|].
  right; unfold truediv; rewrite E; reflexivity.
Qed.





(** X16.  On data without a zero denominator the guarded calculator of the
    weekly chart view and the unguarded calculator of the DoD view give the
    same table: the replacement of 0 by a missing value is the only
    difference between the two. *)
Theorem weekly_metrics_eq_dod_metrics (df : DataFrame) :
  (forall r, In r (rows df) ->
     eq_zero (num (Name "visitors") r) = false /\
     eq_zero (num (Name "base") r) = false /\
     eq_zero (num (Name "transacting_users") r) = false) ->
  weekly_metrics df = dod_metrics df.
Proof.
  intros H; unfold weekly_metrics, dod_metrics.
  rewrite !holds_zero_false by (intros r Hr; apply (H r Hr)).
  reflexivity.
Qed.

Lemma weekly_metrics_eq_dod_metrics_witness :
  weekly_metrics Data.two_cohorts = dod_metrics Data.two_cohorts.
Proof.
  apply (weekly_metrics_eq_dod_metrics Data.two_cohorts).
  intros r Hr; simpl in Hr.
  destruct Hr as [<-|[<-|[]]]; repeat split; reflexivity.
Defined.

(** ** The two weeks of [fetch_weekly_data] *)

Lemma weekday_bounds (d : Z) : 0 <= weekday d < 7.
Proof.
  unfold weekday; apply Z.mod_pos_bound; lia.
Qed.

Lemma weekday_shift (d : Z) : weekday (d - 7) = weekday d.
Proof.
  unfold weekday.
  replace (d - 7 + 6) with (d + 6 + (-1) * 7) by lia.
  apply Z_mod_plus_full.
Qed.

(** X17.  [current_monday] is the Monday of the week of the selected date:
    its weekday is 0 and it is at most 6 days before the selected date, so
    the current window holds between 1 and 7 days. *)
Theorem current_monday_is_monday (selected_date : Z) :
  weekday (current_monday selected_date) = 0 /\
  current_monday selected_date <= selected_date <= current_monday selected_date + 6 /\
  1 <= days_to_include selected_date <= 7 /\
  (weekday selected_date = 0 -> current_monday selected_date = selected_date).
Proof.
  pose proof (weekday_bounds selected_date) as B.
  unfold current_monday, days_to_include, current_monday.
  split; [|split; [lia|split; lia]].
  unfold weekday in *.
  pose proof (Z.div_mod (selected_date + 6) 7 ltac:(lia)) as E.
  replace (selected_date - (selected_date + 6) mod 7 + 6)
    with (0 + ((selected_date + 6) / 7) * 7) by lia.
  rewrite Z_mod_plus_full; reflexivity.
Qed.

(** X18.  The previous window of [fetch_weekly_data] is the current window
    moved back by 7 days: it runs from the Monday of the week before to the
    day 7 days before the selected date, it has as many days as the current
    window, and it ends before the current Monday, so no date is in both
    windows. *)
Theorem previous_week_is_current_week_shifted (selected_date : Z) :
  prev_week_monday selected_date = current_monday (selected_date - 7) /\
  prev_week_end selected_date = selected_date - 7 /\
  prev_week_end selected_date - prev_week_monday selected_date =
    selected_date - current_monday selected_date /\
  prev_week_end selected_date < current_monday selected_date /\
  (forall d, in_previous_week selected_date d = in_current_week selected_date (d + 7)) /\
  (forall d, in_current_week selected_date d && in_previous_week selected_date d = false).
Proof.
  pose proof (weekday_bounds selected_date) as B.
  pose proof (weekday_shift selected_date) as S.
  unfold in_previous_week, in_current_week, between,
    prev_week_end, prev_week_monday, days_to_include, current_monday in *.
  rewrite S.
  split; [lia|]; split; [lia|]; split; [lia|]; split; [lia|]; split.
  - intros d.
    destruct (Z.leb_spec (selected_date - weekday selected_date - 7) d),
             (Z.leb_spec (selected_date - weekday selected_date) (d + 7)),
             (Z.leb_spec d (selected_date - weekday selected_date - 7 +
                            (selected_date - (selected_date - weekday selected_date)
                             + 1 - 1))),
             (Z.leb_spec (d + 7) selected_date); simpl; auto; lia.
  - intros d.
    destruct (Z.leb_spec (selected_date - weekday selected_date - 7) d),
             (Z.leb_spec (selected_date - weekday selected_date) d),
             (Z.leb_spec d (selected_date - weekday selected_date - 7 +
                            (selected_date - (selected_date - weekday selected_date)
                             + 1 - 1))),
             (Z.leb_spec d selected_date); simpl; auto; lia.
Qed.

(** X19.  The chart splits the rows by one comparison with
    [current_monday].  On the dates that the query of [fetch_weekly_data]
    selects this is the split into the two windows: a fetched row is in the
    current week of the chart exactly when its date is in the current
    window, and in the previous week exactly when it is in the previous
    window. *)
Theorem chart_weeks_are_the_fetched_windows (selected_date : Z) (r : Row) (d : Z) :
  column_key (Name "start_date") r = Some d ->
  weekly_where selected_date d = true ->
  in_week Current (current_monday selected_date) r = in_current_week selected_date d /\
  in_week Previous (current_monday selected_date) r = in_previous_week selected_date d.
Proof.
  intros Hd Hw; unfold in_week; rewrite Hd.
  pose proof (weekday_bounds selected_date) as B.
  unfold weekly_where, in_previous_week, in_current_week, between,
    prev_week_end, prev_week_monday, days_to_include, current_monday in *.
  destruct (Z.leb_spec (selected_date - weekday selected_date - 7) d),
           (Z.leb_spec (selected_date - weekday selected_date) d),
           (Z.ltb_spec d (selected_date - weekday selected_date)),
           (Z.leb_spec d (selected_date - weekday selected_date - 7 +
                          (selected_date - (selected_date - weekday selected_date)
                           + 1 - 1))),
           (Z.leb_spec d selected_date);
    simpl in *; auto; try discriminate; try lia.
Qed.

Lemma chart_weeks_are_the_fetched_windows_witness :
  in_week Current (current_monday 737999)
    (Data.daily "DU_30_45_Days" "RU1-5" 737991 10 5 2 3) =
  in_current_week 737999 737991 /\
  in_week Previous (current_monday 737999)
    (Data.daily "DU_30_45_Days" "RU1-5" 737991 10 5 2 3) =
  in_previous_week 737999 737991.
Proof.
  apply (chart_weeks_are_the_fetched_windows 737999
           (Data.daily "DU_30_45_Days" "RU1-5" 737991 10 5 2 3) 737991);
    reflexivity.
Defined.

(** ** The traces of the weekly chart *)

Lemma In_date_range (lo hi d : Z) : In d (date_range lo hi) <-> lo <= d <= hi.
Proof.
  unfold date_range; rewrite in_map_iff; split.
  - intros [i [<- Hi]]; apply in_seq in Hi; lia.
  - intros H; exists (Z.to_nat (d - lo)); split; [lia|].
    apply in_seq; lia.
Qed.

Lemma fold_min_le (ds : list Z) (d : Z) :
  fold_left Z.min ds d <= d /\ forall e, In e ds -> fold_left Z.min ds d <= e.
Proof.
  revert d; induction ds as [|a ds IH]; intros d; simpl.
  - split; [lia|intros e []].
  - destruct (IH (Z.min d a)) as [H1 H2]; split; [lia|].
    intros e [<-|He]; [lia|auto].
Qed.

Lemma fold_max_ge (ds : list Z) (d : Z) :
  d <= fold_left Z.max ds d /\ forall e, In e ds -> e <= fold_left Z.max ds d.
Proof.
  revert d; induction ds as [|a ds IH]; intros d; simpl.
  - split; [lia|intros e []].
  - destruct (IH (Z.max d a)) as [H1 H2]; split; [lia|].
    intros e [<-|He]; [lia|auto].
Qed.

Lemma dates_of_In (l : list Row) (r : Row) (d : Z) :
  In r l -> column_key (Name "start_date") r = Some d -> In d (dates_of l).
Proof.
  intros Hr Hd; unfold dates_of; apply in_flat_map.
  exists r; split; [exact Hr|]; rewrite Hd; left; reflexivity.
Qed.

Lemma all_dates_cover (l : list Row) (ds : list Z) :
  all_dates l = Some ds ->
  exists lo hi, ds = date_range lo hi /\ lo <= hi /\
    forall r d, In r l -> column_key (Name "start_date") r = Some d -> lo <= d <= hi.
Proof.
  unfold all_dates; intros H.
  destruct (dates_of l) as [|d0 rest] eqn:E; [discriminate|].
  inversion H; subst; clear H.
  destruct (fold_min_le rest d0) as [L1 L2], (fold_max_ge rest d0) as [U1 U2].
  exists (fold_left Z.min rest d0), (fold_left Z.max rest d0).
  split; [reflexivity|]; split; [lia|].
  intros r d Hr Hd.
  pose proof (dates_of_In l r d Hr Hd) as Hin; rewrite E in Hin.
  destruct Hin as [<-|Hin]; [lia|].
  split; [apply L2|apply U2]; exact Hin.
Qed.

Lemma filter_none {A : Type} (p : A -> bool) (l : list A) :
  (forall a, In a l -> p a = false) -> filter p l = [].
Proof.
  induction l as [|a l IH]; simpl; intros H; auto.
  rewrite (H a) by auto; apply IH; auto.
Qed.

Lemma point_other_week (metric : string) (w : week) (monday : Z) (cat : value)
  (l : list Row) (d : Z) :
  match w with Current => d < monday | Previous => monday <= d end ->
  point metric (filter (same_category cat) (filter (in_week w monday) l)) d = NaN.
Proof.
  intros Hd; unfold point; rewrite filter_none; [reflexivity|].
  intros r Hr; apply filter_In in Hr; destruct Hr as [Hr _].
  apply filter_In in Hr; destruct Hr as [_ Hw].
  unfold in_week in Hw; unfold on_date.
  destruct (column_key (Name "start_date") r) as [d'|]; [|reflexivity].
  destruct w; [apply Z.leb_le in Hw|apply Z.ltb_lt in Hw]; apply Z.eqb_neq; lia.
Qed.

Lemma week_traces_In (metric : string) (w : week) (monday : Z) (ds : list Z)
  (l : list Row) (t : trace) :
  In t (week_traces metric w monday ds l) ->
  exists cat,
    In cat (map category_of (filter (in_week w monday) l)) /\
    t = {| name := (cat, w);
           x := ds;
           y := map (point metric
                       (filter (same_category cat) (filter (in_week w monday) l)))
                  ds |}.
Proof.
  unfold week_traces; cbv zeta; intros H.
  apply in_map_iff in H; destruct H as [cat [<- Hc]].
  exists cat; split; [eapply dedup_In; eauto|reflexivity].
Qed.

Lemma weekly_chart_In (metric : string) (monday : Z) (df : DataFrame)
  (ts : list trace) (t : trace) :
  weekly_chart metric monday df = Some ts -> In t ts ->
  exists ds w cat,
    all_dates (metric_rows metric df) = Some ds /\
    In cat (map category_of (filter (in_week w monday) (metric_rows metric df))) /\
    t = {| name := (cat, w);
           x := ds;
           y := map (point metric
                       (filter (same_category cat)
                          (filter (in_week w monday) (metric_rows metric df))))
                  ds |}.
Proof.
  unfold weekly_chart; cbv zeta; intros H Ht.
  destruct (all_dates (metric_rows metric df)) as [ds|] eqn:E; [|discriminate].
  inversion H; subst; clear H.
  apply in_app_or in Ht; destruct Ht as [Ht|Ht];
    apply week_traces_In in Ht; destruct Ht as [cat [Hc ->]].
  - exists ds, Current, cat; auto.
  - exists ds, Previous, cat; auto.
Qed.

(** X20.  All the traces of a figure of the weekly chart have the same
    points in time: every day from the first to the last date of the rows
    of the metric, previous week and current week in one range.  A trace
    of the current week is missing on every day before the current Monday
    and a trace of the previous week on every day from the current Monday
    on: the two lines of a category lie one after the other on the axis,
    never one over the other. *)
Theorem chart_traces_share_dates (metric : string) (monday : Z) (df : DataFrame)
  (ts : list trace) :
  weekly_chart metric monday df = Some ts ->
  exists lo hi,
    lo <= hi /\
    (forall r d, In r (metric_rows metric df) ->
                 column_key (Name "start_date") r = Some d -> lo <= d <= hi) /\
    (forall t, In t ts ->
       x t = date_range lo hi /\
       List.length (y t) = List.length (x t) /\
       forall i d, nth_error (x t) i = Some d ->
         (snd (name t) = Current -> d < monday -> nth_error (y t) i = Some NaN) /\
         (snd (name t) = Previous -> monday <= d -> nth_error (y t) i = Some NaN)).
Proof.
  intros H.
  assert (Hd : exists ds, all_dates (metric_rows metric df) = Some ds).
  { unfold weekly_chart in H; cbv zeta in H.
    destruct (all_dates (metric_rows metric df)) as [ds|]; [eauto|discriminate]. }
  destruct Hd as [ds Hds].
  destruct (all_dates_cover _ _ Hds) as [lo [hi [-> [Hle Hcov]]]].
  exists lo, hi; split; [exact Hle|]; split; [exact Hcov|].
  intros t Ht.
  destruct (weekly_chart_In metric monday df ts t H Ht) as [ds' [w [cat [E [_ ->]]]]].
  rewrite Hds in E; inversion E; subst ds'; cbn [x y name snd].
  split; [reflexivity|]; split; [apply length_map|].
  intros i d Hi; rewrite nth_error_map, Hi; simpl.
  split; intros -> Hlt; f_equal.
  - apply (point_other_week metric Current); exact Hlt.
  - apply (point_other_week metric Previous); exact Hlt.
Qed.

Lemma chart_traces_share_dates_witness :
  exists lo hi,
    lo <= hi /\
    (forall r d, In r (metric_rows "base" (weekly_metrics (rename_categories Weeks.two_weeks))) ->
                 column_key (Name "start_date") r = Some d -> lo <= d <= hi) /\
    (forall t, In t Weeks.base_traces ->
       x t = date_range lo hi /\
       List.length (y t) = List.length (x t) /\
       forall i d, nth_error (x t) i = Some d ->
         (snd (name t) = Current -> d < current_monday 737999 ->
          nth_error (y t) i = Some NaN) /\
         (snd (name t) = Previous -> current_monday 737999 <= d ->
          nth_error (y t) i = Some NaN)).
Proof.
  apply (chart_traces_share_dates "base" (current_monday 737999)
           (weekly_metrics (rename_categories Weeks.two_weeks))).
  reflexivity.
Defined.

Lemma category_of_metric_row (metric : string) (df : DataFrame) (r : Row) :
  In r (metric_rows metric df) ->
  In r (rows df) /\
  category_of r <> Str "Unassigned" /\
  (String.eqb metric "vu_pct" = true -> category_of r <> Str "NU").
Proof.
  unfold metric_rows; destruct (String.eqb metric "vu_pct"); intros H;
    apply filter_In in H; destruct H as [Hr Hp]; split; auto.
  - unfold category_of.
    destruct (lookup (Name "category") r) as [[c| |]|] eqn:Hc;
      try (split; intros; discriminate).
    destruct (engaged_category r c Hp Hc) as [N1 N2].
    split; [|intros _]; intros E; inversion E; subst; tauto.
  - split; [|discriminate].
    unfold not_unassigned in Hp; apply negb_true_iff in Hp.
    intros E; rewrite E in Hp; discriminate.
Qed.

Lemma NoDup_map_pair {A B : Type} (b : B) (l : list A) :
  NoDup l -> NoDup (map (fun a => (a, b)) l).
Proof.
  intros H; apply NoDup_map_injective; auto.
  intros p q E; inversion E; reflexivity.
Qed.

Lemma week_traces_names (metric : string) (w : week) (monday : Z) (ds : list Z)
  (l : list Row) :
  map name (week_traces metric w monday ds l) =
  map (fun cat => (cat, w))
    (dedup value_eqb (map category_of (filter (in_week w monday) l))).
Proof.
  unfold week_traces; cbv zeta; rewrite map_map; reflexivity.
Qed.

Lemma trace_category (metric : string) (monday : Z) (df : DataFrame)
  (ts : list trace) (t : trace) :
  weekly_chart metric monday df = Some ts -> In t ts ->
  (exists r, In r (rows df) /\ category_of r = fst (name t)) /\
  fst (name t) <> Str "Unassigned" /\
  (metric = "vu_pct"%string -> fst (name t) <> Str "NU").
Proof.
  intros H Ht.
  destruct (weekly_chart_In metric monday df ts t H Ht) as [ds [w [cat [_ [Hc ->]]]]].
  cbn [name fst].
  apply in_map_iff in Hc; destruct Hc as [r [<- Hr]].
  apply filter_In in Hr; destruct Hr as [Hr _].
  destruct (category_of_metric_row metric df r Hr) as [Hin [N1 N2]].
  split; [exists r; auto|]; split; [exact N1|].
  intros ->; apply N2; reflexivity.
Qed.

(** X21.  A figure of the weekly chart has at most one trace for a
    category and a week, and every trace is the trace of the category of a
    row of the data.  No trace is the trace of the category Unassigned,
    and in the figure of [vu_pct] none is the trace of NU. *)
Theorem chart_trace_names (metric : string) (monday : Z) (df : DataFrame)
  (ts : list trace) :
  weekly_chart metric monday df = Some ts ->
  NoDup (map name ts) /\
  forall t, In t ts ->
    (exists r, In r (rows df) /\ category_of r = fst (name t)) /\
    fst (name t) <> Str "Unassigned" /\
    (metric = "vu_pct"%string -> fst (name t) <> Str "NU").
Proof.
  intros H; split.
  - unfold weekly_chart in H; cbv zeta in H.
    destruct (all_dates (metric_rows metric df)) as [ds|]; [|discriminate].
    inversion H; subst; clear H.
    rewrite map_app, !week_traces_names.
    apply NoDup_app.
    + apply NoDup_map_pair, dedup_NoDup, value_eqb_refl.
    + apply NoDup_map_pair, dedup_NoDup, value_eqb_refl.
    + intros a Ha Hb; apply in_map_iff in Ha, Hb.
      destruct Ha as [c [<- _]], Hb as [c' [E _]]; discriminate.
  - intros t Ht; exact (trace_category metric monday df ts t H Ht).
Qed.

Lemma chart_trace_names_witness :
  NoDup (map name Weeks.base_traces).
Proof.
  apply (chart_trace_names "base" (current_monday 737999)
           (weekly_metrics (rename_categories Weeks.two_weeks))).
  reflexivity.
Defined.

Lemma replace_category_renamed (v : value) :
  ~ In (replace_category v)
      [Str "DU_30_45_Days"; Str "DU_45+_Days"; Str "RU_last30_Days"].
Proof.
  destruct v as [c| |]; cbv [replace_category category_map dict_get];
    try (intros [E|[E|[E|[]]]]; discriminate).
  destruct (String.eqb "DU_30_45_Days" c) eqn:E1;
    [intros [E|[E|[E|[]]]]; discriminate|].
  destruct (String.eqb "DU_45+_Days" c) eqn:E2;
    [intros [E|[E|[E|[]]]]; discriminate|].
  destruct (String.eqb "RU_last30_Days" c) eqn:E3;
    [intros [E|[E|[E|[]]]]; discriminate|].
  apply String.eqb_neq in E1, E2, E3.
  destruct (String.eqb "NU" c);
    intros [E|[E|[E|[]]]]; inversion E; subst; congruence.
Qed.

Lemma category_of_chart_row (df : DataFrame) (r : Row) :
  In r (rows (weekly_metrics (rename_categories df))) ->
  exists r0, In r0 (rows df) /\ category_of r = replace_category (category_of r0).
Proof.
  unfold weekly_metrics, rename_categories, set_column; simpl; rewrite !map_map.
  intros H; apply in_map_iff in H; destruct H as [r0 [<- Hr0]].
  exists r0; split; [exact Hr0|].
  unfold category_of at 1; rewrite !lookup_set_value; simpl; reflexivity.
Qed.

(** A figure that the loop draws is the figure of its metric. *)
Lemma figures_find (ms : list string) (monday : Z) (df : DataFrame)
  (metric : string) (ts : list trace) :
  option_map snd (find (fun f => String.eqb (fst f) metric) (figures ms monday df))
  = Some ts ->
  weekly_chart metric monday df = Some ts.
Proof.
  induction ms as [|m ms IH]; simpl; [discriminate|].
  destruct (weekly_chart m monday df) as [ts'|] eqn:E; simpl; [|discriminate].
  destruct (String.eqb m metric) eqn:Em; simpl.
  - apply String.eqb_eq in Em; subst m; intros H; rewrite E; exact H.
  - exact IH.
Qed.

Lemma chart_view_weekly_chart (selected_date : Z) (metric : string)
  (df : DataFrame) (ts : list trace) :
  chart_view selected_date metric df = Some ts ->
  weekly_chart metric (current_monday selected_date)
    (weekly_metrics (rename_categories df)) = Some ts.
Proof.
  unfold chart_view, chart_figures.
  destruct (rows df); [discriminate|].
  apply figures_find.
Qed.

(** X22.  The chart view renames the categories before it draws: the three
    long category names of the table never name a trace.  The category of
    every trace is the renamed category of a row of the fetched data, and
    [NU] and any category that is not in [category_map] keep their
    names. *)
Theorem chart_view_renames_categories (selected_date : Z) (metric : string)
  (df : DataFrame) (ts : list trace) :
  chart_view selected_date metric df = Some ts ->
  (forall t, In t ts ->
     (exists r0, In r0 (rows df) /\
                 fst (name t) = replace_category (category_of r0)) /\
     ~ In (fst (name t))
         [Str "DU_30_45_Days"; Str "DU_45+_Days"; Str "RU_last30_Days";
          Str "Unassigned"]) /\
  replace_category (Str "NU") = Str "NU" /\
  (forall c, ~ In c (map fst category_map) -> replace_category (Str c) = Str c).
Proof.
  intros H; split; [|split; [reflexivity|]].
  - intros t Ht; apply chart_view_weekly_chart in H.
    destruct (trace_category metric (current_monday selected_date)
                (weekly_metrics (rename_categories df)) ts t H Ht)
      as [[r [Hr E]] [N _]].
    destruct (category_of_chart_row df r Hr) as [r0 [Hr0 E0]].
    rewrite <- E, E0.
    split; [exists r0; auto|].
    intros [F|[F|[F|[F|[]]]]].
    + apply (replace_category_renamed (category_of r0)); rewrite <- F; simpl; auto.
    + apply (replace_category_renamed (category_of r0)); rewrite <- F; simpl; auto.
    + apply (replace_category_renamed (category_of r0)); rewrite <- F; simpl; auto.
    + apply N; rewrite <- E, E0; auto.
  - intros c Hc; simpl in Hc; cbv [replace_category category_map dict_get].
    destruct (String.eqb "DU_30_45_Days" c) eqn:E1;
      [apply String.eqb_eq in E1; tauto|].
    destruct (String.eqb "DU_45+_Days" c) eqn:E2;
      [apply String.eqb_eq in E2; tauto|].
    destruct (String.eqb "RU_last30_Days" c) eqn:E3;
      [apply String.eqb_eq in E3; tauto|].
    destruct (String.eqb "NU" c) eqn:E4;
      [apply String.eqb_eq in E4; tauto|].
    reflexivity.
Qed.

Lemma chart_view_renames_categories_witness :
  Forall (fun t =>
            (exists r0, In r0 (rows Weeks.two_weeks) /\
                        fst (name t) = replace_category (category_of r0)) /\
            ~ In (fst (name t))
                [Str "DU_30_45_Days"; Str "DU_45+_Days"; Str "RU_last30_Days";
                 Str "Unassigned"])
    Weeks.base_traces.
Proof.
  apply Forall_forall.
  exact (proj1 (chart_view_renames_categories 737999 "base" Weeks.two_weeks
                  Weeks.base_traces eq_refl)).
Defined.

(** ** The loop over the metrics of the chart view *)

Lemma figures_fst (ms : list string) (monday : Z) (df : DataFrame)
  (f : string * list trace) :
  In f (figures ms monday df) -> In (fst f) ms.
Proof.
  induction ms as [|m ms IH]; simpl; [tauto|].
  destruct (weekly_chart m monday df); simpl; [|tauto].
  intros [<-|H]; auto.
Qed.

(** No figure is drawn from the first metric whose date range fails. *)
Lemma figures_before (pre post : list string) (m : string) (monday : Z)
  (df : DataFrame) (f : string * list trace) :
  weekly_chart m monday df = None ->
  In f (figures (pre ++ m :: post) monday df) -> In (fst f) pre.
Proof.
  intros Hm; induction pre as [|x pre IH]; simpl.
  - rewrite Hm; tauto.
  - destruct (weekly_chart x monday df); simpl; [|tauto].
    intros [<-|H]; auto.
Qed.

Lemma find_figure (l : list (string * list trace)) (m : string)
  (f : string * list trace) :
  find (fun f => String.eqb (fst f) m) l = Some f -> In f l /\ fst f = m.
Proof.
  intros H; apply find_some in H; destruct H as [H E].
  apply String.eqb_eq in E; auto.
Qed.

(** A figure is drawn only after the figures of the metrics before it. *)
Lemma figures_drawn_before (pre post : list string) (m : string) (monday : Z)
  (df : DataFrame) :
  ~ In m pre ->
  find (fun f => String.eqb (fst f) m) (figures (pre ++ m :: post) monday df) <> None ->
  forall m', In m' pre ->
    find (fun f => String.eqb (fst f) m') (figures (pre ++ m :: post) monday df)
    <> None.
Proof.
  induction pre as [|x pre IH]; simpl; [tauto|].
  intros Hn; destruct (weekly_chart x monday df) as [ts|]; simpl; [|tauto].
  destruct (String.eqb x m) eqn:E;
    [apply String.eqb_eq in E; subst; tauto|].
  intros H m' [->|Hm'].
  - rewrite String.eqb_refl; discriminate.
  - destruct (String.eqb x m'); [discriminate|].
    apply IH; auto.
Qed.

(** X30.  The figures of the chart view are drawn in the order of
    [metrics], and the loop ends at the first metric for which
    [pd.date_range] raises: a figure is drawn only when the figures of all
    the metrics before it are drawn.  When no row of the chart's data
    passes the filter of VU % (every category is NU or Unassigned, or every
    base is 0), the figure of [vu_pct] is not drawn, and neither are the
    figures of the five metrics after it. *)
Theorem chart_view_stops_at_first_exception (selected_date : Z) (df : DataFrame) :
  (forall pre metric post,
     Chart.metrics = (pre ++ metric :: post)%list ->
     chart_view selected_date metric df <> None ->
     forall m, In m pre -> chart_view selected_date m df <> None) /\
  (metric_rows "vu_pct" (weekly_metrics (rename_categories df)) = [] ->
   forall m,
     In m ["vu_pct"; "repeat_rate"; "menu_sessions"; "cart_sessions";
           "menu_droppers"; "cart_droppers"]%string ->
     chart_view selected_date m df = None).
Proof.
  assert (Distinct : NoDup Chart.metrics).
  { unfold Chart.metrics.
    repeat (constructor; [simpl; intuition discriminate|]); constructor. }
  split.
  - intros pre metric post E H m Hm.
    assert (Hn : ~ In metric pre).
    { rewrite E in Distinct; apply NoDup_remove_2 in Distinct.
      intros F; apply Distinct, in_or_app; auto. }
    unfold chart_view, chart_figures in *.
    destruct (rows df); [contradiction H; reflexivity|].
    rewrite E in *.
    assert (G : find (fun f => String.eqb (fst f) metric)
                  (figures (pre ++ metric :: post) (current_monday selected_date)
                     (weekly_metrics (rename_categories df))) <> None)
      by (intros G; apply H; rewrite G; reflexivity).
    pose proof (figures_drawn_before pre post metric _ _ Hn G m Hm) as K.
    intros F; apply K.
    destruct (find (fun f => String.eqb (fst f) m) _); [discriminate F|reflexivity].
  - intros Hv m Hm.
    assert (Hnone : weekly_chart "vu_pct" (current_monday selected_date)
                      (weekly_metrics (rename_categories df)) = None)
      by (unfold weekly_chart; cbv zeta; rewrite Hv; reflexivity).
    unfold chart_view, chart_figures.
    destruct (rows df); [reflexivity|].
    destruct (find _ _) as [f|] eqn:F; [exfalso|reflexivity].
    apply find_figure in F; destruct F as [Hin Hf].
    apply (figures_before
             ["base"; "transacting_users"; "visitors"; "orders_on_date"; "tu_vu_pct"]%string
             ["repeat_rate"; "menu_sessions"; "cart_sessions"; "menu_droppers";
              "cart_droppers"]%string "vu_pct" _ _ f Hnone) in Hin.
    rewrite Hf in Hin; simpl in Hm, Hin.
    repeat (destruct Hm as [<-|Hm];
            [repeat (destruct Hin as [Hin|Hin]; [discriminate|]); contradiction|]).
    contradiction.
Qed.

Lemma chart_view_stops_at_first_exception_witness :
  chart_view 737999 "base" Weeks.new_users <> None /\
  chart_view 737999 "vu_pct" Weeks.new_users = None /\
  chart_view 737999 "cart_droppers" Weeks.new_users = None.
Proof.
  split; [vm_compute; discriminate|].
  split;
    apply (proj2 (chart_view_stops_at_first_exception 737999 Weeks.new_users) eq_refl);
    simpl; auto 10.
Defined.

(** ** Instances of the general facts on the three views *)

Lemma hourly_pct_change_no_infinity_witness :
  let out := hourly_pct_change "dpo_fc" Data.hourly_selected Data.hourly_compare in
  let r := nth 1 (rows out) [] in
  let p := nth 2 r (Name "", Num NaN) in
  fst p = Col 10 /\ is_inf (cell_of (snd p)) = false.
Proof.
  intros out r p; split; [reflexivity|].
  apply (hourly_pct_change_no_infinity "dpo_fc" Data.hourly_selected
           Data.hourly_compare r p).
  - vm_compute; auto.
  - vm_compute; auto.
  - reflexivity.
Defined.

Lemma dod_view_one_date_witness :
  dod_view stable_argsort "base" Cases.one_date =
  dod_pivot stable_argsort "base" (dod_metrics Cases.one_date) /\
  dod_displayed stable_argsort "base" Cases.one_date = None.
Proof.
  apply (dod_view_one_date stable_argsort "base" Cases.one_date 8).
  intros r Hr; simpl in Hr.
  destruct Hr as [<-|[<-|[]]]; reflexivity.
Defined.

Lemma dod_delta_zero_compare_row_witness :
  let r' := nth 0 (rows (dod_delta Data.zero_compare_pivot)) [] in
  eq_zero (num (Compare (Col 1)) r') = true /\
  is_finite (num (Name "% Change") r') = false.
Proof.
  intros r'; split; [reflexivity|].
  apply (dod_delta_zero_compare_row Data.zero_compare_pivot 1 8 r').
  - reflexivity.
  - reflexivity.
  - reflexivity.
  - vm_compute; auto.
  - reflexivity.
Defined.

Lemma dod_metrics_zero_visitors_witness :
  let r := nth 0 (rows (dod_metrics Data.zero_denominators)) [] in
  eq_zero (num (Name "visitors") r) = true /\
  is_finite (num (Name "tu_vu_pct") r) = false.
Proof.
  intros r; split; [reflexivity|].
  apply (dod_metrics_zero_visitors Data.zero_denominators r).
  - vm_compute; auto.
  - reflexivity.
Defined.

(** ** The two dates of the DoD view *)

Lemma pivot_table_column_from_rows (df : DataFrame) (values : label)
  (idx : list label) (col : label) (f : aggfunc) (z : Z) :
  In (Col z) (columns (pivot_table df values idx col f)) ->
  exists r, In r (rows df) /\ column_key col r = Some z.
Proof.
  unfold pivot_table; cbv zeta; cbn [columns]; intros H.
  apply in_map_iff in H; destruct H as [z' [E H]]; inversion E; subst z'.
  apply (Permutation_in _ (sorted_perm Z.leb _)) in H.
  apply dedup_In in H; apply in_map_iff in H.
  destruct H as [[k z'] [E' H]]; simpl in E'; subst z'.
  apply in_flat_map in H; destruct H as [r [Hr H]].
  destruct (group_key idx r) as [k1|]; [|contradiction].
  destruct (column_key col r) as [z1|] eqn:C; [|contradiction].
  destruct (is_nan _); [contradiction|].
  destruct H as [H|[]]; inversion H; subst; eauto.
Qed.

Lemma dod_metrics_start_date (df : DataFrame) (r : Row) :
  In r (rows (dod_metrics df)) ->
  exists r0, In r0 (rows df) /\
             lookup (Name "start_date") r = lookup (Name "start_date") r0.
Proof.
  unfold dod_metrics, set_column; simpl; rewrite !map_map.
  intros H; apply in_map_iff in H; destruct H as [r0 [<- Hr0]].
  exists r0; split; [exact Hr0|].
  rewrite !lookup_set_value; reflexivity.
Qed.

Lemma ascending_among_two (lo hi : Z) (ds : list Z) :
  lo < hi -> Sorted Z.lt ds -> (forall d, In d ds -> d = hi \/ d = lo) ->
  ds = [lo; hi] \/ (List.length ds <= 1)%nat.
Proof.
  intros Hlt Hs Hin.
  destruct ds as [|d1 [|d2 rest]]; [right; simpl; lia|right; simpl; lia|left].
  apply Sorted_inv in Hs; destruct Hs as [Hs H1].
  apply HdRel_inv in H1.
  assert (E1 : d1 = lo) by (destruct (Hin d1), (Hin d2); simpl; auto; lia).
  assert (E2 : d2 = hi) by (destruct (Hin d1), (Hin d2); simpl; auto; lia).
  subst; destruct rest as [|d3 rest]; [reflexivity|exfalso].
  apply Sorted_inv in Hs; destruct Hs as [_ H2]; apply HdRel_inv in H2.
  destruct (Hin d3); simpl; auto; lia.
Qed.

(** X27.  The query of the DoD view loads the rows of the selected date and
    of the compare date, which is not after the selected date.  On such
    rows the pivot has the compare date as its first column and the
    selected date as its second, and the view shows the delta table with
    the columns [% Change], [Absolute Diff], the selected date, the compare
    date: in every row of it the cell under the selected date is the cell
    of the pivot for the selected date, and the cell under the compare date
    the one for the compare date, for the same key.  When the pivot has a
    column for one date only, or none, the view shows no table. *)
Theorem dod_view_labels_the_two_dates (argsort : list Z -> list nat) (metric : string)
  (df : DataFrame) (selected_date compare_date : Z) :
  compare_date < selected_date ->
  (forall r, In r (rows df) ->
     lookup (Name "start_date") r = Some (Ord selected_date) \/
     lookup (Name "start_date") r = Some (Ord compare_date)) ->
  let pivot_df := dod_pivot argsort metric (dod_metrics df) in
  let shown := dod_displayed argsort metric df in
  (columns pivot_df = [Col compare_date; Col selected_date] /\
   exists t,
     shown = Some t /\
     columns t = [Name "% Change"; Name "Absolute Diff";
                  Selected (Col selected_date); Compare (Col compare_date)] /\
     forall r', In r' (rows t) ->
       exists r,
         In r (rows pivot_df) /\
         key_of (index_names pivot_df) r' = key_of (index_names pivot_df) r /\
         num (Selected (Col selected_date)) r' = num (Col selected_date) r /\
         num (Compare (Col compare_date)) r' = num (Col compare_date) r) \/
  ((List.length (columns pivot_df) <= 1)%nat /\ shown = None).
Proof.
  intros Hlt Hrows pivot_df shown.
  set (df_metric := if String.eqb metric "vu_pct"
                    then filter_rows engaged (dod_metrics df) else dod_metrics df).
  assert (Hcols : columns pivot_df =
                  columns (pivot_table df_metric (Name metric)
                             [Name "category"; Name "cohorts"] (Name "start_date")
                             (aggfunc_of DoD metric)))
    by apply dod_pivot_columns.
  destruct (pivot_table_columns_ascending df_metric (Name metric)
              [Name "category"; Name "cohorts"] (Name "start_date")
              (aggfunc_of DoD metric)) as [ds [Hds Hs]].
  assert (Hin : forall d, In d ds -> d = selected_date \/ d = compare_date).
  { intros d Hd.
    assert (Hc : In (Col d) (columns (pivot_table df_metric (Name metric)
                                        [Name "category"; Name "cohorts"]
                                        (Name "start_date") (aggfunc_of DoD metric))))
      by (rewrite Hds; apply in_map; exact Hd).
    apply pivot_table_column_from_rows in Hc; destruct Hc as [r [Hr Hk]].
    assert (Hr' : In r (rows (dod_metrics df))).
    { unfold df_metric in Hr; destruct (String.eqb metric "vu_pct"); auto.
      unfold filter_rows in Hr; cbn [rows] in Hr; apply filter_In in Hr; tauto. }
    destruct (dod_metrics_start_date df r Hr') as [r0 [Hr0 E]].
    unfold column_key in Hk; rewrite E in Hk.
    destruct (Hrows r0 Hr0) as [F|F]; rewrite F in Hk; inversion Hk; auto. }
  rewrite Hds in Hcols.
  destruct (ascending_among_two compare_date selected_date ds Hlt Hs Hin) as [E|E].
  - left; subst ds; split; [exact Hcols|].
    assert (Hsorted : sorted label_leb (columns pivot_df) =
                      [Col compare_date; Col selected_date]).
    { rewrite Hcols; unfold sorted; simpl.
      assert (L : (compare_date <=? selected_date) = true) by (apply Z.leb_le; lia).
      rewrite L; reflexivity. }
    exists (dod_view argsort metric df); split; [|split].
    + apply dod_displayed_two; fold pivot_df; rewrite Hcols; reflexivity.
    + unfold dod_view; fold pivot_df.
      rewrite (dod_delta_two_dates pivot_df compare_date selected_date); auto.
    + intros r' Hr'; unfold dod_view in Hr'; fold pivot_df in Hr'.
      destruct (dod_delta_row_inv pivot_df compare_date selected_date r' Hsorted Hlt Hr')
        as [r [Hr0 [_ ->]]].
      assert (Hne : compare_date <> selected_date) by lia.
      assert (Hp : plain_index pivot_df = true) by reflexivity.
      destruct (delta_row_cells (index_names pivot_df) compare_date selected_date
                  Hne Hp r) as [P [D [S C]]].
      exists r; split; [exact Hr0|].
      split; [apply delta_row_key; auto|].
      auto.
  - right; split; [rewrite Hcols, length_map; exact E|].
    apply dod_displayed_other; fold pivot_df.
    rewrite Hcols, length_map; lia.
Qed.

Lemma dod_view_labels_the_two_dates_witness :
  exists t,
    dod_displayed stable_argsort "base" Data.zero_compare = Some t /\
    columns t =
    [Name "% Change"; Name "Absolute Diff"; Selected (Col 8); Compare (Col 1)].
Proof.
  assert (H : forall r, In r (rows Data.zero_compare) ->
                lookup (Name "start_date") r = Some (Ord 8) \/
                lookup (Name "start_date") r = Some (Ord 1)).
  { intros r Hr; simpl in Hr.
    destruct Hr as [<-|[<-|[]]]; [right|left]; reflexivity. }
  destruct (dod_view_labels_the_two_dates stable_argsort "base" Data.zero_compare
              8 1 eq_refl H) as [[_ [t [E [C _]]]]|[_ N]].
  - exists t; split; assumption.
  - vm_compute in N; discriminate.
Defined.

(** ** The order of the cities *)

Lemma map_fst_combine_seq_any {A : Type} (a : nat) (ks : list A) :
  map fst (combine (seq a (List.length ks)) ks) = seq a (List.length ks).
Proof.
  revert a; induction ks as [|k ks IH]; intros a; simpl; auto.
  rewrite IH; reflexivity.
Qed.

Lemma in_combine_seq_any {A : Type} (d : A) (a : nat) (ks : list A) (i : nat) (k : A) :
  In (i, k) (combine (seq a (List.length ks)) ks) ->
  (a <= i)%nat /\ nth (i - a) ks d = k.
Proof.
  revert a; induction ks as [|x ks IH]; intros a; simpl; [tauto|].
  intros [H|H].
  - inversion H; subst; rewrite Nat.sub_diag; auto.
  - apply IH in H; destruct H as [Hle Hn]; split; [lia|].
    replace (i - a)%nat with (S (i - S a)) by lia; exact Hn.
Qed.

Lemma precedes_total (a b : cell) : precedes a b = false -> precedes b a = true.
Proof.
  destruct a as [| | |p], b as [| | |q]; unfold precedes, cell_leb; simpl;
    try reflexivity; try discriminate.
  intros H.
  destruct (Qle_bool p q) eqn:E; [reflexivity|exfalso].
  assert (Hq : ~ (q <= p)%Q) by (intros L; apply Qle_bool_iff in L; congruence).
  assert (Hp : ~ (p <= q)%Q) by (intros L; apply Qle_bool_iff in L; congruence).
  apply Hq, Qlt_le_weak, Qnot_le_lt, Hp.
Qed.

Lemma insertion_argsort_desc_spec : argsort_desc_spec insertion_argsort_desc.
Proof.
  intros ks; unfold insertion_argsort_desc; split.
  - rewrite sorted_perm, map_fst_combine_seq_any; reflexivity.
  - set (leb := fun a b : nat * cell => precedes (snd a) (snd b)).
    set (S := sorted leb (combine (seq 0 (List.length ks)) ks)).
    assert (E : map (fun i => nth i ks NaN) (map fst S) = map snd S).
    { rewrite map_map; apply map_ext_in; intros [i k] Hin; simpl.
      apply (Permutation_in _ (sorted_perm leb _)), (in_combine_seq_any NaN) in Hin.
      destruct Hin as [_ Hn]; rewrite Nat.sub_0_r in Hn; exact Hn. }
    rewrite E.
    apply (proj1 (Sorted_map snd (fun a b => precedes a b = true) S)).
    apply (sorted_Sorted (nat * cell) leb).
    + intros x y H; exact H.
    + intros x y H; apply precedes_total; exact H.
Qed.

Lemma Permutation_filter_same {A : Type} (p : A -> bool) (l l' : list A) :
  Permutation l l' -> Permutation (filter p l) (filter p l').
Proof.
  induction 1 as [|a l l' H IH|a b l|l l' l'' H1 IH1 H2 IH2]; simpl.
  - constructor.
  - destruct (p a); auto.
  - destruct (p a), (p b); auto; constructor.
  - etransitivity; eauto.
Qed.

(** The delta step works row by row: on the same rows in another order it
    gives the same rows in that order. *)
Lemma dod_delta_perm (p q : DataFrame) :
  index_names q = index_names p -> columns q = columns p ->
  Permutation (rows q) (rows p) ->
  Permutation (rows (dod_delta q)) (rows (dod_delta p)).
Proof.
  destruct p as [ip cp rp], q as [iq cq rq]; simpl; intros -> -> H.
  unfold dod_delta; simpl.
  destruct (sorted label_leb cp) as [|d0 [|d1 [|d2 l]]]; simpl; auto.
  repeat apply Permutation_map.
  apply Permutation_filter_same; exact H.
Qed.

Section SortByBase.

Variable argsort : list cell -> list nat.
Hypothesis kind : argsort_desc_spec argsort.
Variable latest : Z.
Variable df p : DataFrame.
Hypothesis by_city : index_names p = [Name "city"].
Hypothesis cols : Forall (fun l => is_col l = true) (columns p).
Hypothesis no_key : forall r, In r (rows p) -> lookup sort_key r = None.

Let size (r : Row) : cell := city_base_size df latest (city_of r).
Let keys : list cell := map size (rows p).

Lemma sort_by_base_rows :
  rows (sort_by_base argsort latest df p) = take (argsort keys) (rows p).
Proof.
  unfold sort_by_base, set_index, drop_column, sort_values_desc, set_column,
    reset_index; cbv zeta; cbn [rows].
  set (f := fun r : Row =>
              set_value sort_key (Num (city_base_size df latest (city_of r))) r).
  assert (K : map (num sort_key) (map f (rows p)) = keys).
  { unfold keys; rewrite map_map; apply map_ext; intros r; unfold f, size.
    rewrite num_set_value, label_eqb_refl; reflexivity. }
  rewrite K, take_map, map_map.
  rewrite <- (map_id (take (argsort keys) (rows p))) at 2.
  apply map_ext_in; intros r Hr; apply take_In in Hr.
  unfold f; rewrite drop_value_set_value.
  apply drop_value_absent, no_key, Hr.
Qed.

Lemma sort_by_base_index_names :
  index_names (sort_by_base argsort latest df p) = index_names p.
Proof. rewrite by_city; reflexivity. Qed.

Lemma sort_by_base_columns : columns (sort_by_base argsort latest df p) = columns p.
Proof.
  unfold sort_by_base, set_index, drop_column, sort_values_desc, set_column,
    reset_index; cbv zeta; cbn [columns index_names].
  rewrite by_city.
  assert (M : mem_label sort_key ([Name "city"] ++ columns p) = false).
  { simpl; apply not_true_is_false; intros H; apply mem_label_In in H.
    rewrite Forall_forall in cols; apply cols in H; discriminate. }
  rewrite M, !filter_app; simpl; rewrite app_nil_r.
  rewrite (filter_all_true (fun l => negb (label_eqb l sort_key))).
  - apply filter_all_true.
    eapply Forall_impl; [|exact cols]; intros [s|z|l|l]; simpl; try discriminate; auto.
  - eapply Forall_impl; [|exact cols]; intros [s|z|l|l]; simpl; try discriminate; auto.
Qed.

Lemma sort_by_base_argsort_perm :
  Permutation (argsort keys) (seq 0 (List.length (rows p))).
Proof.
  destruct (kind keys) as [Hp _].
  unfold keys in Hp at 2; rewrite length_map in Hp; exact Hp.
Qed.

Lemma sort_by_base_perm : Permutation (rows (sort_by_base argsort latest df p)) (rows p).
Proof.
  rewrite sort_by_base_rows; apply take_perm, sort_by_base_argsort_perm.
Qed.

Lemma sort_by_base_Sorted :
  Sorted (fun r r' => precedes (size r) (size r') = true)
    (rows (sort_by_base argsort latest df p)).
Proof.
  rewrite sort_by_base_rows.
  apply (proj2 (Sorted_map size (fun a b => precedes a b = true) _)).
  rewrite (map_take_nth size NaN) by apply perm_seq_bound, sort_by_base_argsort_perm.
  apply (kind keys).
Qed.

End SortByBase.

(** X28.  The sort step of the city view only reorders the rows of the
    pivot.  The cities come in the order of their base on the latest date
    of the data, the largest first and the cities without a row on that
    date last, whatever the metric of the table; the index, the columns and
    the cells are the ones of the pivot, and the delta table of the sorted
    pivot has the rows of the delta table of the pivot, in another
    order. *)
Theorem sort_by_base_reorders_rows (argsort : list cell -> list nat) (latest : Z)
  (df p : DataFrame) :
  argsort_desc_spec argsort ->
  index_names p = [Name "city"] ->
  Forall (fun l => is_col l = true) (columns p) ->
  (forall r, In r (rows p) -> lookup sort_key r = None) ->
  let out := sort_by_base argsort latest df p in
  index_names out = index_names p /\
  columns out = columns p /\
  Permutation (rows out) (rows p) /\
  Sorted (fun r r' =>
            precedes (city_base_size df latest (city_of r))
                     (city_base_size df latest (city_of r')) = true) (rows out) /\
  Permutation (rows (city_delta out)) (rows (city_delta p)).
Proof.
  intros K Hi Hc Hn out; unfold out.
  assert (I : index_names (sort_by_base argsort latest df p) = index_names p)
    by (apply sort_by_base_index_names; exact Hi).
  assert (C : columns (sort_by_base argsort latest df p) = columns p)
    by (apply sort_by_base_columns; assumption).
  assert (P : Permutation (rows (sort_by_base argsort latest df p)) (rows p))
    by (apply sort_by_base_perm; assumption).
  split; [exact I|]; split; [exact C|]; split; [exact P|]; split.
  - apply sort_by_base_Sorted; assumption.
  - rewrite !city_delta_eq; apply dod_delta_perm; assumption.
Qed.

Lemma sort_by_base_reorders_rows_witness :
  let df := city_metrics Cities.three_cities in
  let out := sort_by_base insertion_argsort_desc 8 df (city_pivot "base" df) in
  latest_date df = Some 8 /\
  index out = [[Str "Pune"]; [Str "Agra"]; [Str "Kota"]] /\
  Permutation (rows out) (rows (city_pivot "base" df)).
Proof.
  intros df out; split; [reflexivity|]; split; [reflexivity|].
  apply (sort_by_base_reorders_rows insertion_argsort_desc 8 df (city_pivot "base" df)
           insertion_argsort_desc_spec).
  - reflexivity.
  - vm_compute; repeat constructor.
  - intros r Hr; vm_compute in Hr.
    destruct Hr as [<-|[<-|[<-|[]]]]; reflexivity.
Defined.

(** ** The cells of the pivots of the hourly view *)



(** ** The aggregation of each view *)




